(** * Reddit-Tracker: ingestion (reddit_monitor.py) and reconciliation
      (merge_data.py) over the four SQLite tables.

    The development embeds the two programs as functions over an explicit
    database value.  A table is the list of its rows in rowid order; the
    AUTOINCREMENT [id] column is never read by the embedded code and is left
    implicit in the position of a row.  A statement run through a cursor
    changes the connection's pending view only; the database file changes at
    [commit()], and an exception that leaves the function before [commit()]
    leaves the file as it was.

    The monitoring cycle ([monitor_user]) runs its three saves on three
    connections; what the fetch functions return, the clock, the date
    conversion, the network and the disk are parameters. *)

From Stdlib Require Import ZArith String Ascii List Bool Lia.
From stdpp Require Import base option list gmap strings.

Local Open Scope Z_scope.
Local Open Scope string_scope.
Local Open Scope list_scope.

(** ** Column values *)

(** A column holds SQL NULL (Python [None]) or a value of its declared type.
    REAL values are only ever copied, so they are carried by their binary64
    bit pattern. *)
Definition float64 := Z.

Definition is_null {A} (v : option A) : bool :=
  match v with None => true | Some _ => false end.

(** [col = ?] in a WHERE clause: never true when either side is NULL. *)
Definition sql_eq (a b : option string) : bool :=
  match a, b with
  | Some x, Some y => String.eqb x y
  | _, _ => false
  end.

(** Python truthiness of a TEXT-or-None value: [None] and [''] are falsy. *)
Definition truthy (v : option string) : bool :=
  match v with
  | Some s => negb (String.eqb s EmptyString)
  | None => false
  end.

(** Python [a > b] on [str]: code point order, which on UTF-8 encoded text is
    the byte-wise lexicographic order. *)
Definition str_gt (a b : string) : bool :=
  match String.compare a b with Gt => true | _ => false end.

(** [row["last_updated"] and existing["last_updated"]] followed by
    [row["last_updated"] > existing["last_updated"]]. *)
Definition both_present (s t : option string) : bool := truthy s && truthy t.

Definition strictly_newer (s t : option string) : bool :=
  match s, t with
  | Some a, Some b => str_gt a b
  | _, _ => false
  end.

(** ** Exceptions and results *)

Inductive exn :=
| IntegrityError    (* sqlite3: NOT NULL or UNIQUE constraint failed *)
| OperationalError  (* sqlite3: no such table *)
| TypeError
| OverflowError     (* an integer out of range: datetime.fromtimestamp
                       (where Python raises OverflowError, ValueError or
                       OSError by magnitude and platform; one name stands
                       for the three) *)
| SameFileError.    (* shutil.copy onto the same file *)

Inductive result (A : Type) :=
| Ok (a : A)
| Raise (e : exn).
Arguments Ok {A} a.
Arguments Raise {A} e.

#[global] Instance result_ret : MRet result := fun A a => Ok a.
#[global] Instance result_bind : MBind result := fun A B f m =>
  match m with
  | Ok a => f a
  | Raise e => Raise e
  end.

(** A [for] loop whose body may raise: the first exception ends the loop. *)
Fixpoint for_each {R S} (body : R -> S -> result S) (rows : list R) (s : S)
  : result S :=
  match rows with
  | [] => Ok s
  | r :: rest =>
      match body r s with
      | Ok s' => for_each body rest s'
      | Raise e => Raise e
      end
  end.

(** ** The schema of [init_database] *)

Module AccountSnapshots.
Record row := mk {
  username : option string;          (* TEXT NOT NULL *)
  timestamp : option string;         (* DATETIME DEFAULT CURRENT_TIMESTAMP *)
  post_karma : option Z;
  comment_karma : option Z;
  total_karma : option Z;
  account_created : option string;
  is_gold : option bool;
  is_mod : option bool;
  has_verified_email : option bool;
  raw_data : option string
}.
End AccountSnapshots.

Module Posts.
Record row := mk {
  post_id : option string;           (* TEXT UNIQUE NOT NULL *)
  username : option string;          (* TEXT NOT NULL *)
  subreddit : option string;
  title : option string;
  selftext : option string;
  url : option string;
  local_image_path : option string;
  score : option Z;
  upvote_ratio : option float64;
  num_comments : option Z;
  created_utc : option string;
  first_seen : option string;        (* DATETIME DEFAULT CURRENT_TIMESTAMP *)
  last_updated : option string;      (* DATETIME DEFAULT CURRENT_TIMESTAMP *)
  is_self : option bool;
  over_18 : option bool;
  permalink : option string
}.
End Posts.

Module Comments.
Record row := mk {
  comment_id : option string;        (* TEXT UNIQUE NOT NULL *)
  username : option string;          (* TEXT NOT NULL *)
  subreddit : option string;
  body : option string;
  score : option Z;
  created_utc : option string;
  first_seen : option string;
  last_updated : option string;
  parent_id : option string;
  link_id : option string;
  permalink : option string
}.
End Comments.

Module ScoreHistory.
Record row := mk {
  item_type : option string;         (* TEXT NOT NULL *)
  item_id : option string;           (* TEXT NOT NULL *)
  score : option Z;
  timestamp : option string          (* DATETIME DEFAULT CURRENT_TIMESTAMP *)
}.
End ScoreHistory.

Record database := mk_database {
  account_snapshots : list AccountSnapshots.row;
  posts : list Posts.row;
  comments : list Comments.row;
  score_history : list ScoreHistory.row
}.

Definition empty_database : database := mk_database [] [] [] [].

(** ** Statements *)

(** [cursor.fetchone()] after a SELECT with a WHERE clause. *)
Definition fetchone {R} (where_ : R -> bool) (table : list R) : option R :=
  List.find where_ table.

(** [UPDATE t SET ... WHERE ...]. *)
Definition update_where {R} (where_ : R -> bool) (set : R -> R) (table : list R)
  : list R :=
  List.map (fun r => if where_ r then set r else r) table.

(** [INSERT INTO account_snapshots]: username is NOT NULL. *)
Definition insert_account_snapshot (r : AccountSnapshots.row)
    (table : list AccountSnapshots.row) : result (list AccountSnapshots.row) :=
  if is_null (AccountSnapshots.username r) then Raise IntegrityError
  else Ok (table ++ [r]).

(** [INSERT INTO score_history]: item_type and item_id are NOT NULL. *)
Definition insert_score_history (r : ScoreHistory.row)
    (table : list ScoreHistory.row) : result (list ScoreHistory.row) :=
  if is_null (ScoreHistory.item_type r) || is_null (ScoreHistory.item_id r)
  then Raise IntegrityError
  else Ok (table ++ [r]).

(** [INSERT INTO posts]: post_id is UNIQUE NOT NULL, username NOT NULL. *)
Definition insert_post (r : Posts.row) (table : list Posts.row)
  : result (list Posts.row) :=
  if is_null (Posts.post_id r) || is_null (Posts.username r)
  then Raise IntegrityError
  else if existsb (fun e => sql_eq (Posts.post_id e) (Posts.post_id r)) table
  then Raise IntegrityError
  else Ok (table ++ [r]).

(** [INSERT INTO comments]: comment_id is UNIQUE NOT NULL, username NOT NULL. *)
Definition insert_comment (r : Comments.row) (table : list Comments.row)
  : result (list Comments.row) :=
  if is_null (Comments.comment_id r) || is_null (Comments.username r)
  then Raise IntegrityError
  else if existsb (fun e => sql_eq (Comments.comment_id e) (Comments.comment_id r)) table
  then Raise IntegrityError
  else Ok (table ++ [r]).

(** ** merge_data.py *)

(** One entry of the [stats] dictionary.  The two append-only tables have no
    ["updated"] key: their passes never touch that counter. *)
Record counts := mk_counts { added : nat; updated : nat; skipped : nat }.

Definition no_counts : counts := mk_counts 0 0 0.
Definition count_added (c : counts) := mk_counts (S (added c)) (updated c) (skipped c).
Definition count_updated (c : counts) := mk_counts (added c) (S (updated c)) (skipped c).
Definition count_skipped (c : counts) := mk_counts (added c) (updated c) (S (skipped c)).

Record stats := mk_stats {
  st_account_snapshots : counts;
  st_posts : counts;
  st_comments : counts;
  st_score_history : counts
}.

(** WHERE username = ? AND timestamp = ? *)
Definition same_snapshot (row e : AccountSnapshots.row) : bool :=
  sql_eq (AccountSnapshots.username e) (AccountSnapshots.username row)
  && sql_eq (AccountSnapshots.timestamp e) (AccountSnapshots.timestamp row).

(** Body of the loop over the source's account_snapshots. *)
Definition merge_account_snapshot (row : AccountSnapshots.row)
    (s : list AccountSnapshots.row * counts)
  : result (list AccountSnapshots.row * counts) :=
  let '(table, c) := s in
  match fetchone (same_snapshot row) table with
  | None =>
      table' ← insert_account_snapshot row table;
      Ok (table', count_added c)
  | Some _ => Ok (table, count_skipped c)
  end.

(** WHERE post_id = ? *)
Definition same_post (row e : Posts.row) : bool :=
  sql_eq (Posts.post_id e) (Posts.post_id row).

(** UPDATE posts SET score, upvote_ratio, num_comments, last_updated. *)
Definition update_post_from (row e : Posts.row) : Posts.row :=
  Posts.mk (Posts.post_id e) (Posts.username e) (Posts.subreddit e)
    (Posts.title e) (Posts.selftext e) (Posts.url e) (Posts.local_image_path e)
    (Posts.score row) (Posts.upvote_ratio row) (Posts.num_comments row)
    (Posts.created_utc e) (Posts.first_seen e) (Posts.last_updated row)
    (Posts.is_self e) (Posts.over_18 e) (Posts.permalink e).

(** Body of the loop over the source's posts. *)
Definition merge_post (row : Posts.row) (s : list Posts.row * counts)
  : result (list Posts.row * counts) :=
  let '(table, c) := s in
  match fetchone (same_post row) table with
  | None =>
      table' ← insert_post row table;
      Ok (table', count_added c)
  | Some existing =>
      if both_present (Posts.last_updated row) (Posts.last_updated existing) then
        if strictly_newer (Posts.last_updated row) (Posts.last_updated existing)
        then Ok (update_where (same_post row) (update_post_from row) table,
                 count_updated c)
        else Ok (table, count_skipped c)
      else Ok (table, count_skipped c)
  end.

(** WHERE comment_id = ? *)
Definition same_comment (row e : Comments.row) : bool :=
  sql_eq (Comments.comment_id e) (Comments.comment_id row).

(** UPDATE comments SET score, last_updated. *)
Definition update_comment_from (row e : Comments.row) : Comments.row :=
  Comments.mk (Comments.comment_id e) (Comments.username e)
    (Comments.subreddit e) (Comments.body e) (Comments.score row)
    (Comments.created_utc e) (Comments.first_seen e)
    (Comments.last_updated row) (Comments.parent_id e) (Comments.link_id e)
    (Comments.permalink e).

(** Body of the loop over the source's comments. *)
Definition merge_comment (row : Comments.row) (s : list Comments.row * counts)
  : result (list Comments.row * counts) :=
  let '(table, c) := s in
  match fetchone (same_comment row) table with
  | None =>
      table' ← insert_comment row table;
      Ok (table', count_added c)
  | Some existing =>
      if both_present (Comments.last_updated row) (Comments.last_updated existing) then
        if strictly_newer (Comments.last_updated row) (Comments.last_updated existing)
        then Ok (update_where (same_comment row) (update_comment_from row) table,
                 count_updated c)
        else Ok (table, count_skipped c)
      else Ok (table, count_skipped c)
  end.

(** WHERE item_type = ? AND item_id = ? AND timestamp = ? *)
Definition same_history (row e : ScoreHistory.row) : bool :=
  sql_eq (ScoreHistory.item_type e) (ScoreHistory.item_type row)
  && sql_eq (ScoreHistory.item_id e) (ScoreHistory.item_id row)
  && sql_eq (ScoreHistory.timestamp e) (ScoreHistory.timestamp row).

(** Body of the loop over the source's score_history. *)
Definition merge_score_history (row : ScoreHistory.row)
    (s : list ScoreHistory.row * counts)
  : result (list ScoreHistory.row * counts) :=
  let '(table, c) := s in
  match fetchone (same_history row) table with
  | None =>
      table' ← insert_score_history row table;
      Ok (table', count_added c)
  | Some _ => Ok (table, count_skipped c)
  end.

(** The four loops of [merge_databases], from the first SELECT on the source
    to just before [target_conn.commit()].  [source] is what the source
    connection reads, [target] the pending view of the target connection. *)
Definition merge_tables (source target : database) : result (database * stats) :=
  '(snaps, c1) ← for_each merge_account_snapshot (account_snapshots source)
                    (account_snapshots target, no_counts);
  '(ps, c2) ← for_each merge_post (posts source) (posts target, no_counts);
  '(cs, c3) ← for_each merge_comment (comments source) (comments target, no_counts);
  '(hs, c4) ← for_each merge_score_history (score_history source)
                 (score_history target, no_counts);
  Ok (mk_database snaps ps cs hs, mk_stats c1 c2 c3 c4).

(** What a call of [merge_databases] does: it returns [False] after printing
    that an input is missing, returns [True] after printing the statistics, or
    leaves through an exception. *)
Inductive outcome :=
| ReturnFalse
| ReturnTrue (st : stats)
| Raised (e : exn).

(** [if output_path:] *)
Definition output_given (output_path : option string) : option string :=
  match output_path with
  | Some p => if String.eqb p EmptyString then None else Some p
  | None => None
  end.

(** The path the target connection is opened on. *)
Definition effective_target (target_path : string) (output_path : option string)
  : string :=
  match output_given output_path with
  | Some out => out
  | None => target_path
  end.

(** The file system maps the path of a database file to its committed
    content. *)
Definition merge_databases (fs : gmap string database)
    (source_path target_path : string) (output_path : option string)
  : outcome * gmap string database :=
  match fs !! source_path with
  | None => (ReturnFalse, fs)            (* if not source_path.exists() *)
  | Some _ =>
    match fs !! target_path with
    | None => (ReturnFalse, fs)          (* if not target_path.exists() *)
    | Some target_db =>
      (* shutil.copy(target_path, output_path); target_path = output_path *)
      let copied :=
        match output_given output_path with
        | Some out =>
            if String.eqb out target_path then Raise SameFileError
            else Ok (<[out := target_db]> fs)
        | None => Ok fs
        end in
      match copied with
      | Raise e => (Raised e, fs)
      | Ok fs1 =>
        let target_path' := effective_target target_path output_path in
        match fs1 !! source_path, fs1 !! target_path' with
        | Some source, Some target =>
            match merge_tables source target with
            | Ok (merged, st) =>
                (* target_conn.commit() *)
                (ReturnTrue st, <[target_path' := merged]> fs1)
            | Raise e =>
                (* the exception leaves before commit(): the pending view of
                   the target connection is dropped *)
                (Raised e, fs1)
            end
        | _, _ => (Raised OperationalError, fs1)
        end
      end
    end
  end.

(** ** reddit_monitor.py *)

(** A key of a payload dictionary is absent, or present with a JSON value
    that may be [null]. *)
Inductive field (A : Type) :=
| Absent
| Present (v : option A).
Arguments Absent {A}.
Arguments Present {A} v.

(** [d.get(k)] *)
Definition get {A} (f : field A) : option A :=
  match f with Absent => None | Present v => v end.

(** [d.get(k, default)] *)
Definition get_or {A} (default : A) (f : field A) : option A :=
  match f with Absent => Some default | Present v => v end.

(** The keys of a post, as [save_posts] reads them. *)
Module Post.
Record payload := mk {
  id : field string;
  created_utc : field Z;
  score : field Z;
  upvote_ratio : field float64;
  num_comments : field Z;
  url : field string;
  subreddit : field string;
  title : field string;
  selftext : field string;
  is_self : field bool;
  over_18 : field bool;
  permalink : field string
}.
End Post.

(** The keys of a comment, as [save_comments] reads them. *)
Module Comment.
Record payload := mk {
  id : field string;
  created_utc : field Z;
  score : field Z;
  subreddit : field string;
  body : field string;
  parent_id : field string;
  link_id : field string;
  permalink : field string
}.
End Comment.

(** The pending view of the connection opened by one call, and the number of
    statements the cursor has executed so far. *)
Record session := mk_session { db : database; statements : nat }.

Definition with_posts (d : database) (t : list Posts.row) : database :=
  mk_database (account_snapshots d) t (comments d) (score_history d).
Definition with_comments (d : database) (t : list Comments.row) : database :=
  mk_database (account_snapshots d) (posts d) t (score_history d).
Definition with_score_history (d : database) (t : list ScoreHistory.row) : database :=
  mk_database (account_snapshots d) (posts d) (comments d) t.

Section Ingestion.

(** The world outside the program: the value of CURRENT_TIMESTAMP seen by
    the n-th statement of the call, the local-time ISO rendering of an epoch
    ([None] when the platform rejects it), and the part of [download_image]
    that talks to the network and the disk ([None] when the URL is no image
    or anything in the [try] block fails). *)
Variable current_timestamp : nat -> string.
Variable isoformat : Z -> option string.
Variable fetch_image : string -> option string -> option string.

(** [cursor.execute] of a statement that changes the pending view. *)
Definition execute (stmt : string -> database -> result database) (s : session)
  : result session :=
  d ← stmt (current_timestamp (statements s)) (db s);
  Ok (mk_session d (S (statements s))).

(** [cursor.execute] of a SELECT followed by [fetchone()]. *)
Definition query {R} (sel : database -> option R) (s : session)
  : option R * session :=
  (sel (db s), mk_session (db s) (S (statements s))).

(** [datetime.fromtimestamp(x).isoformat()].  Which epochs convert is left
    to [isoformat]; one that does not raises, and the model does not tell
    the three exceptions Python may choose apart. *)
Definition fromtimestamp_isoformat (x : option Z) : result string :=
  match x with
  | None => Raise TypeError
  | Some z =>
      match isoformat z with
      | Some s => Ok s
      | None => Raise OverflowError
      end
  end.

Definition download_image (url post_id : option string) : option string :=
  match url with
  | None => None
  | Some u =>
      if String.eqb u EmptyString
         || existsb (String.eqb u) ["self"; "default"; "nsfw"; "spoiler"]
      then None
      else fetch_image u post_id
  end.

(** UPDATE posts SET score = ?, upvote_ratio = ?, num_comments = ?,
    last_updated = CURRENT_TIMESTAMP WHERE post_id = ? *)
Definition touch_post (new_score : option Z) (post : Post.payload) (now : string)
    (e : Posts.row) : Posts.row :=
  Posts.mk (Posts.post_id e) (Posts.username e) (Posts.subreddit e)
    (Posts.title e) (Posts.selftext e) (Posts.url e) (Posts.local_image_path e)
    new_score (get (Post.upvote_ratio post)) (get (Post.num_comments post))
    (Posts.created_utc e) (Posts.first_seen e) (Some now)
    (Posts.is_self e) (Posts.over_18 e) (Posts.permalink e).

(** INSERT INTO score_history (item_type, item_id, score) *)
Definition log_score (kind : string) (item_id : option string) (score : option Z)
    (now : string) (d : database) : result database :=
  t ← insert_score_history
        (ScoreHistory.mk (Some kind) item_id score (Some now)) (score_history d);
  Ok (with_score_history d t).

(** Body of the loop of [save_posts]. *)
Definition save_post (username : string) (post : Post.payload) (s : session)
  : result session :=
  let post_id := get (Post.id post) in
  created ← fromtimestamp_isoformat (get_or 0 (Post.created_utc post));
  let '(existing, s) :=
    query (fun d => fetchone (fun e => sql_eq (Posts.post_id e) post_id) (posts d)) s in
  match existing with
  | Some e =>
      let old_score := Posts.score e in
      let new_score := get_or 0 (Post.score post) in
      s ← execute (fun now d =>
             Ok (with_posts d
                   (update_where (fun e => sql_eq (Posts.post_id e) post_id)
                      (touch_post new_score post now) (posts d)))) s;
      if bool_decide (old_score = new_score) then Ok s
      else execute (log_score "post" post_id new_score) s
  | None =>
      let image_url := get_or EmptyString (Post.url post) in
      let local_image_path := download_image image_url post_id in
      s ← execute (fun now d =>
             t ← insert_post
                   (Posts.mk post_id (Some username) (get (Post.subreddit post))
                      (get (Post.title post)) (get (Post.selftext post))
                      image_url local_image_path
                      (get (Post.score post)) (get (Post.upvote_ratio post))
                      (get (Post.num_comments post)) (Some created)
                      (Some now) (Some now)
                      (get (Post.is_self post)) (get (Post.over_18 post))
                      (get (Post.permalink post)))
                   (posts d);
             Ok (with_posts d t)) s;
      s ← execute (log_score "post" post_id (get_or 0 (Post.score post))) s;
      if truthy local_image_path then
        (* post.get('title', '')[:40] *)
        match get_or EmptyString (Post.title post) with
        | Some _ => Ok s
        | None => Raise TypeError
        end
      else Ok s
  end.

(** UPDATE comments SET score = ?, last_updated = CURRENT_TIMESTAMP
    WHERE comment_id = ? *)
Definition touch_comment (new_score : option Z) (now : string)
    (e : Comments.row) : Comments.row :=
  Comments.mk (Comments.comment_id e) (Comments.username e)
    (Comments.subreddit e) (Comments.body e) new_score
    (Comments.created_utc e) (Comments.first_seen e) (Some now)
    (Comments.parent_id e) (Comments.link_id e) (Comments.permalink e).

(** Body of the loop of [save_comments]. *)
Definition save_comment (username : string) (comment : Comment.payload)
    (s : session) : result session :=
  let comment_id := get (Comment.id comment) in
  created ← fromtimestamp_isoformat (get_or 0 (Comment.created_utc comment));
  let '(existing, s) :=
    query (fun d => fetchone (fun e => sql_eq (Comments.comment_id e) comment_id)
                      (comments d)) s in
  match existing with
  | Some e =>
      let old_score := Comments.score e in
      let new_score := get_or 0 (Comment.score comment) in
      s ← execute (fun now d =>
             Ok (with_comments d
                   (update_where (fun e => sql_eq (Comments.comment_id e) comment_id)
                      (touch_comment new_score now) (comments d)))) s;
      if bool_decide (old_score = new_score) then Ok s
      else execute (log_score "comment" comment_id new_score) s
  | None =>
      s ← execute (fun now d =>
             t ← insert_comment
                   (Comments.mk comment_id (Some username)
                      (get (Comment.subreddit comment)) (get (Comment.body comment))
                      (get (Comment.score comment)) (Some created)
                      (Some now) (Some now)
                      (get (Comment.parent_id comment)) (get (Comment.link_id comment))
                      (get (Comment.permalink comment)))
                   (comments d);
             Ok (with_comments d t)) s;
      execute (log_score "comment" comment_id (get_or 0 (Comment.score comment))) s
  end.

(** [save_posts]: connect, loop, commit.  The file is returned together with
    the exception that left the call, if any. *)
Definition save_posts (username : string) (posts : list Post.payload)
    (file : database) : option exn * database :=
  match for_each (save_post username) posts (mk_session file 0) with
  | Ok s => (None, db s)                 (* conn.commit() *)
  | Raise e => (Some e, file)
  end.

Definition save_comments (username : string) (comments : list Comment.payload)
    (file : database) : option exn * database :=
  match for_each (save_comment username) comments (mk_session file 0) with
  | Ok s => (None, db s)                 (* conn.commit() *)
  | Raise e => (Some e, file)
  end.

End Ingestion.

(** ** The two shapes of a reconciliation loop

    The four loop bodies of [merge_databases] come in two shapes.  They are
    stated once over an arbitrary row type, so that what is proved of a shape
    holds for each table that instantiates it. *)

Section AppendOnly.
Context {R : Type}.
Variable same : R -> R -> bool.
Variable insert : R -> list R -> result (list R).

(** Insert the source row unless the SELECT finds a row. *)
Definition append_missing (row : R) (s : list R * counts)
  : result (list R * counts) :=
  let '(table, c) := s in
  match fetchone (same row) table with
  | None =>
      table' ← insert row table;
      Ok (table', count_added c)
  | Some _ => Ok (table, count_skipped c)
  end.
End AppendOnly.

Section LastWriterWins.
Context {R : Type}.
Variable key : R -> option string.
Variable stamp : R -> option string.
Variable insert : R -> list R -> result (list R).
Variable refresh : R -> R -> R.

Definition same_key (row e : R) : bool := sql_eq (key e) (key row).

(** Insert the source row when its key is new; otherwise overwrite the
    mutable columns when both timestamps are truthy and the source's is the
    greater, and skip in every other case. *)
Definition reconcile (row : R) (s : list R * counts)
  : result (list R * counts) :=
  let '(table, c) := s in
  match fetchone (same_key row) table with
  | None =>
      table' ← insert row table;
      Ok (table', count_added c)
  | Some existing =>
      if both_present (stamp row) (stamp existing) then
        if strictly_newer (stamp row) (stamp existing)
        then Ok (update_where (same_key row) (refresh row) table, count_updated c)
        else Ok (table, count_skipped c)
      else Ok (table, count_skipped c)
  end.

(** The source row wins over the stored one. *)
Definition wins (row existing : R) : bool :=
  both_present (stamp row) (stamp existing)
  && strictly_newer (stamp row) (stamp existing).

(** The stored row with the given key. *)
Definition lookup_key (k : string) (table : list R) : option R :=
  fetchone (fun e => sql_eq (key e) (Some k)) table.

(** The table holds a row for the source row's key that the source row does
    not win over: the loop body will skip it. *)
Definition settled (row : R) (table : list R) : Prop :=
  exists e, fetchone (same_key row) table = Some e /\ wins row e = false.
End LastWriterWins.

(** The counters after [n] more skips. *)
Definition skip_many (n : nat) (c : counts) : counts :=
  mk_counts (added c) (updated c) (n + skipped c).

(** ** Identities, as the reconciliation compares them *)

(** The (username, timestamp) pair of a snapshot; [None] when a component is
    NULL, which no WHERE clause ever matches. *)
Definition snapshot_identity (r : AccountSnapshots.row) : option (string * string) :=
  match AccountSnapshots.username r, AccountSnapshots.timestamp r with
  | Some u, Some t => Some (u, t)
  | _, _ => None
  end.

(** The (item_type, item_id, timestamp) triple of a score-history entry. *)
Definition history_identity (r : ScoreHistory.row)
  : option (string * string * string) :=
  match ScoreHistory.item_type r, ScoreHistory.item_id r, ScoreHistory.timestamp r with
  | Some k, Some i, Some t => Some (k, i, t)
  | _, _, _ => None
  end.

(** Every snapshot and score-history row carries a timestamp. *)
Definition timestamps_recorded (d : database) : bool :=
  forallb (fun r => negb (is_null (AccountSnapshots.timestamp r))) (account_snapshots d)
  && forallb (fun r => negb (is_null (ScoreHistory.timestamp r))) (score_history d).

(** No row was added and none was updated. *)
Definition nothing_changed (c : counts) : bool :=
  Nat.eqb (added c) 0 && Nat.eqb (updated c) 0.

Definition no_changes (st : stats) : bool :=
  nothing_changed (st_account_snapshots st) && nothing_changed (st_posts st)
  && nothing_changed (st_comments st) && nothing_changed (st_score_history st).

(** The identity columns as stored, NULLs included. *)
Definition snapshot_key (r : AccountSnapshots.row) : option string * option string :=
  (AccountSnapshots.username r, AccountSnapshots.timestamp r).

Definition history_key (r : ScoreHistory.row)
  : option string * option string * option string :=
  (ScoreHistory.item_type r, ScoreHistory.item_id r, ScoreHistory.timestamp r).

(** The columns of a post that the UPDATE statements set, and the others. *)
Definition post_mutable (r : Posts.row) :=
  (Posts.score r, Posts.upvote_ratio r, Posts.num_comments r, Posts.last_updated r).

Definition post_fixed (r : Posts.row) :=
  (Posts.post_id r, Posts.username r, Posts.subreddit r, Posts.title r,
   Posts.selftext r, Posts.url r, Posts.local_image_path r, Posts.created_utc r,
   Posts.first_seen r, Posts.is_self r, Posts.over_18 r, Posts.permalink r).

Definition comment_mutable (r : Comments.row) :=
  (Comments.score r, Comments.last_updated r).

Definition comment_fixed (r : Comments.row) :=
  (Comments.comment_id r, Comments.username r, Comments.subreddit r,
   Comments.body r, Comments.created_utc r, Comments.first_seen r,
   Comments.parent_id r, Comments.link_id r, Comments.permalink r).

(** The statistics of a run that skips every row of the source. *)
Definition all_skipped (source : database) : stats :=
  mk_stats (skip_many (length (account_snapshots source)) no_counts)
           (skip_many (length (posts source)) no_counts)
           (skip_many (length (comments source)) no_counts)
           (skip_many (length (score_history source)) no_counts).


(** The UNIQUE constraints of the schema hold. *)
Definition unique_ids (d : database) : Prop :=
  NoDup (map Posts.post_id (posts d))
  /\ NoDup (map Comments.comment_id (comments d)).

(** ** The constraints of the schema *)

(** No NOT NULL column holds NULL. *)
Definition not_null_ok (d : database) : bool :=
  forallb (fun r => negb (is_null (AccountSnapshots.username r))) (account_snapshots d)
  && forallb (fun r => negb (is_null (Posts.post_id r))
                       && negb (is_null (Posts.username r))) (posts d)
  && forallb (fun r => negb (is_null (Comments.comment_id r))
                       && negb (is_null (Comments.username r))) (comments d)
  && forallb (fun r => negb (is_null (ScoreHistory.item_type r))
                       && negb (is_null (ScoreHistory.item_id r))) (score_history d).

(** A database as the programs of this repository leave it: the NOT NULL and
    UNIQUE constraints hold and every snapshot and score-history row has its
    timestamp. *)
Definition well_formed (d : database) : Prop :=
  not_null_ok d = true /\ timestamps_recorded d = true /\ unique_ids d.

(** The counters after [n] more insertions. *)
Definition add_many (n : nat) (c : counts) : counts :=
  mk_counts (n + added c) (updated c) (skipped c).

(** The statistics of a run that inserts every row of the source. *)
Definition all_added (source : database) : stats :=
  mk_stats (add_many (length (account_snapshots source)) no_counts)
           (add_many (length (posts source)) no_counts)
           (add_many (length (comments source)) no_counts)
           (add_many (length (score_history source)) no_counts).

(** The rows of the target followed by the rows of the source. *)
Definition concat_database (target source : database) : database :=
  mk_database (account_snapshots target ++ account_snapshots source)
              (posts target ++ posts source)
              (comments target ++ comments source)
              (score_history target ++ score_history source).

(** No identity occurs twice in the target and the source taken together. *)
Definition disjoint_identities (target source : database) : Prop :=
  NoDup (omap snapshot_identity (account_snapshots target ++ account_snapshots source))
  /\ NoDup (omap Posts.post_id (posts target ++ posts source))
  /\ NoDup (omap Comments.comment_id (comments target ++ comments source))
  /\ NoDup (omap history_identity (score_history target ++ score_history source)).

(** [a.last_updated] is [b.last_updated], or both are present and [a]'s is
    the greater. *)
Definition not_older (a b : option string) : Prop :=
  a = b \/ (both_present a b = true /\ strictly_newer a b = true).

(** ** reddit_monitor.py: the account snapshot and the monitoring cycle *)

(** The keys of the profile that [save_account_snapshot] reads; the profile
    has other keys as well, which only [json.dumps] sees. *)
Module About.
Record payload := mk {
  link_karma : field Z;
  comment_karma : field Z;
  total_karma : field Z;
  created_utc : field Z;
  is_gold : field bool;
  is_mod : field bool;
  has_verified_email : field bool;
  other_keys : bool
}.
End About.

Definition is_present {A} (f : field A) : bool :=
  match f with Absent => false | Present _ => true end.

(** Python truthiness of a dictionary: it has a key. *)
Definition about_truthy (data : About.payload) : bool :=
  About.other_keys data
  || is_present (About.link_karma data) || is_present (About.comment_karma data)
  || is_present (About.total_karma data) || is_present (About.created_utc data)
  || is_present (About.is_gold data) || is_present (About.is_mod data)
  || is_present (About.has_verified_email data).

(** Python truthiness of a number or [None]. *)
Definition truthy_number (v : option Z) : bool :=
  match v with
  | Some z => negb (Z.eqb z 0)
  | None => false
  end.

Definition with_account_snapshots (d : database) (t : list AccountSnapshots.row)
  : database :=
  mk_database t (posts d) (comments d) (score_history d).

(** What leaves [monitor_user]: an exception raised inside a fetch function
    that is not a [RequestException], or one raised while storing or
    printing. *)
Inductive cycle_exn :=
| FetchError
| Failed (e : exn).

(** What a fetch function does: it returns (its fallback value after a
    [RequestException]) or lets another exception through. *)
Inductive fetched (A : Type) :=
| Returned (a : A)
| Escaped.
Arguments Returned {A} a.
Arguments Escaped {A}.

(** The answers of the three fetch functions in one cycle. *)
Record responses := mk_responses {
  about : fetched (option About.payload);
  submitted : fetched (list Post.payload);
  commented : fetched (list Comment.payload)
}.

Definition nonempty {A} (l : list A) : bool :=
  match l with [] => false | _ :: _ => true end.

Definition store_outcome (r : option exn * database) : option cycle_exn * database :=
  (Failed <$> r.1, r.2).

(** [f"{about.get(key, 0):,}"] raises on [None]. *)
Definition karma_printable (data : About.payload) : bool :=
  negb (is_null (get_or 0 (About.link_karma data)))
  && negb (is_null (get_or 0 (About.comment_karma data)))
  && negb (is_null (get_or 0 (About.total_karma data))).

Section Monitoring.

(** The world outside the program: CURRENT_TIMESTAMP as seen by the n-th
    statement of the k-th connection of the cycle, the ISO rendering of an
    epoch, the network and disk part of [download_image], and [json.dumps]. *)
Variable clock : nat -> nat -> string.
Variable isoformat : Z -> option string.
Variable fetch_image : string -> option string -> option string.
Variable json_dumps : About.payload -> string.

(** [datetime.fromtimestamp(data.get("created_utc", 0)).isoformat()
     if data.get("created_utc") else None] *)
Definition account_created (data : About.payload) : result (option string) :=
  if truthy_number (get (About.created_utc data))
  then created ← fromtimestamp_isoformat isoformat (get_or 0 (About.created_utc data));
       Ok (Some created)
  else Ok None.

(** The row of the INSERT; the timestamp column takes its default,
    CURRENT_TIMESTAMP. *)
Definition snapshot_row (username now : string) (created : option string)
    (data : About.payload) : AccountSnapshots.row :=
  AccountSnapshots.mk (Some username) (Some now)
    (get_or 0 (About.link_karma data))
    (get_or 0 (About.comment_karma data))
    (get_or 0 (About.total_karma data))
    created
    (get_or false (About.is_gold data))
    (get_or false (About.is_mod data))
    (get_or false (About.has_verified_email data))
    (Some (json_dumps data)).

(** [save_account_snapshot], on the k-th connection of the cycle. *)
Definition save_account_snapshot (k : nat) (username : string) (data : About.payload)
    (file : database) : option exn * database :=
  match
    created ← account_created data;
    execute (clock k) (fun now d =>
      t ← insert_account_snapshot (snapshot_row username now created data)
            (account_snapshots d);
      Ok (with_account_snapshots d t)) (mk_session file 0)
  with
  | Ok s => (None, db s)                 (* conn.commit() *)
  | Raise e => (Some e, file)
  end.

(** [monitor_user]: one monitoring cycle. *)
Definition monitor_user (username : string) (w : responses) (file : database)
  : option cycle_exn * database :=
  match about w with
  | Escaped => (Some FetchError, file)
  | Returned None => (None, file)              (* Failed to fetch account data *)
  | Returned (Some data) =>
      if about_truthy data then
        match save_account_snapshot 0 username data file with
        | (Some e, file1) => (Some (Failed e), file1)
        | (None, file1) =>
            if negb (karma_printable data) then (Some (Failed TypeError), file1) else
            match submitted w with
            | Escaped => (Some FetchError, file1)
            | Returned posts =>
                match
                  (if nonempty posts
                   then save_posts (clock 1) isoformat fetch_image username posts file1
                   else (None, file1))
                with
                | (Some e, file2) => (Some (Failed e), file2)
                | (None, file2) =>
                    match commented w with
                    | Escaped => (Some FetchError, file2)
                    | Returned comments =>
                        if nonempty comments
                        then store_outcome
                               (save_comments (clock 2) isoformat username comments file2)
                        else (None, file2)
                    end
                end
            end
        end
      else (None, file)                        (* Failed to fetch account data *)
  end.

End Monitoring.

(** A database the tracker can have produced: starting from the empty one,
    by monitoring cycles and by merging such databases. *)
Inductive produced : database -> Prop :=
| produced_empty : produced empty_database
| produced_cycle clock isoformat fetch_image json_dumps username w file e file' :
    produced file ->
    monitor_user clock isoformat fetch_image json_dumps username w file = (e, file') ->
    produced file'
| produced_merge source target merged st :
    produced source -> produced target ->
    merge_tables source target = Ok (merged, st) ->
    produced merged.

(** The source rows a loop has counted. *)
Definition counted (c : counts) : nat := (added c + updated c + skipped c)%nat.

(** The NOT NULL constraints, row by row. *)
Definition snapshot_valid (r : AccountSnapshots.row) : bool :=
  negb (is_null (AccountSnapshots.username r)).
Definition post_valid (r : Posts.row) : bool :=
  negb (is_null (Posts.post_id r)) && negb (is_null (Posts.username r)).
Definition comment_valid (r : Comments.row) : bool :=
  negb (is_null (Comments.comment_id r)) && negb (is_null (Comments.username r)).
Definition entry_valid (r : ScoreHistory.row) : bool :=
  negb (is_null (ScoreHistory.item_type r)) && negb (is_null (ScoreHistory.item_id r)).

Definition is_ok {A} (r : result A) : bool :=
  match r with Ok _ => true | Raise _ => false end.

(** What a call of [save_posts] may do to a file: the comments and the account
    snapshots stay; the posts found come out first, in order, with the columns
    outside the UPDATE's list unchanged, followed by the rows inserted;
    score_history grows by entries of type 'post'. *)
Definition history_entry_of (item_type : string) (h : ScoreHistory.row) : Prop :=
  ScoreHistory.item_type h = Some item_type
  /\ is_Some (ScoreHistory.item_id h)
  /\ is_Some (ScoreHistory.timestamp h).

Definition posts_ingested (file file' : database) : Prop :=
  comments file' = comments file
  /\ account_snapshots file' = account_snapshots file
  /\ (exists kept new,
        posts file' = kept ++ new
        /\ Forall2 (fun old cur => post_fixed cur = post_fixed old) (posts file) kept)
  /\ (exists entries,
        score_history file' = score_history file ++ entries
        /\ Forall (history_entry_of "post") entries).

Definition comments_ingested (file file' : database) : Prop :=
  posts file' = posts file
  /\ account_snapshots file' = account_snapshots file
  /\ (exists kept new,
        comments file' = kept ++ new
        /\ Forall2 (fun old cur => comment_fixed cur = comment_fixed old)
             (comments file) kept)
  /\ (exists entries,
        score_history file' = score_history file ++ entries
        /\ Forall (history_entry_of "comment") entries).

(** The columns of a stored item that a later sighting overwrites with what
    Reddit reports, and what a sighting reports for them. *)
Definition post_observed (r : Posts.row) :=
  (Posts.score r, Posts.upvote_ratio r, Posts.num_comments r).

Definition post_reading (p : Post.payload) :=
  (get_or 0 (Post.score p), get (Post.upvote_ratio p), get (Post.num_comments p)).

Definition comment_reading (c : Comment.payload) := get_or 0 (Comment.score c).

(** The table holds the item under its id, with the values of the payload. *)
Definition post_stored_as (p : Post.payload) (t : list Posts.row) : Prop :=
  (exists row, row ∈ t /\ sql_eq (Posts.post_id row) (get (Post.id p)) = true)
  /\ forall row, row ∈ t -> sql_eq (Posts.post_id row) (get (Post.id p)) = true ->
                 post_observed row = post_reading p.

Definition comment_stored_as (c : Comment.payload) (t : list Comments.row) : Prop :=
  (exists row, row ∈ t /\ sql_eq (Comments.comment_id row) (get (Comment.id c)) = true)
  /\ forall row, row ∈ t ->
                 sql_eq (Comments.comment_id row) (get (Comment.id c)) = true ->
                 Comments.score row = comment_reading c.

(** Two states of a table that differ at most in last_updated. *)
Definition posts_unchanged (t t' : list Posts.row) : Prop :=
  Forall2 (fun old cur => post_fixed cur = post_fixed old
                          /\ post_observed cur = post_observed old) t t'.

Definition comments_unchanged (t t' : list Comments.row) : Prop :=
  Forall2 (fun old cur => comment_fixed cur = comment_fixed old
                          /\ Comments.score cur = Comments.score old) t t'.

(** ** reddit_monitor.py: [download_image] past its first test *)

(** Strings are the bytes of their UTF-8 encoding.  [url.lower()] lowers A-Z;
    outside ASCII, the characters whose lowercase has an ASCII letter (U+0130,
    U+212A) cannot complete one of the extensions tested below. *)
Definition lower_ascii (c : ascii) : ascii :=
  let n := nat_of_ascii c in
  if Nat.leb 65 n && Nat.leb n 90 then ascii_of_nat (n + 32) else c.

Fixpoint lower (s : string) : string :=
  match s with
  | EmptyString => EmptyString
  | String c rest => String (lower_ascii c) (lower rest)
  end.

(** [needle in hay] *)
Fixpoint contains (needle hay : string) : bool :=
  String.prefix needle hay
  || match hay with
     | EmptyString => false
     | String _ rest => contains needle rest
     end.

Definition image_extensions : list string :=
  [".jpg"; ".jpeg"; ".png"; ".gif"; ".webp"].

Definition is_image (url : string) : bool :=
  existsb (fun ext => contains ext (lower url)) image_extensions
  || contains "i.redd.it" url || contains "i.imgur" url.

(** The extension, from the content type or else from the URL. *)
Definition extension_of (content_type url : string) : string :=
  if contains "jpeg" content_type || contains "jpg" content_type then ".jpg"
  else if contains "png" content_type then ".png"
  else if contains "gif" content_type then ".gif"
  else if contains "webp" content_type then ".webp"
  else match List.find (fun e => contains e (lower url)) image_extensions with
       | Some e => e
       | None => ".jpg"
       end.

(** [f"{post_id}"] *)
Definition str_of (post_id : option string) : string :=
  match post_id with
  | Some s => s
  | None => "None"
  end.

(** What the request brought back: the content-type header, if any, and the
    body. *)
Record response := mk_response {
  content_type : option string;
  content : string
}.

Section Download.

(** The world outside the program: the response to a GET whose status is no
    error ([None] when [requests.get] or [raise_for_status] raises), and
    whether the file of that name in the images directory can be opened and
    written. *)
Variable http_get : string -> option response.
Variable write_file : string -> string -> bool.

(** [download_image] from [is_image] on; by then the URL is a non-empty
    string. *)
Definition fetch_image_over (url : string) (post_id : option string) : option string :=
  if negb (is_image url) then None
  else
    match http_get url with
    | None => None                       (* except Exception *)
    | Some resp =>
        let ext := extension_of (default EmptyString (content_type resp)) url in
        let filename := String.append (str_of post_id) ext in
        if write_file filename (content resp)
        then Some (String.append "images/" filename)
        else None                        (* except Exception *)
    end.

End Download.

(** ** reddit_monitor.py: the counts of [get_stats] *)

(** SELECT COUNT( * ) FROM table WHERE ... *)
Definition count_rows {R} (where_ : R -> bool) (table : list R) : nat :=
  length (List.filter where_ table).

(** The four counts [get_stats] reads: posts tracked, comments tracked, total
    snapshots and images downloaded. *)
Record tracked := mk_tracked {
  post_count : nat;
  comment_count : nat;
  snapshot_count : nat;
  image_count : nat
}.

Definition tracked_counts (username : string) (d : database) : tracked :=
  mk_tracked
    (count_rows (fun r => sql_eq (Posts.username r) (Some username)) (posts d))
    (count_rows (fun r => sql_eq (Comments.username r) (Some username)) (comments d))
    (count_rows (fun r => sql_eq (AccountSnapshots.username r) (Some username))
       (account_snapshots d))
    (count_rows (fun r => sql_eq (Posts.username r) (Some username)
                          && negb (is_null (Posts.local_image_path r))) (posts d)).

Definition no_fewer (before after : tracked) : Prop :=
  (post_count before <= post_count after
   /\ comment_count before <= comment_count after
   /\ snapshot_count before <= snapshot_count after
   /\ image_count before <= image_count after)%nat.

(** Every row of [file] is still in [file'], at its place and with its fixed
    columns; rows may have been appended. *)
Definition grown_from (file file' : database) : Prop :=
  (exists new, account_snapshots file' = account_snapshots file ++ new)
  /\ (exists kept new,
        posts file' = kept ++ new
        /\ Forall2 (fun old cur => post_fixed cur = post_fixed old) (posts file) kept)
  /\ (exists kept new,
        comments file' = kept ++ new
        /\ Forall2 (fun old cur => comment_fixed cur = comment_fixed old)
             (comments file) kept)
  /\ (exists new, score_history file' = score_history file ++ new).

(** ** The vocabulary of the claims *)


(** Both values are present and the first is strictly greater than the
    second, in the order of their text. *)
Definition newer_than (s t : option string) : Prop :=
  exists a b, s = Some a /\ t = Some b /\ a <> EmptyString /\ b <> EmptyString
              /\ String.compare a b = Gt.

(** The rows of [rows] whose identity is not among [seen], nor that of an
    earlier row of [rows]: the rule "if no row of the target shares that
    identity, insert; else skip", applied row by row to a target that
    holds the identities [seen]. *)
Fixpoint unshared {R K} `{EqDecision K} (key : R -> K) (seen : list K) (rows : list R)
  : list R :=
  match rows with
  | [] => []
  | r :: rest =>
      if decide (key r ∈ seen) then unshared key seen rest
      else r :: unshared key (seen ++ [key r]) rest
  end.

(** The score-history entries recorded for one item. *)
Definition about_item (kind k : string) (h : ScoreHistory.row) : bool :=
  sql_eq (ScoreHistory.item_type h) (Some kind)
  && sql_eq (ScoreHistory.item_id h) (Some k).

Definition history_of (kind k : string) (d : database) : list ScoreHistory.row :=
  List.filter (about_item kind k) (score_history d).

(** The stored rows under one id. *)
Definition posts_under (k : string) (d : database) : list Posts.row :=
  List.filter (fun r => sql_eq (Posts.post_id r) (Some k)) (posts d).

Definition comments_under (k : string) (d : database) : list Comments.row :=
  List.filter (fun r => sql_eq (Comments.comment_id r) (Some k)) (comments d).

(** What the counters of a run over posts or comments say: every row of the
    source is counted once, as added when no row of the target has its id,
    as updated when the row of the target with its id is older, and as
    skipped when the target has its id and is not older. *)
Definition counted_by {R} (key stamp : R -> option string) (source target : list R)
    (c : counts) : Prop :=
  exists fresh won lost,
    source ≡ₚ fresh ++ won ++ lost
    /\ added c = length fresh /\ updated c = length won /\ skipped c = length lost
    /\ Forall (fun row => forall e, e ∈ target -> key e <> key row) fresh
    /\ Forall (fun row => exists e, e ∈ target /\ key e = key row
                                    /\ newer_than (stamp row) (stamp e)) won
    /\ Forall (fun row => exists e, e ∈ target /\ key e = key row
                                    /\ ~ newer_than (stamp row) (stamp e)) lost.

(** An integer that sqlite3 binds: it fits in 64 bits.  (Binding a larger
    one raises OverflowError before the statement runs.) *)
Definition fits_int64 (v : option Z) : Prop :=
  forall z, v = Some z -> - 2 ^ 63 <= z < 2 ^ 63.

(** ** Sample data *)

Definition a_snapshot (user ts : option string) (karma : Z) : AccountSnapshots.row :=
  AccountSnapshots.mk user ts (Some karma) (Some 0) (Some karma)
    (Some "2020-05-17T09:12:44") (Some false) (Some false) (Some true) (Some "{}").

Definition a_post (id : string) (score : Z) (first_seen last_updated : option string)
  : Posts.row :=
  Posts.mk (Some id) (Some "alice") (Some "rocq") (Some "A title") (Some EmptyString)
    (Some "https://example.org/a") None (Some score) None (Some 3)
    (Some "2024-01-01T07:30:00") first_seen last_updated (Some false) (Some false)
    (Some "/r/rocq/comments/a").

Definition a_comment (id : string) (score : Z) (first_seen last_updated : option string)
  : Comments.row :=
  Comments.mk (Some id) (Some "alice") (Some "rocq") (Some "A body") (Some score)
    (Some "2024-01-01T07:45:00") first_seen last_updated (Some "t3_a") (Some "t3_a")
    (Some "/r/rocq/comments/a/c").

Definition an_entry (kind id : string) (score : Z) (ts : option string)
  : ScoreHistory.row :=
  ScoreHistory.mk (Some kind) (Some id) (Some score) ts.

Definition a_post_payload (id : field string) (created_utc score : field Z)
  : Post.payload :=
  Post.mk id created_utc score (Present None) (Present (Some 3))
    (Present (Some "https://example.org/a")) (Present (Some "rocq"))
    (Present (Some "A title")) (Present (Some EmptyString)) (Present (Some false))
    (Present (Some false)) (Present (Some "/r/rocq/comments/a")).

Definition a_comment_payload (id : field string) (created_utc score : field Z)
  : Comment.payload :=
  Comment.mk id created_utc score (Present (Some "rocq")) (Present (Some "A body"))
    (Present (Some "t3_a")) (Present (Some "t3_a"))
    (Present (Some "/r/rocq/comments/a/c")).

Definition sample_clock (n : nat) : string :=
  match n with
  | O => "2024-03-01 10:00:00"
  | S O => "2024-03-01 10:00:01"
  | S (S O) => "2024-03-01 10:00:02"
  | _ => "2024-03-01 10:00:03"
  end.

Definition sample_isoformat (z : Z) : option string :=
  if (z <? 0)%Z then None else Some "2024-02-29T18:30:00".

Definition sample_fetch_image (url : string) (post_id : option string)
  : option string := None.

(** A source with two posts, a comment, a snapshot and a history entry, and a
    target that already has one of the posts in an older state. *)
Definition newer_snapshot :=
  a_snapshot (Some "alice") (Some "2024-01-02 00:00:00") 120.
Definition older_snapshot :=
  a_snapshot (Some "alice") (Some "2024-01-01 09:00:00") 100.
Definition newer_post :=
  a_post "p1" 7 (Some "2024-01-01 08:00:00") (Some "2024-01-02 00:00:00").
Definition older_post :=
  a_post "p1" 5 (Some "2024-01-01 09:00:00") (Some "2024-01-01 09:00:00").
Definition newer_comment :=
  a_comment "c1" 5 (Some "2024-01-01 08:00:00") (Some "2024-01-02 00:00:00").
Definition older_comment :=
  a_comment "c1" 3 (Some "2024-01-01 09:00:00") (Some "2024-01-01 09:00:00").
Definition newer_entry := an_entry "post" "p1" 7 (Some "2024-01-02 00:00:00").
Definition older_entry := an_entry "post" "p1" 5 (Some "2024-01-01 09:00:00").

Definition dataset_a : database :=
  mk_database
    [newer_snapshot]
    [newer_post;
     a_post "p2" 1 (Some "2024-01-01 08:00:00") (Some "2024-01-01 08:00:00")]
    [newer_comment]
    [newer_entry].

Definition dataset_b : database :=
  mk_database [older_snapshot] [older_post] [older_comment] [older_entry].

Definition sample_files : gmap string database :=
  <["a.db" := dataset_a]> (<["b.db" := dataset_b]> ∅).

(** A source whose second snapshot violates NOT NULL(username). *)
Definition dataset_broken : database :=
  mk_database
    [a_snapshot (Some "alice") (Some "2024-01-02 00:00:00") 120;
     a_snapshot None (Some "2024-01-03 00:00:00") 130] [] [] [].

Definition broken_files : gmap string database :=
  <["a.db" := dataset_broken]> (<["b.db" := dataset_b]> ∅).






(** The first in-place run of the source "a.db" into "b.db". *)
Definition first_run_stats : stats :=
  mk_stats (mk_counts 1 0 0) (mk_counts 1 1 0) (mk_counts 0 1 0) (mk_counts 1 0 0).

Definition merged_files : gmap string database :=
  (merge_databases sample_files "a.db" "b.db" None).2.

Definition merged_b : database := default empty_database (merged_files !! "b.db").


Definition files_a_into_b : gmap string database :=
  (merge_databases sample_files "a.db" "b.db" (Some "ab.db")).2.


(** Payloads: a new observation of the stored post and comment, an unseen
    post and comment, and records without an id, with an empty id and with a
    null created_utc. *)
Definition an_epoch : field Z := Present (Some 1700000000).

Definition seen_post :=
  a_post_payload (Present (Some "p1")) an_epoch (Present (Some 9)).
Definition seen_comment :=
  a_comment_payload (Present (Some "c1")) an_epoch (Present (Some 3)).
Definition unseen_post :=
  a_post_payload (Present (Some "p7")) an_epoch (Present (Some 4)).
Definition unseen_comment :=
  a_comment_payload (Present (Some "c7")) an_epoch Absent.
Definition post_without_id :=
  a_post_payload (Present None) an_epoch (Present (Some 4)).
Definition comment_without_id :=
  a_comment_payload Absent an_epoch (Present (Some 4)).
Definition post_with_empty_id :=
  a_post_payload (Present (Some EmptyString)) an_epoch (Present (Some 4)).
Definition comment_with_empty_id :=
  a_comment_payload (Present (Some EmptyString)) an_epoch (Present (Some 4)).
Definition post_without_date :=
  a_post_payload (Present (Some "p8")) (Present None) (Present (Some 4)).
Definition comment_without_date :=
  a_comment_payload (Present (Some "c8")) (Present None) (Present (Some 4)).

(** ** Further sample data *)

(** A dataset that shares no identity with [dataset_b]. *)
Definition dataset_c : database :=
  mk_database
    [a_snapshot (Some "bob") (Some "2024-01-05 00:00:00") 10]
    [a_post "p9" 2 (Some "2024-01-05 00:00:00") (Some "2024-01-05 00:00:00")]
    [a_comment "c9" 1 (Some "2024-01-05 00:00:00") (Some "2024-01-05 00:00:00")]
    [an_entry "comment" "c9" 1 (Some "2024-01-05 00:00:00")].

(** A profile, and the answers of the fetch functions in two cycles: one
    whose posts are all stored, and one whose second post has no id. *)
Definition sample_profile : About.payload :=
  About.mk (Present (Some 120)) (Present (Some 30)) (Present (Some 150))
    (Present (Some 1589706764)) (Present (Some false)) Absent (Present (Some true))
    true.

Definition sample_cycle_clock (k n : nat) : string := sample_clock (k + n).

Definition sample_json_dumps (data : About.payload) : string := "{}".

Definition sample_responses : responses :=
  mk_responses (Returned (Some sample_profile)) (Returned [seen_post; unseen_post])
    (Returned [seen_comment]).

Definition failing_responses : responses :=
  mk_responses (Returned (Some sample_profile)) (Returned [unseen_post; post_without_id])
    (Returned [seen_comment]).

Definition sample_cycle (w : responses) (file : database)
  : option cycle_exn * database :=
  monitor_user sample_cycle_clock sample_isoformat sample_fetch_image sample_json_dumps
    "alice" w file.

(** The file after a first call of [save_posts] and of [save_comments]. *)
Definition after_posts : database :=
  (save_posts sample_clock sample_isoformat sample_fetch_image "alice"
     [seen_post; unseen_post] dataset_b).2.

Definition after_comments : database :=
  (save_comments sample_clock sample_isoformat "alice" [seen_comment] dataset_b).2.

(** A server that has two images, and a disk that can be written. *)
Definition sample_http_get (url : string) : option response :=
  if String.eqb url "https://i.redd.it/cat"
  then Some (mk_response (Some "image/png") "PNG")
  else if String.eqb url "https://example.org/dog.JPEG"
  then Some (mk_response None "JFIF")
  else None.

Definition sample_write_file (filename content : string) : bool := true.

(** A comment not seen before that carries a score, and a new post with an
    image and a null title. *)
Definition scored_comment :=
  a_comment_payload (Present (Some "c7")) an_epoch (Present (Some 2)).

Definition untitled_image_post : Post.payload :=
  Post.mk (Present (Some "p9")) an_epoch (Present (Some 1)) (Present None)
    (Present (Some 0)) (Present (Some "https://i.redd.it/cat"))
    (Present (Some "rocq")) (Present None) (Present (Some EmptyString))
    (Present (Some false)) (Present (Some false))
    (Present (Some "/r/rocq/comments/p9")).

(** The file after a call of [save_comments] with a stored and a new
    comment. *)
Definition after_two_comments : database :=
  (save_comments sample_clock sample_isoformat "alice" [seen_comment; scored_comment]
     dataset_b).2.



(** * Properties *)

(** ** Loops, SELECT and UPDATE *)

Lemma for_each_app {R S} (body : R -> S -> result S) l1 l2 s :
  for_each body (l1 ++ l2) s =
  match for_each body l1 s with
  | Ok s' => for_each body l2 s'
  | Raise e => Raise e
  end.
Proof.
  revert s. induction l1 as [|r l1 IH]; intros s; simpl; [reflexivity|].
  destruct (body r s); [apply IH | reflexivity].
Qed.

(** A loop invariant that every completed iteration preserves holds when the
    loop completes. *)
Lemma for_each_invariant {R S} (body : R -> S -> result S) (P : S -> Prop) :
  (forall r s s', P s -> body r s = Ok s' -> P s') ->
  forall rows s s', P s -> for_each body rows s = Ok s' -> P s'.
Proof.
  intros Hstep rows. induction rows as [|r rows IH]; intros s s' HP Hrun; simpl in Hrun.
  - congruence.
  - destruct (body r s) as [s1|] eqn:Hb; [|discriminate].
    eapply IH; [|exact Hrun]. eapply Hstep; eauto.
Qed.

Lemma fetchone_Some {R} (p : R -> bool) (t : list R) e :
  fetchone p t = Some e -> e ∈ t /\ p e = true.
Proof.
  intros H. apply find_some in H. rewrite list_elem_of_In. exact H.
Qed.

Lemma fetchone_None {R} (p : R -> bool) (t : list R) :
  fetchone p t = None <-> forall e, e ∈ t -> p e = false.
Proof.
  split.
  - intros H e He. apply list_elem_of_In in He. eapply find_none; eauto.
  - intros H. induction t as [|x t IH]; simpl; [reflexivity|].
    rewrite (H x) by constructor. apply IH. intros e He. apply H. by constructor.
Qed.

Lemma fetchone_found {R} (p : R -> bool) (t : list R) e :
  e ∈ t -> p e = true -> exists e', fetchone p t = Some e'.
Proof.
  intros He Hp. destruct (fetchone p t) as [e'|] eqn:Hf; [eauto|].
  rewrite fetchone_None in Hf. rewrite (Hf e He) in Hp. discriminate.
Qed.

Lemma fetchone_app {R} (p : R -> bool) (t u : list R) :
  fetchone p (t ++ u) =
  match fetchone p t with Some e => Some e | None => fetchone p u end.
Proof.
  induction t as [|x t IH]; simpl; [reflexivity|].
  destruct (p x); [reflexivity | exact IH].
Qed.

Lemma sql_eq_true a b : sql_eq a b = true <-> exists x, a = Some x /\ b = Some x.
Proof.
  destruct a as [x|], b as [y|]; simpl; split; try discriminate;
    try (intros (z & H1 & H2); discriminate).
  - intros H. apply String.eqb_eq in H. subst. eauto.
  - intros (z & H1 & H2). simplify_eq. apply String.eqb_refl.
Qed.

Lemma same_snapshot_identity row e :
  same_snapshot row e = true <->
  exists k, snapshot_identity row = Some k /\ snapshot_identity e = Some k.
Proof.
  unfold same_snapshot, snapshot_identity. rewrite andb_true_iff, !sql_eq_true.
  split.
  - intros [(u & -> & ->) (t & -> & ->)]. eauto.
  - intros (k & H1 & H2).
    destruct (AccountSnapshots.username row), (AccountSnapshots.timestamp row),
      (AccountSnapshots.username e), (AccountSnapshots.timestamp e); simplify_eq.
    split; eauto.
Qed.

Lemma same_history_identity row e :
  same_history row e = true <->
  exists k, history_identity row = Some k /\ history_identity e = Some k.
Proof.
  unfold same_history, history_identity. rewrite !andb_true_iff, !sql_eq_true.
  split.
  - intros [[(u & -> & ->) (i & -> & ->)] (t & -> & ->)]. eauto.
  - intros (k & H1 & H2).
    destruct (ScoreHistory.item_type row), (ScoreHistory.item_id row),
      (ScoreHistory.timestamp row), (ScoreHistory.item_type e),
      (ScoreHistory.item_id e), (ScoreHistory.timestamp e); simplify_eq.
    repeat split; eauto.
Qed.

(** ** Order on timestamps *)

Lemma ascii_compare_refl a : Ascii.compare a a = Eq.
Proof. unfold Ascii.compare. apply N.compare_refl. Qed.

Lemma ascii_gt_trans a b c :
  Ascii.compare a b = Gt -> Ascii.compare b c = Gt -> Ascii.compare a c = Gt.
Proof.
  unfold Ascii.compare. rewrite !N.compare_gt_iff. lia.
Qed.

Lemma string_compare_refl s : String.compare s s = Eq.
Proof.
  induction s as [|a s IH]; simpl; [reflexivity|].
  by rewrite ascii_compare_refl.
Qed.

Lemma string_gt_trans a b c :
  String.compare a b = Gt -> String.compare b c = Gt -> String.compare a c = Gt.
Proof.
  revert b c. induction a as [|x a IH]; intros [|y b] [|z c]; simpl; try congruence.
  destruct (Ascii.compare x y) eqn:Hxy; try discriminate;
    destruct (Ascii.compare y z) eqn:Hyz; try discriminate; intros H1 H2.
  - apply Ascii.compare_eq_iff in Hxy, Hyz. subst.
    rewrite ascii_compare_refl. eauto.
  - apply Ascii.compare_eq_iff in Hxy. subst. by rewrite Hyz.
  - apply Ascii.compare_eq_iff in Hyz. subst. by rewrite Hxy.
  - by rewrite (ascii_gt_trans x y z).
Qed.

Lemma str_gt_irrefl a : str_gt a a = false.
Proof. unfold str_gt. by rewrite string_compare_refl. Qed.

Lemma str_gt_trans a b c :
  str_gt a b = true -> str_gt b c = true -> str_gt a c = true.
Proof.
  unfold str_gt. intros H1 H2.
  destruct (String.compare a b) eqn:Hab; try discriminate.
  destruct (String.compare b c) eqn:Hbc; try discriminate.
  by rewrite (string_gt_trans a b c).
Qed.

Lemma str_gt_asym a b : str_gt a b = true -> str_gt b a = false.
Proof.
  unfold str_gt. rewrite (String.compare_antisym b a).
  destruct (String.compare a b); simpl; congruence.
Qed.

Lemma str_gt_total a b : a <> b -> str_gt a b = true \/ str_gt b a = true.
Proof.
  intros Hne. unfold str_gt. rewrite (String.compare_antisym b a).
  destruct (String.compare a b) eqn:H; simpl; auto.
  apply String.compare_eq_iff in H. contradiction.
Qed.

(** ** Append-only tables *)

Ltac bind_ok H :=
  match type of H with
  | context [mbind _ ?m] =>
      let E := fresh "E" in
      destruct m eqn:E; simpl in H; [|discriminate H]
  end.

Section AppendOnlyFacts.
Context {R K : Type}.
Variable same : R -> R -> bool.
Variable insert : R -> list R -> result (list R).
Variable recorded : R -> bool.
Variable ident : R -> K.
Hypothesis insert_appends :
  forall row t t', insert row t = Ok t' -> t' = t ++ [row].
Hypothesis same_self :
  forall row t t', insert row t = Ok t' -> recorded row = true -> same row row = true.
Hypothesis same_ident :
  forall row e, same row e = true -> ident e = ident row.

Local Abbreviation body := (append_missing same insert).

Lemma append_missing_cases row t c t' c' :
  body row (t, c) = Ok (t', c') ->
  (fetchone (same row) t = None /\ insert row t = Ok t' /\ t' = t ++ [row]
     /\ c' = count_added c)
  \/ (is_Some (fetchone (same row) t) /\ t' = t /\ c' = count_skipped c).
Proof.
  unfold append_missing. destruct (fetchone (same row) t) as [e|] eqn:Hf; intros H.
  - right. simplify_eq. eauto.
  - left. bind_ok H. simplify_eq. eauto using insert_appends.
Qed.

Lemma append_missing_found row t c :
  is_Some (fetchone (same row) t) -> body row (t, c) = Ok (t, count_skipped c).
Proof. intros [e He]. unfold append_missing. by rewrite He. Qed.

Lemma append_pass_extends src : forall t c t' c',
  for_each body src (t, c) = Ok (t', c') ->
  exists extra, t' = t ++ extra /\ extra `sublist_of` src.
Proof.
  induction src as [|r src IH]; intros t c t' c' H; cbn [for_each] in H.
  - simplify_eq. exists []. by rewrite app_nil_r.
  - destruct (body r (t, c)) as [[t1 c1]|] eqn:Hb; [|discriminate].
    destruct (IH _ _ _ _ H) as (extra & -> & Hsub).
    apply append_missing_cases in Hb. destruct Hb as [(_ & _ & -> & _)|(_ & -> & _)].
    + exists (r :: extra). rewrite <- app_assoc. split; [done|]. by constructor.
    + exists extra. split; [done|]. by constructor.
Qed.

Lemma append_pass_matched src : forall t c t' c',
  for_each body src (t, c) = Ok (t', c') ->
  (forall r, r ∈ src -> recorded r = true) ->
  forall r, r ∈ src -> is_Some (fetchone (same r) t').
Proof.
  induction src as [|r0 src IH]; intros t c t' c' H Hrec r Hr; cbn [for_each] in H.
  - by apply elem_of_nil in Hr.
  - destruct (body r0 (t, c)) as [[t1 c1]|] eqn:Hb; [|discriminate].
    apply elem_of_cons in Hr as [->|Hr].
    + destruct (append_pass_extends _ _ _ _ _ H) as (extra & -> & _).
      rewrite fetchone_app.
      apply append_missing_cases in Hb as [(Hn & Hi & -> & _)|([e He] & -> & _)].
      * rewrite fetchone_app, Hn. simpl.
        rewrite (same_self _ _ _ Hi) by (apply Hrec; constructor). eauto.
      * rewrite He. eauto.
    + eapply IH; eauto. intros r' Hr'. apply Hrec. by constructor.
Qed.

Lemma append_pass_again src : forall t c,
  (forall r, r ∈ src -> is_Some (fetchone (same r) t)) ->
  for_each body src (t, c) = Ok (t, skip_many (length src) c).
Proof.
  induction src as [|r src IH]; intros t c Hm; cbn [for_each].
  - by destruct c.
  - rewrite append_missing_found by (apply Hm; constructor).
    rewrite IH by (intros r' Hr'; apply Hm; by constructor).
    f_equal. f_equal. unfold skip_many, count_skipped. simpl. f_equal. lia.
Qed.

End AppendOnlyFacts.

(** ** Tables reconciled by recency *)

Lemma fetchone_update_where {R} (p q : R -> bool) (f : R -> R) (t : list R) :
  (forall e, p (f e) = p e) ->
  fetchone p (update_where q f t) = (fun e => if q e then f e else e) <$> fetchone p t.
Proof.
  intros Hp. induction t as [|x t IH]; simpl; [reflexivity|].
  replace (p (if q x then f x else x)) with (p x) by (destruct (q x); auto).
  destruct (p x); [reflexivity | exact IH].
Qed.

Lemma newer_irrefl s : both_present s s && strictly_newer s s = false.
Proof.
  destruct s as [a|]; simpl; [|reflexivity].
  rewrite str_gt_irrefl. apply andb_false_r.
Qed.

Lemma newer_trans s t u :
  both_present u t && strictly_newer u t = true ->
  both_present s t && strictly_newer s t = false ->
  both_present s u && strictly_newer s u = false.
Proof.
  unfold both_present. destruct s as [a|], t as [b|], u as [c|]; simpl;
    try reflexivity; try discriminate;
    rewrite ?andb_false_r; try reflexivity; try discriminate.
  destruct (negb (a =? EmptyString)%string), (negb (b =? EmptyString)%string),
    (negb (c =? EmptyString)%string); simpl; try reflexivity; try discriminate.
  intros Hcb Hab. destruct (str_gt a c) eqn:Hac; [|reflexivity].
  rewrite (str_gt_trans a c b) in Hab; auto.
Qed.

Section LastWriterWinsFacts.
Context {R : Type}.
Variable key : R -> option string.
Variable stamp : R -> option string.
Variable insert : R -> list R -> result (list R).
Variable refresh : R -> R -> R.
Hypothesis insert_appends :
  forall row t t', insert row t = Ok t' -> t' = t ++ [row] /\ is_Some (key row).
Hypothesis refresh_key : forall row e, key (refresh row e) = key e.
Hypothesis refresh_stamp : forall row e, stamp (refresh row e) = stamp row.

Local Abbreviation body := (reconcile key stamp insert refresh).
Local Abbreviation same := (same_key key).
Local Abbreviation beats := (wins stamp).

Lemma reconcile_cases row t c t' c' :
  body row (t, c) = Ok (t', c') ->
  (fetchone (same row) t = None /\ t' = t ++ [row] /\ is_Some (key row)
     /\ c' = count_added c)
  \/ (exists e, fetchone (same row) t = Some e /\ beats row e = true
        /\ t' = update_where (same row) (refresh row) t /\ c' = count_updated c)
  \/ (exists e, fetchone (same row) t = Some e /\ beats row e = false
        /\ t' = t /\ c' = count_skipped c).
Proof.
  unfold reconcile, wins.
  destruct (fetchone (same row) t) as [e|] eqn:Hf; intros H.
  - right.
    destruct (both_present (stamp row) (stamp e)) eqn:Hbp;
      [destruct (strictly_newer (stamp row) (stamp e)) eqn:Hsn|];
      simplify_eq; [left|right|right]; exists e; rewrite Hbp, ?Hsn; auto.
  - left. bind_ok H. simplify_eq.
    destruct (insert_appends _ _ _ E) as [-> ?]. eauto.
Qed.

Lemma reconcile_settled row t c :
  settled key stamp row t -> body row (t, c) = Ok (t, count_skipped c).
Proof.
  intros (e & He & Hw). unfold reconcile. rewrite He.
  unfold wins in Hw.
  destruct (both_present (stamp row) (stamp e)); [|reflexivity].
  simpl in Hw. by rewrite Hw.
Qed.

Lemma same_key_eq row e : same row e = true -> key e = key row /\ is_Some (key row).
Proof.
  unfold same_key. rewrite sql_eq_true. intros (k & -> & ->). eauto.
Qed.

Lemma fetchone_same_key row row' t :
  key row = key row' -> fetchone (same row) t = fetchone (same row') t.
Proof. unfold same_key. by intros ->. Qed.

Lemma reconcile_settles row t c t' c' :
  body row (t, c) = Ok (t', c') -> settled key stamp row t'.
Proof.
  intros H. apply reconcile_cases in H
    as [(Hn & -> & [k Hk] & _)|[(e & He & Hw & -> & _)|(e & He & Hw & -> & _)]].
  - exists row. rewrite fetchone_app, Hn. simpl. unfold same_key at 1.
    rewrite Hk. simpl. rewrite String.eqb_refl. split; [done|].
    apply newer_irrefl.
  - exists (refresh row e). split.
    + rewrite fetchone_update_where, He; simpl.
      * apply fetchone_Some in He as [_ ->]. done.
      * intros e'. unfold same_key. by rewrite refresh_key.
    + unfold wins. rewrite refresh_stamp. apply newer_irrefl.
  - exists e. done.
Qed.

Lemma reconcile_keeps_settled r0 row t c t' c' :
  settled key stamp r0 t -> body row (t, c) = Ok (t', c') ->
  settled key stamp r0 t'.
Proof.
  intros (e0 & He0 & Hw0) H. apply reconcile_cases in H
    as [(Hn & -> & _ & _)|[(e & He & Hw & -> & _)|(e & He & Hw & -> & _)]].
  - exists e0. by rewrite fetchone_app, He0.
  - assert (fetchone (same r0) (update_where (same row) (refresh row) t)
            = Some (if same row e0 then refresh row e0 else e0)) as Hf.
    { rewrite fetchone_update_where, He0; [done|].
      intros e'. unfold same_key. by rewrite refresh_key. }
    destruct (same row e0) eqn:Hs; [|by exists e0].
    exists (refresh row e0). split; [done|].
    apply same_key_eq in Hs as [Hs _].
    destruct (fetchone_Some _ _ _ He0) as [_ Hs0]. apply same_key_eq in Hs0 as [Hs0 _].
    rewrite (fetchone_same_key row r0) in He by congruence.
    assert (e = e0) as -> by congruence.
    unfold wins in *. rewrite refresh_stamp.
    eapply newer_trans; eauto.
  - by exists e0.
Qed.

Lemma reconcile_pass_settles src : forall t c t' c',
  for_each body src (t, c) = Ok (t', c') ->
  forall r, r ∈ src -> settled key stamp r t'.
Proof.
  induction src as [|r0 src IH]; intros t c t' c' H r Hr; cbn [for_each] in H.
  - by apply elem_of_nil in Hr.
  - destruct (body r0 (t, c)) as [[t1 c1]|] eqn:Hb; [|discriminate].
    apply elem_of_cons in Hr as [->|Hr]; [|by eapply IH].
    apply reconcile_settles in Hb.
    refine (for_each_invariant body (fun s => settled key stamp r0 (fst s))
              _ src (t1, c1) (t', c') Hb H).
    intros r [ta ca] [tb cb] Hs Hstep. simpl in *.
    eapply reconcile_keeps_settled; eauto.
Qed.

Lemma reconcile_pass_again src : forall t c,
  (forall r, r ∈ src -> settled key stamp r t) ->
  for_each body src (t, c) = Ok (t, skip_many (length src) c).
Proof.
  induction src as [|r src IH]; intros t c Hm; cbn [for_each].
  - by destruct c.
  - rewrite reconcile_settled by (apply Hm; constructor).
    rewrite IH by (intros r' Hr'; apply Hm; by constructor).
    f_equal. f_equal. unfold skip_many, count_skipped. simpl. f_equal. lia.
Qed.

Lemma update_where_keys (q : R -> bool) row t :
  map key (update_where q (refresh row) t) = map key t.
Proof.
  unfold update_where. rewrite map_map. apply map_ext.
  intros e. destruct (q e); [apply refresh_key | reflexivity].
Qed.


Lemma lookup_key_unique k b t :
  NoDup (map key t) -> b ∈ t -> key b = Some k -> lookup_key key k t = Some b.
Proof.
  unfold lookup_key. induction t as [|x t IH]; intros Hnd Hb Hk.
  - by apply elem_of_nil in Hb.
  - simpl in Hnd. apply NoDup_cons in Hnd as [Hx Hnd]. simpl.
    destruct (sql_eq (key x) (Some k)) eqn:Hxk.
    + apply sql_eq_true in Hxk as (k' & Hxk & [= <-]).
      apply elem_of_cons in Hb as [->|Hb]; [done|].
      exfalso. apply Hx. rewrite Hxk, <- Hk. by apply list_elem_of_fmap_2.
    + apply elem_of_cons in Hb as [->|Hb]; [|by apply IH].
      rewrite Hk in Hxk. simpl in Hxk. by rewrite String.eqb_refl in Hxk.
Qed.

Lemma lookup_key_absent k t :
  Some k ∉ map key t -> lookup_key key k t = None.
Proof.
  intros Hk. apply fetchone_None. intros e He.
  destruct (sql_eq (key e) (Some k)) eqn:Hs; [|done].
  apply sql_eq_true in Hs as (k' & Hs & [= <-]).
  exfalso. apply Hk. rewrite <- Hs. by apply list_elem_of_fmap_2.
Qed.

(** After a pass over a source with unique keys, the row stored under a key
    that the target already had is the target's row, refreshed from the
    source's row of that key when that one wins. *)
Lemma reconcile_pass_lookup k src : forall t c t' c' b,
  NoDup (map key src) ->
  for_each body src (t, c) = Ok (t', c') ->
  lookup_key key k t = Some b ->
  lookup_key key k t' =
    Some (match lookup_key key k src with
          | Some a => if beats a b then refresh a b else b
          | None => b
          end).
Proof.
  induction src as [|r src IH]; intros t c t' c' b Hnd H Hb; cbn [for_each] in H.
  - by simplify_eq.
  - destruct (body r (t, c)) as [[t1 c1]|] eqn:Hb1; [|discriminate].
    simpl in Hnd. apply NoDup_cons in Hnd as [Hr Hnd].
    unfold lookup_key at 2. simpl.
    destruct (sql_eq (key r) (Some k)) eqn:Hrk.
    + apply sql_eq_true in Hrk as (k' & Hrk & [= <-]).
      assert (lookup_key key k src = None) as Hnone.
      { apply lookup_key_absent. by rewrite <- Hrk. }
      assert (fetchone (same r) t = Some b) as Hfb.
      { unfold same_key. rewrite Hrk. exact Hb. }
      assert (lookup_key key k t1 = Some (if beats r b then refresh r b else b)) as Ht1.
      { apply reconcile_cases in Hb1
          as [(Hn & _)|[(e & He & Hw & -> & _)|(e & He & Hw & -> & _)]].
        - congruence.
        - assert (e = b) as -> by congruence. rewrite Hw.
          unfold lookup_key in *. rewrite fetchone_update_where, Hb; simpl.
          + apply fetchone_Some in Hfb as [_ ->]. done.
          + intros e'. by rewrite refresh_key.
        - assert (e = b) as -> by congruence. by rewrite Hw. }
      rewrite (IH _ _ _ _ _ Hnd H Ht1), Hnone. done.
    + fold (lookup_key key k src).
      apply (IH _ _ _ _ _ Hnd H).
      apply reconcile_cases in Hb1
        as [(Hn & -> & _ & _)|[(e & He & Hw & -> & _)|(e & He & Hw & -> & _)]].
      * unfold lookup_key in *. by rewrite fetchone_app, Hb.
      * unfold lookup_key in *. rewrite fetchone_update_where, Hb; simpl;
          [|intros e'; by rewrite refresh_key].
        destruct (same r b) eqn:Hs; [|done].
        apply same_key_eq in Hs as [Hs _].
        apply fetchone_Some in Hb as [_ Hbk].
        apply sql_eq_true in Hbk as (k' & Hbk & [= <-]).
        rewrite <- Hs, Hbk in Hrk. simpl in Hrk.
        by rewrite String.eqb_refl in Hrk.
      * done.
Qed.
End LastWriterWinsFacts.

(** ** The four tables of the reconciliation *)

Lemma insert_account_snapshot_appends row t t' :
  insert_account_snapshot row t = Ok t' -> t' = t ++ [row].
Proof.
  unfold insert_account_snapshot.
  destruct (is_null (AccountSnapshots.username row)); congruence.
Qed.

Lemma same_snapshot_self row t t' :
  insert_account_snapshot row t = Ok t' ->
  negb (is_null (AccountSnapshots.timestamp row)) = true ->
  same_snapshot row row = true.
Proof.
  unfold insert_account_snapshot, same_snapshot.
  destruct (AccountSnapshots.username row), (AccountSnapshots.timestamp row);
    simpl; try discriminate.
  intros _ _. by rewrite !String.eqb_refl.
Qed.


Lemma insert_score_history_appends row t t' :
  insert_score_history row t = Ok t' -> t' = t ++ [row].
Proof.
  unfold insert_score_history.
  destruct (is_null (ScoreHistory.item_type row) || is_null (ScoreHistory.item_id row));
    congruence.
Qed.

Lemma same_history_self row t t' :
  insert_score_history row t = Ok t' ->
  negb (is_null (ScoreHistory.timestamp row)) = true ->
  same_history row row = true.
Proof.
  unfold insert_score_history, same_history.
  destruct (ScoreHistory.item_type row), (ScoreHistory.item_id row),
    (ScoreHistory.timestamp row); simpl; try discriminate.
  intros _ _. by rewrite !String.eqb_refl.
Qed.


Lemma insert_post_appends row t t' :
  insert_post row t = Ok t' -> t' = t ++ [row] /\ is_Some (Posts.post_id row).
Proof.
  unfold insert_post. destruct (Posts.post_id row) as [k|]; simpl; [|discriminate].
  destruct (is_null (Posts.username row)); [discriminate|].
  destruct (existsb _ t); [discriminate|]. intros [= <-]. eauto.
Qed.

Lemma insert_comment_appends row t t' :
  insert_comment row t = Ok t' -> t' = t ++ [row] /\ is_Some (Comments.comment_id row).
Proof.
  unfold insert_comment. destruct (Comments.comment_id row) as [k|]; simpl; [|discriminate].
  destruct (is_null (Comments.username row)); [discriminate|].
  destruct (existsb _ t); [discriminate|]. intros [= <-]. eauto.
Qed.

(** Each loop body is an instance of one of the two shapes. *)
Lemma merge_account_snapshot_shape :
  merge_account_snapshot = append_missing same_snapshot insert_account_snapshot.
Proof. reflexivity. Qed.

Lemma merge_score_history_shape :
  merge_score_history = append_missing same_history insert_score_history.
Proof. reflexivity. Qed.

Lemma merge_post_shape :
  merge_post = reconcile Posts.post_id Posts.last_updated insert_post update_post_from.
Proof. reflexivity. Qed.

Lemma merge_comment_shape :
  merge_comment =
  reconcile Comments.comment_id Comments.last_updated insert_comment update_comment_from.
Proof. reflexivity. Qed.

(** The four loops of a completed run, one by one. *)
Lemma merge_tables_Ok source target merged st :
  merge_tables source target = Ok (merged, st) <->
  for_each merge_account_snapshot (account_snapshots source)
    (account_snapshots target, no_counts)
    = Ok (account_snapshots merged, st_account_snapshots st)
  /\ for_each merge_post (posts source) (posts target, no_counts)
     = Ok (posts merged, st_posts st)
  /\ for_each merge_comment (comments source) (comments target, no_counts)
     = Ok (comments merged, st_comments st)
  /\ for_each merge_score_history (score_history source)
       (score_history target, no_counts)
     = Ok (score_history merged, st_score_history st).
Proof.
  unfold merge_tables. split.
  - intros H.
    destruct (for_each merge_account_snapshot _ _) as [[t1 c1]|]; [|discriminate].
    destruct (for_each merge_post _ _) as [[t2 c2]|]; [|discriminate].
    destruct (for_each merge_comment _ _) as [[t3 c3]|]; [|discriminate].
    destruct (for_each merge_score_history _ _) as [[t4 c4]|]; [|discriminate].
    simpl in H. by simplify_eq.
  - intros (-> & -> & -> & ->). simpl. by destruct merged, st.
Qed.

Lemma timestamps_recorded_rows source :
  timestamps_recorded source = true ->
  (forall r, r ∈ account_snapshots source ->
     negb (is_null (AccountSnapshots.timestamp r)) = true)
  /\ (forall r, r ∈ score_history source ->
        negb (is_null (ScoreHistory.timestamp r)) = true).
Proof.
  unfold timestamps_recorded. rewrite andb_true_iff, !forallb_forall.
  intros [H1 H2]. split; intros r Hr; [apply H1 | apply H2]; by apply list_elem_of_In.
Qed.

(** A second pass over the same source, on the tables the first pass left,
    skips every row. *)
Lemma merge_tables_again source target merged st :
  merge_tables source target = Ok (merged, st) ->
  timestamps_recorded source = true ->
  merge_tables source merged = Ok (merged, all_skipped source).
Proof.
  intros H Hrec. apply merge_tables_Ok in H as (H1 & H2 & H3 & H4).
  apply timestamps_recorded_rows in Hrec as [Hr1 Hr4].
  apply merge_tables_Ok. simpl. repeat split.
  - apply append_pass_again.
    exact (append_pass_matched same_snapshot insert_account_snapshot
             (fun r => negb (is_null (AccountSnapshots.timestamp r)))
             insert_account_snapshot_appends same_snapshot_self _ _ _ _ _ H1 Hr1).
  - apply (reconcile_pass_again Posts.post_id Posts.last_updated).
    exact (reconcile_pass_settles Posts.post_id Posts.last_updated insert_post
             update_post_from insert_post_appends (fun _ _ => eq_refl)
             (fun _ _ => eq_refl) _ _ _ _ _ H2).
  - apply (reconcile_pass_again Comments.comment_id Comments.last_updated).
    exact (reconcile_pass_settles Comments.comment_id Comments.last_updated
             insert_comment update_comment_from insert_comment_appends
             (fun _ _ => eq_refl) (fun _ _ => eq_refl) _ _ _ _ _ H3).
  - apply append_pass_again.
    exact (append_pass_matched same_history insert_score_history
             (fun r => negb (is_null (ScoreHistory.timestamp r)))
             insert_score_history_appends same_history_self _ _ _ _ _ H4 Hr4).
Qed.

(** ** A call of [merge_databases] *)

Lemma effective_target_in_place t o :
  output_given o = None -> effective_target t o = t.
Proof. unfold effective_target. by intros ->. Qed.

Lemma effective_target_output t o out :
  output_given o = Some out -> effective_target t o = out.
Proof. unfold effective_target. by intros ->. Qed.

(** The three ways a call ends, read off the file system it leaves. *)
Lemma merge_databases_inv fs s t o res fs' :
  merge_databases fs s t o = (res, fs') ->
  match res with
  | ReturnFalse => (fs !! s = None \/ fs !! t = None) /\ fs' = fs
  | Raised e =>
      fs' !! effective_target t o = fs !! t
      /\ (forall p, p <> effective_target t o -> fs' !! p = fs !! p)
      /\ (output_given o = None -> fs' = fs)
  | ReturnTrue st =>
      exists src tgt merged,
        fs !! t = Some tgt
        /\ (s <> effective_target t o -> fs !! s = Some src)
        /\ merge_tables src tgt = Ok (merged, st)
        /\ fs' !! effective_target t o = Some merged
        /\ (forall p, p <> effective_target t o -> fs' !! p = fs !! p)
  end.
Proof.
  unfold merge_databases.
  destruct (fs !! s) as [sdb|] eqn:Hs; [|intros [= <- <-]; auto].
  destruct (fs !! t) as [tdb|] eqn:Ht; [|intros [= <- <-]; auto].
  destruct (output_given o) as [out|] eqn:Ho.
  - rewrite (effective_target_output _ _ _ Ho).
    destruct (String.eqb out t) eqn:Hot.
    + apply String.eqb_eq in Hot as ->. intros [= <- <-]. by rewrite Ht.
    + apply String.eqb_neq in Hot. rewrite lookup_insert_eq.
      destruct (<[out:=tdb]> fs !! s) as [src|] eqn:Hsrc.
      * destruct (merge_tables src tdb) as [[merged st]|e] eqn:Hm; intros [= <- <-].
        -- exists src, tdb, merged. rewrite lookup_insert_eq.
           repeat split; auto.
           ++ intros Hne. rewrite lookup_insert_ne in Hsrc by congruence.
              congruence.
           ++ intros p Hp. by rewrite !lookup_insert_ne by done.
        -- rewrite lookup_insert_eq. repeat split; auto; try done.
           intros p Hp. by rewrite lookup_insert_ne by done.
      * intros [= <- <-]. rewrite lookup_insert_eq. repeat split; auto; try done.
        intros p Hp. by rewrite lookup_insert_ne by done.
  - rewrite (effective_target_in_place _ _ Ho), Hs, Ht.
    destruct (merge_tables sdb tdb) as [[merged st]|e] eqn:Hm; intros [= <- <-].
    + exists sdb, tdb, merged. rewrite lookup_insert_eq. repeat split; auto.
      intros p Hp. by rewrite lookup_insert_ne by done.
    + auto.
Qed.

(** An in-place call on two existing files. *)
Lemma merge_databases_in_place fs s t src tgt :
  fs !! s = Some src -> fs !! t = Some tgt ->
  merge_databases fs s t None =
  match merge_tables src tgt with
  | Ok (merged, st) => (ReturnTrue st, <[t := merged]> fs)
  | Raise e => (Raised e, fs)
  end.
Proof.
  intros Hs Ht. unfold merge_databases. rewrite Hs, Ht. simpl.
  unfold effective_target. simpl. by rewrite Hs, Ht.
Qed.

(** C9. When the source file or the target file does not exist,
    [merge_databases] returns [False] and no file has changed: the checks come
    before the copy, before either connection is opened and before any
    statement. *)
Theorem merge_databases_missing_input fs source_path target_path output_path :
  fs !! source_path = None \/ fs !! target_path = None ->
  merge_databases fs source_path target_path output_path = (ReturnFalse, fs).
Proof.
  intros H. unfold merge_databases.
  destruct (fs !! source_path); [|reflexivity].
  destruct H as [H|H]; [discriminate|]. by rewrite H.
Qed.

(** C10. The target file is written once, by the commit that follows the four
    loops.  A call that an exception leaves has written nothing to it: the file
    the target connection was opened on still has the content the target had,
    every other file is as before, and an in-place call leaves the whole file
    system as it was.  A call that returns [True] has stored the outcome of all
    four loops together. *)
Theorem merge_databases_commits_once fs source_path target_path output_path res fs' :
  merge_databases fs source_path target_path output_path = (res, fs') ->
  (forall e, res = Raised e ->
     fs' !! effective_target target_path output_path = fs !! target_path
     /\ (forall p, p <> effective_target target_path output_path -> fs' !! p = fs !! p)
     /\ (output_given output_path = None -> fs' = fs))
  /\ (forall st, res = ReturnTrue st ->
        exists source target merged,
          fs !! target_path = Some target
          /\ merge_tables source target = Ok (merged, st)
          /\ fs' !! effective_target target_path output_path = Some merged).
Proof.
  intros H. apply merge_databases_inv in H. split.
  - intros e ->. exact H.
  - intros st ->. destruct H as (src & tgt & merged & Ht & _ & Hm & Hf & _).
    eauto 10.
Qed.

(** Idempotence.  When every snapshot and score-history row of the source has
    a timestamp, a second call with the same source on the file the first call
    merged into changes nothing: it returns [True], every row of the source is
    counted as skipped, no row is added or updated, and the file system is the
    one the first call left. *)
Theorem merge_databases_idempotent fs source_path target_path output_path
    source st1 fs1 :
  fs !! source_path = Some source ->
  timestamps_recorded source = true ->
  source_path <> effective_target target_path output_path ->
  merge_databases fs source_path target_path output_path = (ReturnTrue st1, fs1) ->
  merge_databases fs1 source_path (effective_target target_path output_path) None
    = (ReturnTrue (all_skipped source), fs1)
  /\ no_changes (all_skipped source) = true.
Proof.
  intros Hs Hrec Hne H. split; [|reflexivity].
  apply merge_databases_inv in H
    as (src & tgt & merged & Ht & Hsrc & Hm & Hf & Hrest).
  specialize (Hsrc Hne). assert (src = source) as -> by congruence.
  rewrite (merge_databases_in_place fs1 _ _ source merged);
    [|by rewrite Hrest|done].
  rewrite (merge_tables_again _ _ _ _ Hm Hrec).
  by rewrite insert_id.
Qed.

(** ** The loop bodies, row by row *)

Lemma update_where_Forall2 {R} (q : R -> bool) (f : R -> R) (P : R -> R -> Prop) t :
  (forall e, e ∈ t -> P e (if q e then f e else e)) ->
  Forall2 P t (update_where q f t).
Proof.
  induction t as [|x t IH]; intros H; simpl; constructor.
  - apply H. constructor.
  - apply IH. intros e He. apply H. by constructor.
Qed.

Lemma fetchone_none_of {R} (p : R -> bool) (t : list R) :
  ~ (exists e, e ∈ t /\ p e = true) -> fetchone p t = None.
Proof.
  intros H. apply fetchone_None. intros e He.
  destruct (p e) eqn:Hp; [|reflexivity]. exfalso. eauto.
Qed.

(** ** Merging in both directions *)

Section SwappedRoles.
Context {R : Type}.
Variable key : R -> option string.
Variable stamp : R -> option string.
Variable insert : R -> list R -> result (list R).
Variable refresh : R -> R -> R.
Hypothesis insert_appends :
  forall row t t', insert row t = Ok t' -> t' = t ++ [row] /\ is_Some (key row).
Hypothesis refresh_key : forall row e, key (refresh row e) = key e.

Local Abbreviation body := (reconcile key stamp insert refresh).

Lemma reconcile_swapped ta tb m1 c1 c1' m2 c2 c2' a b k :
  NoDup (map key ta) -> NoDup (map key tb) ->
  for_each body ta (tb, c1) = Ok (m1, c1') ->
  for_each body tb (ta, c2) = Ok (m2, c2') ->
  a ∈ ta -> b ∈ tb -> key a = Some k -> key b = Some k ->
  lookup_key key k m1 = Some (if wins stamp a b then refresh a b else b)
  /\ lookup_key key k m2 = Some (if wins stamp b a then refresh b a else a).
Proof.
  intros Hna Hnb H1 H2 Ha Hb Hka Hkb.
  pose proof (lookup_key_unique key k a ta Hna Ha Hka) as Hla.
  pose proof (lookup_key_unique key k b tb Hnb Hb Hkb) as Hlb.
  split.
  - rewrite (reconcile_pass_lookup key stamp insert refresh insert_appends
               refresh_key k _ _ _ _ _ b Hna H1 Hlb).
    by rewrite Hla.
  - rewrite (reconcile_pass_lookup key stamp insert refresh insert_appends
               refresh_key k _ _ _ _ _ a Hnb H2 Hla).
    by rewrite Hlb.
Qed.

End SwappedRoles.

Lemma both_present_sym s t : both_present s t = both_present t s.
Proof. apply andb_comm. Qed.

(** Of two present and different timestamps exactly one is the newer. *)
Lemma strictly_newer_swap s t :
  both_present s t = true -> s <> t ->
  strictly_newer t s = negb (strictly_newer s t).
Proof.
  unfold both_present.
  destruct s as [a|], t as [b|]; simpl; rewrite ?andb_false_r; try discriminate.
  intros _ Hne. assert (a <> b) as Hab by congruence.
  destruct (str_gt a b) eqn:Hgt; simpl.
  - by apply str_gt_asym.
  - destruct (str_gt_total a b Hab); congruence.
Qed.


Lemma merge_tables_recency_posts A B M1 st1 M2 st2 a b k :
  merge_tables A B = Ok (M1, st1) -> merge_tables B A = Ok (M2, st2) ->
  NoDup (map Posts.post_id (posts A)) -> NoDup (map Posts.post_id (posts B)) ->
  a ∈ posts A -> b ∈ posts B -> Posts.post_id a = Some k -> Posts.post_id b = Some k ->
  both_present (Posts.last_updated a) (Posts.last_updated b) = true ->
  Posts.last_updated a <> Posts.last_updated b ->
  let newest := if strictly_newer (Posts.last_updated a) (Posts.last_updated b)
                then a else b in
  exists m1 m2,
    lookup_key Posts.post_id k (posts M1) = Some m1
    /\ lookup_key Posts.post_id k (posts M2) = Some m2
    /\ post_mutable m1 = post_mutable newest
    /\ post_mutable m2 = post_mutable newest
    /\ post_fixed m1 = post_fixed b
    /\ post_fixed m2 = post_fixed a.
Proof.
  intros H1 H2 Hna Hnb Ha Hb Hka Hkb Hbp Hne newest. subst newest.
  apply merge_tables_Ok in H1 as (_ & Hp1 & _ & _).
  apply merge_tables_Ok in H2 as (_ & Hp2 & _ & _).
  destruct (reconcile_swapped Posts.post_id Posts.last_updated insert_post
              update_post_from insert_post_appends (fun _ _ => eq_refl)
              _ _ _ _ _ _ _ _ a b k Hna Hnb Hp1 Hp2 Ha Hb Hka Hkb) as [Hm1 Hm2].
  unfold wins in Hm1, Hm2.
  rewrite both_present_sym, Hbp in Hm2. rewrite Hbp in Hm1. simpl in Hm1, Hm2.
  rewrite (strictly_newer_swap _ _ Hbp Hne) in Hm2.
  destruct (strictly_newer (Posts.last_updated a) (Posts.last_updated b));
    simpl in Hm2; eauto 10.
Qed.

Lemma merge_tables_recency_comments A B M1 st1 M2 st2 a b k :
  merge_tables A B = Ok (M1, st1) -> merge_tables B A = Ok (M2, st2) ->
  NoDup (map Comments.comment_id (comments A)) ->
  NoDup (map Comments.comment_id (comments B)) ->
  a ∈ comments A -> b ∈ comments B ->
  Comments.comment_id a = Some k -> Comments.comment_id b = Some k ->
  both_present (Comments.last_updated a) (Comments.last_updated b) = true ->
  Comments.last_updated a <> Comments.last_updated b ->
  let newest := if strictly_newer (Comments.last_updated a) (Comments.last_updated b)
                then a else b in
  exists m1 m2,
    lookup_key Comments.comment_id k (comments M1) = Some m1
    /\ lookup_key Comments.comment_id k (comments M2) = Some m2
    /\ comment_mutable m1 = comment_mutable newest
    /\ comment_mutable m2 = comment_mutable newest
    /\ comment_fixed m1 = comment_fixed b
    /\ comment_fixed m2 = comment_fixed a.
Proof.
  intros H1 H2 Hna Hnb Ha Hb Hka Hkb Hbp Hne newest. subst newest.
  apply merge_tables_Ok in H1 as (_ & _ & Hc1 & _).
  apply merge_tables_Ok in H2 as (_ & _ & Hc2 & _).
  destruct (reconcile_swapped Comments.comment_id Comments.last_updated insert_comment
              update_comment_from insert_comment_appends (fun _ _ => eq_refl)
              _ _ _ _ _ _ _ _ a b k Hna Hnb Hc1 Hc2 Ha Hb Hka Hkb) as [Hm1 Hm2].
  unfold wins in Hm1, Hm2.
  rewrite both_present_sym, Hbp in Hm2. rewrite Hbp in Hm1. simpl in Hm1, Hm2.
  rewrite (strictly_newer_swap _ _ Hbp Hne) in Hm2.
  destruct (strictly_newer (Comments.last_updated a) (Comments.last_updated b));
    simpl in Hm2; eauto 10.
Qed.

(** ** Ingestion *)

Lemma fetchone_null {R} (col : R -> option string) (t : list R) :
  fetchone (fun e => sql_eq (col e) None) t = None.
Proof.
  apply fetchone_None. intros e _. by destruct (col e).
Qed.

Lemma fetchone_None_existsb {R} (p : R -> bool) (t : list R) :
  fetchone p t = None -> existsb p t = false.
Proof.
  induction t as [|x t IH]; simpl; [done|].
  destruct (p x); [discriminate | exact IH].
Qed.

Lemma for_each_raises {R S} (body : R -> S -> result S) rows r :
  (forall s, exists e, body r s = Raise e) -> r ∈ rows ->
  forall s, exists e, for_each body rows s = Raise e.
Proof.
  intros Hr. induction rows as [|x rows IH]; intros Hin s.
  - by apply elem_of_nil in Hin.
  - cbn [for_each]. apply elem_of_cons in Hin as [<-|Hin].
    + destruct (Hr s) as [e ->]. eauto.
    + destruct (body x s); eauto.
Qed.

Section IngestionFacts.
Variable current_timestamp : nat -> string.
Variable isoformat : Z -> option string.
Variable fetch_image : string -> option string -> option string.

Local Abbreviation save_post' := (save_post current_timestamp isoformat fetch_image).
Local Abbreviation save_comment' := (save_comment current_timestamp isoformat).

Lemma save_post_without_id username post s :
  get (Post.id post) = None ->
  save_post' username post s =
  match fromtimestamp_isoformat isoformat (get_or 0 (Post.created_utc post)) with
  | Ok _ => Raise IntegrityError
  | Raise e => Raise e
  end.
Proof.
  intros Hid. unfold save_post. rewrite Hid.
  destruct (fromtimestamp_isoformat _ _); simpl; [|reflexivity].
  by rewrite fetchone_null.
Qed.

Lemma save_comment_without_id username comment s :
  get (Comment.id comment) = None ->
  save_comment' username comment s =
  match fromtimestamp_isoformat isoformat (get_or 0 (Comment.created_utc comment)) with
  | Ok _ => Raise IntegrityError
  | Raise e => Raise e
  end.
Proof.
  intros Hid. unfold save_comment. rewrite Hid.
  destruct (fromtimestamp_isoformat _ _); simpl; [|reflexivity].
  by rewrite fetchone_null.
Qed.

(** C7, amended.  A post or comment whose id key is missing or null is never
    stored: the record raises, with IntegrityError from the NOT NULL
    constraint on the id column when its created_utc converts, and a call of
    [save_posts] or [save_comments] that is given such a record ends with an
    exception and the database file unchanged.  No key is made up for it. *)
Theorem upsert_without_id_is_rejected username :
  (forall post s created,
     get (Post.id post) = None ->
     fromtimestamp_isoformat isoformat (get_or 0 (Post.created_utc post)) = Ok created ->
     save_post' username post s = Raise IntegrityError)
  /\ (forall posts post file,
        post ∈ posts -> get (Post.id post) = None ->
        exists e, save_posts current_timestamp isoformat fetch_image username posts file
                  = (Some e, file))
  /\ (forall comment s created,
        get (Comment.id comment) = None ->
        fromtimestamp_isoformat isoformat (get_or 0 (Comment.created_utc comment))
          = Ok created ->
        save_comment' username comment s = Raise IntegrityError)
  /\ (forall comments comment file,
        comment ∈ comments -> get (Comment.id comment) = None ->
        exists e, save_comments current_timestamp isoformat username comments file
                  = (Some e, file)).
Proof.
  repeat split.
  - intros post s created Hid Hc. by rewrite save_post_without_id, Hc.
  - intros posts post file Hin Hid. unfold save_posts.
    destruct (for_each_raises (save_post' username) posts post) with
      (s := mk_session file 0) as [e ->]; [|done|eauto].
    intros s. rewrite save_post_without_id by done.
    destruct (fromtimestamp_isoformat _ _); eauto.
  - intros comment s created Hid Hc. by rewrite save_comment_without_id, Hc.
  - intros comments comment file Hin Hid. unfold save_comments.
    destruct (for_each_raises (save_comment' username) comments comment) with
      (s := mk_session file 0) as [e ->]; [|done|eauto].
    intros s. rewrite save_comment_without_id by done.
    destruct (fromtimestamp_isoformat _ _); eauto.
Qed.

(** C8, amended.  An exception raised while one record is processed is not
    caught by [save_posts] or [save_comments]: it leaves the call, the
    records after it are not processed, and since the commit comes after the
    loop the database file keeps none of the call's writes, those of the
    records before it included. *)
Theorem item_error_aborts_the_call username :
  (forall before bad rest file s e,
     for_each (save_post' username) before (mk_session file 0) = Ok s ->
     save_post' username bad s = Raise e ->
     save_posts current_timestamp isoformat fetch_image username
       (before ++ bad :: rest) file = (Some e, file))
  /\ (forall before bad rest file s e,
        for_each (save_comment' username) before (mk_session file 0) = Ok s ->
        save_comment' username bad s = Raise e ->
        save_comments current_timestamp isoformat username
          (before ++ bad :: rest) file = (Some e, file)).
Proof.
  split; intros before bad rest file s e Hb Hbad.
  - unfold save_posts. rewrite for_each_app, Hb. cbn [for_each]. by rewrite Hbad.
  - unfold save_comments. rewrite for_each_app, Hb. cbn [for_each]. by rewrite Hbad.
Qed.
End IngestionFacts.

(** ** The properties on the sample data *)

Lemma merge_databases_missing_input_witness :
  merge_databases sample_files "missing.db" "b.db" (Some "out.db")
  = (ReturnFalse, sample_files)
  /\ merge_databases sample_files "a.db" "missing.db" None
     = (ReturnFalse, sample_files).
Proof.
  split.
  - apply merge_databases_missing_input. left. vm_compute. reflexivity.
  - apply merge_databases_missing_input. right. vm_compute. reflexivity.
Defined.

Lemma merge_databases_commits_once_witness :
  (<["out.db" := dataset_b]> broken_files) !! "out.db" = broken_files !! "b.db"
  /\ exists source target merged,
       sample_files !! "b.db" = Some target
       /\ merge_tables source target = Ok (merged, first_run_stats)
       /\ merged_files !! effective_target "b.db" None = Some merged.
Proof.
  split.
  - destruct (merge_databases_commits_once broken_files "a.db" "b.db" (Some "out.db")
                (Raised IntegrityError) (<["out.db" := dataset_b]> broken_files))
      as [Hraised _]; [vm_compute; reflexivity|].
    destruct (Hraised IntegrityError eq_refl) as [Hkept _]. exact Hkept.
  - destruct (merge_databases_commits_once sample_files "a.db" "b.db" None
                (ReturnTrue first_run_stats) merged_files)
      as [_ Hreturned]; [vm_compute; reflexivity|].
    exact (Hreturned first_run_stats eq_refl).
Defined.

Lemma merge_databases_idempotent_witness :
  merge_databases merged_files "a.db" "b.db" None
  = (ReturnTrue (all_skipped dataset_a), merged_files)
  /\ no_changes (all_skipped dataset_a) = true.
Proof.
  apply (merge_databases_idempotent sample_files "a.db" "b.db" None dataset_a
           first_run_stats merged_files).
  - vm_compute. reflexivity.
  - vm_compute. reflexivity.
  - vm_compute. discriminate.
  - vm_compute. reflexivity.
Defined.



Lemma sample_ids_unique : unique_ids dataset_a /\ unique_ids dataset_b.
Proof.
  unfold unique_ids. repeat split; apply (bool_decide_unpack _); vm_compute; exact I.
Qed.

(** C7, as stated, fails on the empty id: the record is stored under the key
    [''] and the call completes. *)
Lemma upsert_with_empty_id_is_stored :
  exists stored_posts stored_comments,
    save_posts sample_clock sample_isoformat sample_fetch_image "alice"
      [post_with_empty_id] empty_database = (None, stored_posts)
    /\ map Posts.post_id (posts stored_posts) = [Some EmptyString]
    /\ save_comments sample_clock sample_isoformat "alice"
         [comment_with_empty_id] empty_database = (None, stored_comments)
    /\ map Comments.comment_id (comments stored_comments) = [Some EmptyString].
Proof.
  do 2 eexists.
  split; [vm_compute; reflexivity|].
  split; [vm_compute; reflexivity|].
  split; vm_compute; reflexivity.
Qed.

Lemma upsert_without_id_is_rejected_witness :
  save_post sample_clock sample_isoformat sample_fetch_image "alice" post_without_id
    (mk_session dataset_b 0) = Raise IntegrityError
  /\ (exists e, save_posts sample_clock sample_isoformat sample_fetch_image "alice"
                  [unseen_post; post_without_id] dataset_b = (Some e, dataset_b))
  /\ save_comment sample_clock sample_isoformat "alice" comment_without_id
       (mk_session dataset_b 0) = Raise IntegrityError
  /\ (exists e, save_comments sample_clock sample_isoformat "alice"
                  [unseen_comment; comment_without_id] dataset_b = (Some e, dataset_b)).
Proof.
  destruct (upsert_without_id_is_rejected sample_clock sample_isoformat
              sample_fetch_image "alice") as (Hpost & Hposts & Hcomment & Hcomments).
  split; [|split; [|split]].
  - exact (Hpost post_without_id _ "2024-02-29T18:30:00" eq_refl eq_refl).
  - apply (Hposts _ post_without_id); [|reflexivity].
    apply elem_of_cons. right. constructor.
  - exact (Hcomment comment_without_id _ "2024-02-29T18:30:00" eq_refl eq_refl).
  - apply (Hcomments _ comment_without_id); [|reflexivity].
    apply elem_of_cons. right. constructor.
Defined.

(** C8, as stated, fails as soon as one record raises: the records after it
    are not processed and nothing of the call is stored, although each of the
    other records is stored when saved without the bad one. *)
Lemma bad_item_aborts_the_rest :
  save_posts sample_clock sample_isoformat sample_fetch_image "alice"
    [post_without_date; unseen_post] empty_database = (Some TypeError, empty_database)
  /\ (exists stored,
        save_posts sample_clock sample_isoformat sample_fetch_image "alice"
          [unseen_post] empty_database = (None, stored)
        /\ map Posts.post_id (posts stored) = [Some "p7"])
  /\ save_comments sample_clock sample_isoformat "alice"
       [unseen_comment; comment_without_date; seen_comment] empty_database
     = (Some TypeError, empty_database)
  /\ (exists stored,
        save_comments sample_clock sample_isoformat "alice"
          [unseen_comment; seen_comment] empty_database = (None, stored)
        /\ map Comments.comment_id (comments stored) = [Some "c7"; Some "c1"]).
Proof.
  split; [vm_compute; reflexivity|].
  split; [eexists; split; vm_compute; reflexivity|].
  split; [vm_compute; reflexivity|].
  eexists; split; vm_compute; reflexivity.
Qed.

Lemma item_error_aborts_the_call_witness :
  save_posts sample_clock sample_isoformat sample_fetch_image "alice"
    ([unseen_post] ++ post_without_date :: [seen_post]) dataset_b
  = (Some TypeError, dataset_b)
  /\ save_comments sample_clock sample_isoformat "alice"
       ([unseen_comment] ++ comment_without_id :: [seen_comment]) dataset_b
     = (Some IntegrityError, dataset_b).
Proof.
  destruct (item_error_aborts_the_call sample_clock sample_isoformat
              sample_fetch_image "alice") as [Hposts Hcomments].
  split.
  - eapply (Hposts [unseen_post] post_without_date [seen_post] dataset_b).
    + vm_compute. reflexivity.
    + vm_compute. reflexivity.
  - eapply (Hcomments [unseen_comment] comment_without_id [seen_comment] dataset_b).
    + vm_compute. reflexivity.
    + vm_compute. reflexivity.
Defined.

(** ** The worked examples of the specification *)

(** A post the target lacks is inserted with the source's score; a second run
    leaves exactly that one row. *)
Example merge_inserts_missing_post :
  let p1 := a_post "P1" 10 (Some "2024-01-01 08:00:00") (Some "2024-01-01 08:00:00") in
  let source := mk_database [] [p1] [] [] in
  exists st1 st2,
    merge_tables source empty_database = Ok (source, st1)
    /\ added (st_posts st1) = 1%nat
    /\ merge_tables source source = Ok (source, st2)
    /\ skipped (st_posts st2) = 1%nat.
Proof. do 2 eexists. repeat split; vm_compute; reflexivity. Qed.

(** A comment that the source saw later takes the source's score and
    last_updated. *)
Example merge_updates_older_comment :
  exists merged st,
    merge_tables (mk_database [] [] [newer_comment] [])
                 (mk_database [] [] [older_comment] []) = Ok (merged, st)
    /\ map Comments.score (comments merged) = [Some 5]
    /\ map Comments.last_updated (comments merged) = [Some "2024-01-02 00:00:00"]
    /\ map Comments.first_seen (comments merged) = [Some "2024-01-01 09:00:00"]
    /\ updated (st_comments st) = 1%nat.
Proof. do 2 eexists. repeat split; vm_compute; reflexivity. Qed.

(** Two snapshots with the same (username, timestamp): nothing is added and
    one skip is reported. *)
Example merge_skips_recorded_snapshot :
  merge_tables (mk_database [older_snapshot] [] [] [])
               (mk_database [older_snapshot] [] [] [])
  = Ok (mk_database [older_snapshot] [] [] [],
        mk_stats (mk_counts 0 0 1) no_counts no_counts no_counts).
Proof. vm_compute. reflexivity. Qed.

(** * Further properties of the reconciliation *)

(** ** What the statistics count *)

Section AppendOnlyCounts.
Context {R : Type}.
Variable same : R -> R -> bool.
Variable insert : R -> list R -> result (list R).
Hypothesis insert_appends :
  forall row t t', insert row t = Ok t' -> t' = t ++ [row].

Local Abbreviation body := (append_missing same insert).

Lemma append_pass_counts src : forall t c t' c',
  for_each body src (t, c) = Ok (t', c') ->
  (counted c' = counted c + length src)%nat
  /\ updated c' = updated c
  /\ (length t' + added c = length t + added c')%nat.
Proof.
  induction src as [|r src IH]; intros t c t' c' H; cbn [for_each] in H.
  - simplify_eq. simpl. lia.
  - destruct (body r (t, c)) as [[t1 c1]|] eqn:Hb; [|discriminate].
    destruct (IH _ _ _ _ H) as (Hn & Hu & Hl).
    apply (append_missing_cases same insert insert_appends) in Hb.
    destruct Hb as [(_ & _ & -> & ->)|(_ & -> & ->)];
      unfold counted in *; simpl in *; rewrite ?length_app in *; simpl in *; lia.
Qed.
End AppendOnlyCounts.

Section LastWriterWinsCounts.
Context {R : Type}.
Variable key : R -> option string.
Variable stamp : R -> option string.
Variable insert : R -> list R -> result (list R).
Variable refresh : R -> R -> R.
Hypothesis insert_appends :
  forall row t t', insert row t = Ok t' -> t' = t ++ [row] /\ is_Some (key row).

Local Abbreviation body := (reconcile key stamp insert refresh).

Lemma update_where_length (q : R -> bool) (f : R -> R) t :
  length (update_where q f t) = length t.
Proof. unfold update_where. apply length_map. Qed.

Lemma reconcile_pass_counts src : forall t c t' c',
  for_each body src (t, c) = Ok (t', c') ->
  (counted c' = counted c + length src)%nat
  /\ (length t' + added c = length t + added c')%nat.
Proof.
  induction src as [|r src IH]; intros t c t' c' H; cbn [for_each] in H.
  - simplify_eq. simpl. lia.
  - destruct (body r (t, c)) as [[t1 c1]|] eqn:Hb; [|discriminate].
    destruct (IH _ _ _ _ H) as (Hn & Hl).
    apply (reconcile_cases key stamp insert refresh insert_appends) in Hb.
    destruct Hb as [(_ & -> & _ & ->)|[(e & _ & _ & -> & ->)|(e & _ & _ & -> & ->)]];
      unfold counted in *; simpl in *;
      rewrite ?length_app, ?update_where_length in *; simpl in *; lia.
Qed.

(** The rows the table had stay where they are; only [refresh] is ever
    applied to them. *)
Lemma reconcile_pass_kept (P : R -> R -> Prop) :
  (forall row old cur, P old cur -> P old (refresh row cur)) ->
  forall src t0 kept extra c t' c',
    Forall2 P t0 kept ->
    for_each body src (kept ++ extra, c) = Ok (t', c') ->
    exists kept' extra', t' = kept' ++ extra' /\ Forall2 P t0 kept'.
Proof.
  intros Hstep. induction src as [|r src IH];
    intros t0 kept extra c t' c' HP H; cbn [for_each] in H.
  - simplify_eq. eauto.
  - destruct (body r (kept ++ extra, c)) as [[t1 c1]|] eqn:Hb; [|discriminate].
    apply (reconcile_cases key stamp insert refresh insert_appends) in Hb.
    destruct Hb as [(_ & -> & _ & _)|[(e & _ & _ & -> & _)|(e & _ & _ & -> & _)]].
    + rewrite <- app_assoc in H. eapply IH; eauto.
    + unfold update_where in H. rewrite map_app in H.
      eapply IH; [|exact H].
      clear -HP Hstep. induction HP; simpl; constructor; auto.
      destruct (same_key key r y); auto.
    + eapply IH; eauto.
Qed.
End LastWriterWinsCounts.

(** X1. The statistics of a completed run account for every source row: in
    each table added, updated and skipped sum to the number of rows of the
    source table, the two append-only tables report no update, and each table
    of the target has grown by exactly the number of rows reported added. *)
Theorem merge_statistics_add_up source target merged st :
  merge_tables source target = Ok (merged, st) ->
  (counted (st_account_snapshots st) = length (account_snapshots source)
   /\ counted (st_posts st) = length (posts source)
   /\ counted (st_comments st) = length (comments source)
   /\ counted (st_score_history st) = length (score_history source))%nat
  /\ (updated (st_account_snapshots st) = 0 /\ updated (st_score_history st) = 0)%nat
  /\ (length (account_snapshots merged)
      = length (account_snapshots target) + added (st_account_snapshots st)
      /\ length (posts merged) = length (posts target) + added (st_posts st)
      /\ length (comments merged) = length (comments target) + added (st_comments st)
      /\ length (score_history merged)
         = length (score_history target) + added (st_score_history st))%nat.
Proof.
  intros H. apply merge_tables_Ok in H as (H1 & H2 & H3 & H4).
  apply (append_pass_counts same_snapshot insert_account_snapshot
           insert_account_snapshot_appends) in H1 as (? & ? & ?).
  apply (reconcile_pass_counts Posts.post_id Posts.last_updated insert_post
           update_post_from insert_post_appends) in H2 as (? & ?).
  apply (reconcile_pass_counts Comments.comment_id Comments.last_updated insert_comment
           update_comment_from insert_comment_appends) in H3 as (? & ?).
  apply (append_pass_counts same_history insert_score_history
           insert_score_history_appends) in H4 as (? & ? & ?).
  unfold counted in *. simpl in *. repeat split; lia.
Qed.

(** X2. A run never removes, reorders or rewrites the identity of a row the
    target has: the posts and comments of the target come out first, in
    their order, each with every column outside the UPDATE's list (ids,
    texts, created_utc, first_seen, local_image_path, ...) as it was. *)
Theorem merge_keeps_fixed_columns source target merged st :
  merge_tables source target = Ok (merged, st) ->
  (exists kept extra,
     posts merged = kept ++ extra
     /\ Forall2 (fun old new => post_fixed new = post_fixed old) (posts target) kept)
  /\ (exists kept extra,
        comments merged = kept ++ extra
        /\ Forall2 (fun old new => comment_fixed new = comment_fixed old)
             (comments target) kept).
Proof.
  intros H. apply merge_tables_Ok in H as (_ & H2 & H3 & _). split.
  - eapply (reconcile_pass_kept Posts.post_id Posts.last_updated insert_post
              update_post_from insert_post_appends
              (fun old new => post_fixed new = post_fixed old)
              (fun _ _ _ H => H) (posts source) (posts target) (posts target) []).
    + apply Forall2_same_length_lookup_2; [done|]. intros i x y ? ?. congruence.
    + rewrite app_nil_r. exact H2.
  - eapply (reconcile_pass_kept Comments.comment_id Comments.last_updated insert_comment
              update_comment_from insert_comment_appends
              (fun old new => comment_fixed new = comment_fixed old)
              (fun _ _ _ H => H) (comments source) (comments target) (comments target) []).
    + apply Forall2_same_length_lookup_2; [done|]. intros i x y ? ?. congruence.
    + rewrite app_nil_r. exact H3.
Qed.

(** ** Constraints that a run keeps *)

Lemma for_each_Raise {R S} (body : R -> S -> result S) rows : forall s e,
  for_each body rows s = Raise e ->
  exists r s', r ∈ rows /\ body r s' = Raise e.
Proof.
  induction rows as [|r rows IH]; intros s e H; cbn [for_each] in H; [discriminate|].
  destruct (body r s) as [s1|e1] eqn:Hb.
  - destruct (IH _ _ H) as (r' & s' & Hin & Hr). exists r', s'. split; [|done].
    by constructor.
  - simplify_eq. exists r, s. split; [constructor | done].
Qed.

Lemma Forall2_map_r_in {A B} (P : A -> B -> Prop) (g : B -> B) l k :
  Forall2 P l k ->
  (forall old y, y ∈ k -> P old y -> P old (g y)) ->
  Forall2 P l (map g k).
Proof.
  induction 1 as [|x y l k Hxy HF IH]; intros Hg; simpl; constructor.
  - apply Hg; [constructor | done].
  - apply IH. intros old z Hz. apply Hg. by constructor.
Qed.

Lemma nodup_key_inj {R K} (key : R -> K) (t : list R) x e :
  NoDup (map key t) -> x ∈ t -> e ∈ t -> key x = key e -> x = e.
Proof.
  induction t as [|y t IH]; intros Hnd Hx He Hk; [by apply elem_of_nil in Hx|].
  simpl in Hnd. apply NoDup_cons in Hnd as [Hy Hnd].
  apply elem_of_cons in Hx as [->|Hx]; apply elem_of_cons in He as [->|He]; auto.
  - exfalso. apply Hy. rewrite Hk. by apply list_elem_of_fmap_2.
  - exfalso. apply Hy. rewrite <- Hk. by apply list_elem_of_fmap_2.
Qed.

Section AppendOnlyConstraints.
Context {R : Type}.
Variable same : R -> R -> bool.
Variable insert : R -> list R -> result (list R).
Variable valid : R -> bool.
Hypothesis insert_spec :
  forall row t,
    insert row t = (if valid row then Ok (t ++ [row]) else Raise IntegrityError).

Local Abbreviation body := (append_missing same insert).

Lemma append_missing_raises row t c e :
  body row (t, c) = Raise e -> e = IntegrityError /\ valid row = false.
Proof.
  unfold append_missing. destruct (fetchone (same row) t); [discriminate|].
  rewrite insert_spec. destruct (valid row); simpl; [discriminate|].
  intros [= <-]. done.
Qed.

Lemma append_pass_total src : forall t c,
  forallb valid src = true -> exists t' c', for_each body src (t, c) = Ok (t', c').
Proof.
  induction src as [|r src IH]; intros t c Hv; cbn [for_each]; [eauto|].
  simpl in Hv. apply andb_true_iff in Hv as [Hr Hv].
  unfold append_missing at 1. destruct (fetchone (same r) t).
  - apply IH, Hv.
  - rewrite insert_spec, Hr. simpl. apply IH, Hv.
Qed.

Lemma append_pass_valid src : forall t c t' c',
  for_each body src (t, c) = Ok (t', c') ->
  forallb valid t = true -> forallb valid t' = true.
Proof.
  induction src as [|r src IH]; intros t c t' c' H Hv; cbn [for_each] in H.
  - by simplify_eq.
  - destruct (body r (t, c)) as [[t1 c1]|] eqn:Hb; [|discriminate].
    eapply IH; [exact H|].
    unfold append_missing in Hb. destruct (fetchone (same r) t); [by simplify_eq|].
    rewrite insert_spec in Hb. destruct (valid r) eqn:Hr; simpl in Hb; [|discriminate].
    simplify_eq. rewrite forallb_app, Hv. simpl. by rewrite Hr.
Qed.
End AppendOnlyConstraints.

Section LastWriterWinsConstraints.
Context {R : Type}.
Variable key : R -> option string.
Variable stamp : R -> option string.
Variable insert : R -> list R -> result (list R).
Variable refresh : R -> R -> R.
Variable valid : R -> bool.
Hypothesis insert_spec :
  forall row t,
    insert row t =
    (if valid row
     then if existsb (same_key key row) t then Raise IntegrityError else Ok (t ++ [row])
     else Raise IntegrityError).
Hypothesis valid_key : forall row, valid row = true -> is_Some (key row).
Hypothesis refresh_key : forall row e, key (refresh row e) = key e.
Hypothesis refresh_valid : forall row e, valid (refresh row e) = valid e.

Local Abbreviation body := (reconcile key stamp insert refresh).

Lemma insert_spec_appends row t t' :
  insert row t = Ok t' -> t' = t ++ [row] /\ is_Some (key row).
Proof.
  rewrite insert_spec. destruct (valid row) eqn:Hv; [|discriminate].
  destruct (existsb _ t); [discriminate|]. intros [= <-]. auto.
Qed.

Lemma reconcile_raises row t c e :
  body row (t, c) = Raise e -> e = IntegrityError /\ valid row = false.
Proof.
  unfold reconcile. destruct (fetchone (same_key key row) t) as [x|] eqn:Hf.
  - destruct (both_present _ _); [destruct (strictly_newer _ _)|]; discriminate.
  - rewrite insert_spec. rewrite (fetchone_None_existsb _ _ Hf).
    destruct (valid row); simpl; [discriminate|]. intros [= <-]. done.
Qed.

Lemma reconcile_pass_total src : forall t c,
  forallb valid src = true -> exists t' c', for_each body src (t, c) = Ok (t', c').
Proof.
  induction src as [|r src IH]; intros t c Hv; cbn [for_each]; [eauto|].
  simpl in Hv. apply andb_true_iff in Hv as [Hr Hv].
  destruct (body r (t, c)) as [[t1 c1]|e] eqn:Hb; [apply IH, Hv|].
  apply reconcile_raises in Hb as [_ Hb]. congruence.
Qed.

Lemma reconcile_step_constraints row t c t' c' :
  body row (t, c) = Ok (t', c') ->
  (NoDup (map key t) -> NoDup (map key t'))
  /\ (forallb valid t = true -> forallb valid t' = true).
Proof.
  intros H. unfold reconcile in H.
  destruct (fetchone (same_key key row) t) as [x|] eqn:Hf.
  - assert (t' = t \/ t' = update_where (same_key key row) (refresh row) t) as [->| ->].
    { destruct (both_present _ _); [destruct (strictly_newer _ _)|]; simplify_eq; auto. }
    + done.
    + split.
      * by rewrite (update_where_keys key refresh refresh_key).
      * unfold update_where. rewrite !forallb_forall. intros Hv y Hy.
        apply in_map_iff in Hy as (z & <- & Hz).
        destruct (same_key key row z); [rewrite refresh_valid|]; auto.
  - rewrite insert_spec, (fetchone_None_existsb _ _ Hf) in H.
    destruct (valid row) eqn:Hv; simpl in H; [|discriminate]. simplify_eq. split.
    + intros Hnd. rewrite map_app. simpl. apply NoDup_app. split; [done|].
      split; [|apply NoDup_singleton].
      intros k Hk Hk'. apply list_elem_of_singleton in Hk' as ->.
      apply list_elem_of_fmap in Hk as (y & Hky & Hy).
      rewrite fetchone_None in Hf. specialize (Hf y Hy).
      destruct (valid_key _ Hv) as [k Hrow].
      unfold same_key in Hf. rewrite <- Hky, Hrow in Hf. simpl in Hf.
      by rewrite String.eqb_refl in Hf.
    + intros Hvt. rewrite forallb_app, Hvt. simpl. by rewrite Hv.
Qed.

Lemma reconcile_pass_constraints src : forall t c t' c',
  for_each body src (t, c) = Ok (t', c') ->
  (NoDup (map key t) -> NoDup (map key t'))
  /\ (forallb valid t = true -> forallb valid t' = true).
Proof.
  induction src as [|r src IH]; intros t c t' c' H; cbn [for_each] in H.
  - by simplify_eq.
  - destruct (body r (t, c)) as [[t1 c1]|] eqn:Hb; [|discriminate].
    apply reconcile_step_constraints in Hb as [Hn1 Hv1].
    destruct (IH _ _ _ _ H) as [Hn2 Hv2]. auto.
Qed.

(** With unique keys the UPDATE changes one row, the one the SELECT found. *)
Lemma reconcile_pass_kept_unique (P : R -> R -> Prop) :
  (forall row old cur, P old cur -> wins stamp row cur = true -> P old (refresh row cur)) ->
  forall src t0 kept extra c t' c',
    NoDup (map key (kept ++ extra)) ->
    Forall2 P t0 kept ->
    for_each body src (kept ++ extra, c) = Ok (t', c') ->
    exists kept' extra', t' = kept' ++ extra' /\ Forall2 P t0 kept'.
Proof.
  intros Hstep. induction src as [|r src IH];
    intros t0 kept extra c t' c' Hnd HP H; cbn [for_each] in H.
  - simplify_eq. eauto.
  - destruct (body r (kept ++ extra, c)) as [[t1 c1]|] eqn:Hb; [|discriminate].
    pose proof (proj1 (reconcile_step_constraints _ _ _ _ _ Hb) Hnd) as Hnd1.
    apply (reconcile_cases key stamp insert refresh insert_spec_appends) in Hb.
    destruct Hb as [(_ & -> & _ & _)|[(e & He & Hw & -> & _)|(e & _ & _ & -> & _)]].
    + rewrite <- app_assoc in H, Hnd1. eapply IH; eauto.
    + unfold update_where in H, Hnd1. rewrite map_app in H, Hnd1.
      eapply IH; [exact Hnd1| |exact H].
      apply Forall2_map_r_in; [done|]. intros old y Hy Hold.
      destruct (same_key key r y) eqn:Hs; [|done].
      apply Hstep; [done|].
      destruct (fetchone_Some _ _ _ He) as [Hein Hes].
      assert (y = e) as ->; [|done].
      apply (nodup_key_inj key (kept ++ extra)); auto.
      * apply elem_of_app. by left.
      * apply (same_key_eq key) in Hs as [-> _].
        apply (same_key_eq key) in Hes as [-> _]. done.
    + eapply IH; eauto.
Qed.
End LastWriterWinsConstraints.

Lemma insert_account_snapshot_spec row t :
  insert_account_snapshot row t =
  (if snapshot_valid row then Ok (t ++ [row]) else Raise IntegrityError).
Proof.
  unfold insert_account_snapshot, snapshot_valid.
  by destruct (is_null (AccountSnapshots.username row)).
Qed.

Lemma insert_score_history_spec row t :
  insert_score_history row t =
  (if entry_valid row then Ok (t ++ [row]) else Raise IntegrityError).
Proof.
  unfold insert_score_history, entry_valid.
  by destruct (is_null (ScoreHistory.item_type row)),
    (is_null (ScoreHistory.item_id row)).
Qed.

Lemma insert_post_spec row t :
  insert_post row t =
  (if post_valid row
   then if existsb (same_key Posts.post_id row) t then Raise IntegrityError
        else Ok (t ++ [row])
   else Raise IntegrityError).
Proof.
  unfold insert_post, post_valid.
  by destruct (is_null (Posts.post_id row)), (is_null (Posts.username row)).
Qed.

Lemma insert_comment_spec row t :
  insert_comment row t =
  (if comment_valid row
   then if existsb (same_key Comments.comment_id row) t then Raise IntegrityError
        else Ok (t ++ [row])
   else Raise IntegrityError).
Proof.
  unfold insert_comment, comment_valid.
  by destruct (is_null (Comments.comment_id row)), (is_null (Comments.username row)).
Qed.

Lemma post_valid_key row : post_valid row = true -> is_Some (Posts.post_id row).
Proof. unfold post_valid. destruct (Posts.post_id row); [eauto | discriminate]. Qed.

Lemma comment_valid_key row :
  comment_valid row = true -> is_Some (Comments.comment_id row).
Proof. unfold comment_valid. destruct (Comments.comment_id row); [eauto | discriminate]. Qed.

Lemma not_null_ok_tables d :
  not_null_ok d = true <->
  forallb snapshot_valid (account_snapshots d) = true
  /\ forallb post_valid (posts d) = true
  /\ forallb comment_valid (comments d) = true
  /\ forallb entry_valid (score_history d) = true.
Proof.
  unfold not_null_ok. rewrite !andb_true_iff.
  change (fun r => negb (is_null (AccountSnapshots.username r))) with snapshot_valid.
  change (fun r => negb (is_null (Posts.post_id r)) && negb (is_null (Posts.username r)))
    with post_valid.
  change (fun r => negb (is_null (Comments.comment_id r))
                   && negb (is_null (Comments.username r))) with comment_valid.
  change (fun r => negb (is_null (ScoreHistory.item_type r))
                   && negb (is_null (ScoreHistory.item_id r))) with entry_valid.
  tauto.
Qed.

(** The loops complete on a source without NULL in a NOT NULL column, and the
    only exception they raise is IntegrityError. *)
Lemma merge_tables_total source target :
  not_null_ok source = true ->
  exists merged st, merge_tables source target = Ok (merged, st).
Proof.
  intros Hv. apply not_null_ok_tables in Hv as (H1 & H2 & H3 & H4).
  destruct (append_pass_total same_snapshot insert_account_snapshot snapshot_valid
              insert_account_snapshot_spec (account_snapshots source)
              (account_snapshots target) no_counts H1) as (t1 & c1 & E1).
  destruct (reconcile_pass_total Posts.post_id Posts.last_updated insert_post
              update_post_from post_valid insert_post_spec (posts source)
              (posts target) no_counts H2) as (t2 & c2 & E2).
  destruct (reconcile_pass_total Comments.comment_id Comments.last_updated insert_comment
              update_comment_from comment_valid insert_comment_spec (comments source)
              (comments target) no_counts H3) as (t3 & c3 & E3).
  destruct (append_pass_total same_history insert_score_history entry_valid
              insert_score_history_spec (score_history source)
              (score_history target) no_counts H4) as (t4 & c4 & E4).
  exists (mk_database t1 t2 t3 t4), (mk_stats c1 c2 c3 c4).
  by apply merge_tables_Ok.
Qed.

Lemma merge_tables_raises source target e :
  merge_tables source target = Raise e ->
  e = IntegrityError /\ not_null_ok source = false.
Proof.
  intros H. split.
  - unfold merge_tables in H.
    destruct (for_each merge_account_snapshot _ _) as [[t1 c1]|e1] eqn:E1.
    2:{ simpl in H. simplify_eq. apply for_each_Raise in E1 as (r & [t c] & _ & Hr).
        by apply (append_missing_raises same_snapshot insert_account_snapshot
                    snapshot_valid insert_account_snapshot_spec) in Hr as [-> _]. }
    destruct (for_each merge_post _ _) as [[t2 c2]|e2] eqn:E2.
    2:{ simpl in H. simplify_eq. apply for_each_Raise in E2 as (r & [t c] & _ & Hr).
        by apply (reconcile_raises Posts.post_id Posts.last_updated insert_post
                    update_post_from post_valid insert_post_spec) in Hr as [-> _]. }
    destruct (for_each merge_comment _ _) as [[t3 c3]|e3] eqn:E3.
    2:{ simpl in H. simplify_eq. apply for_each_Raise in E3 as (r & [t c] & _ & Hr).
        by apply (reconcile_raises Comments.comment_id Comments.last_updated
                    insert_comment update_comment_from comment_valid
                    insert_comment_spec) in Hr as [-> _]. }
    destruct (for_each merge_score_history _ _) as [[t4 c4]|e4] eqn:E4.
    2:{ simpl in H. simplify_eq. apply for_each_Raise in E4 as (r & [t c] & _ & Hr).
        by apply (append_missing_raises same_history insert_score_history
                    entry_valid insert_score_history_spec) in Hr as [-> _]. }
    discriminate.
  - destruct (not_null_ok source) eqn:Hv; [|done].
    destruct (merge_tables_total source target Hv) as (m & st & Hm). congruence.
Qed.

Lemma forallb_sublist {A} (p : A -> bool) (l k : list A) :
  l `sublist_of` k -> forallb p k = true -> forallb p l = true.
Proof.
  rewrite !forallb_forall. intros Hsub Hk x Hx. apply Hk.
  apply list_elem_of_In. apply list_elem_of_In in Hx.
  by apply (elem_of_sublist l k).
Qed.

Lemma merge_tables_constraints source target merged st :
  merge_tables source target = Ok (merged, st) ->
  (unique_ids target -> unique_ids merged)
  /\ (not_null_ok target = true -> not_null_ok merged = true)
  /\ (timestamps_recorded source = true -> timestamps_recorded target = true ->
      timestamps_recorded merged = true).
Proof.
  intros H. apply merge_tables_Ok in H as (H1 & H2 & H3 & H4).
  destruct (reconcile_pass_constraints Posts.post_id Posts.last_updated insert_post
              update_post_from post_valid insert_post_spec post_valid_key
              (fun _ _ => eq_refl) (fun _ _ => eq_refl) _ _ _ _ _ H2) as [Hn2 Hv2].
  destruct (reconcile_pass_constraints Comments.comment_id Comments.last_updated
              insert_comment update_comment_from comment_valid insert_comment_spec
              comment_valid_key (fun _ _ => eq_refl) (fun _ _ => eq_refl)
              _ _ _ _ _ H3) as [Hn3 Hv3].
  split; [|split].
  - intros [Hp Hc]. split; auto.
  - rewrite !not_null_ok_tables. intros (V1 & V2 & V3 & V4). repeat split; auto.
    + exact (append_pass_valid same_snapshot insert_account_snapshot snapshot_valid
               insert_account_snapshot_spec _ _ _ _ _ H1 V1).
    + exact (append_pass_valid same_history insert_score_history entry_valid
               insert_score_history_spec _ _ _ _ _ H4 V4).
  - unfold timestamps_recorded. rewrite !andb_true_iff.
    intros [S1 S4] [T1 T4].
    apply (append_pass_extends same_snapshot insert_account_snapshot
             insert_account_snapshot_appends) in H1 as (x1 & -> & Hx1).
    apply (append_pass_extends same_history insert_score_history
             insert_score_history_appends) in H4 as (x4 & -> & Hx4).
    rewrite !forallb_app, T1, T4. simpl.
    split; eapply forallb_sublist; eauto.
Qed.

(** X4. A completed run keeps the constraints of the schema in the target:
    post and comment ids stay unique, no NOT NULL column receives a NULL, and
    when every snapshot and score-history row of the source and of the target
    has a timestamp, so has every such row of the result. *)
Theorem merge_keeps_constraints source target merged st :
  merge_tables source target = Ok (merged, st) ->
  (unique_ids target -> unique_ids merged)
  /\ (not_null_ok target = true -> not_null_ok merged = true)
  /\ (timestamps_recorded source = true -> timestamps_recorded target = true ->
      timestamps_recorded merged = true).
Proof. exact (merge_tables_constraints source target merged st). Qed.

Lemma not_older_step s c o :
  not_older c o ->
  both_present s c && strictly_newer s c = true ->
  not_older s o.
Proof.
  intros [->|[Hp Hn]] Hw; apply andb_true_iff in Hw as [Hsp Hsn].
  - right. done.
  - right. unfold both_present in *.
    apply andb_true_iff in Hp as [Hc Ho]. apply andb_true_iff in Hsp as [Hs _].
    split; [by rewrite Hs, Ho|].
    destruct s as [a|], c as [b|], o as [d|]; simpl in *; try discriminate.
    by apply (str_gt_trans a b d).
Qed.

Lemma refreshed_post_not_older row old cur :
  not_older (Posts.last_updated cur) (Posts.last_updated old) ->
  wins Posts.last_updated row cur = true ->
  not_older (Posts.last_updated (update_post_from row cur)) (Posts.last_updated old).
Proof. intros Hold Hw. simpl. eapply not_older_step; eauto. Qed.

Lemma refreshed_comment_not_older row old cur :
  not_older (Comments.last_updated cur) (Comments.last_updated old) ->
  wins Comments.last_updated row cur = true ->
  not_older (Comments.last_updated (update_comment_from row cur))
    (Comments.last_updated old).
Proof. intros Hold Hw. simpl. eapply not_older_step; eauto. Qed.

(** X5. With unique ids in the target, a run never moves the last_updated of
    a post or comment of the target backwards: after the run it is what it
    was, or both values are present and the new one is strictly greater. *)
Theorem merge_never_backdates source target merged st :
  merge_tables source target = Ok (merged, st) ->
  unique_ids target ->
  (exists kept extra,
     posts merged = kept ++ extra
     /\ Forall2 (fun old new =>
                   not_older (Posts.last_updated new) (Posts.last_updated old))
          (posts target) kept)
  /\ (exists kept extra,
        comments merged = kept ++ extra
        /\ Forall2 (fun old new =>
                      not_older (Comments.last_updated new) (Comments.last_updated old))
             (comments target) kept).
Proof.
  intros H [Hp Hc]. apply merge_tables_Ok in H as (_ & H2 & H3 & _). split.
  - eapply (reconcile_pass_kept_unique Posts.post_id Posts.last_updated insert_post
              update_post_from post_valid insert_post_spec post_valid_key
              (fun _ _ => eq_refl) (fun _ _ => eq_refl)
              (fun old new => not_older (Posts.last_updated new) (Posts.last_updated old))
              refreshed_post_not_older (posts source) (posts target) (posts target) []).
    + by rewrite app_nil_r.
    + apply Forall2_same_length_lookup_2; [done|]. intros i x y ? ?.
      left. congruence.
    + rewrite app_nil_r. exact H2.
  - eapply (reconcile_pass_kept_unique Comments.comment_id Comments.last_updated
              insert_comment update_comment_from comment_valid insert_comment_spec
              comment_valid_key (fun _ _ => eq_refl) (fun _ _ => eq_refl)
              (fun old new =>
                 not_older (Comments.last_updated new) (Comments.last_updated old))
              refreshed_comment_not_older (comments source) (comments target)
              (comments target) []).
    + by rewrite app_nil_r.
    + apply Forall2_same_length_lookup_2; [done|]. intros i x y ? ?.
      left. congruence.
    + rewrite app_nil_r. exact H3.
Qed.

(** X6. A call changes no file but the one the target connection is opened
    on.  With an output path other than the two inputs, the source and the
    target both keep their content; in place, the source does. *)
Theorem merge_databases_touches_one_file fs source_path target_path output_path
    res fs' :
  merge_databases fs source_path target_path output_path = (res, fs') ->
  (forall p, p <> effective_target target_path output_path -> fs' !! p = fs !! p)
  /\ (forall out, output_given output_path = Some out ->
        out <> target_path -> fs' !! target_path = fs !! target_path)
  /\ (source_path <> effective_target target_path output_path ->
      fs' !! source_path = fs !! source_path).
Proof.
  intros H. apply merge_databases_inv in H.
  assert (forall p, p <> effective_target target_path output_path -> fs' !! p = fs !! p)
    as Hframe.
  { destruct res as [|st|e].
    - destruct H as [_ ->]. done.
    - destruct H as (? & ? & ? & _ & _ & _ & _ & Hf). exact Hf.
    - destruct H as (_ & Hf & _). exact Hf. }
  split; [exact Hframe|]. split.
  - intros out Ho Hne. apply Hframe.
    rewrite (effective_target_output _ _ _ Ho). congruence.
  - intros Hne. by apply Hframe.
Qed.

(** ** Datasets without a common identity *)

Section AppendOnlyDisjoint.
Context {R K : Type}.
Variable same : R -> R -> bool.
Variable insert : R -> list R -> result (list R).
Variable valid : R -> bool.
Variable ident : R -> option K.
Hypothesis insert_spec :
  forall row t,
    insert row t = (if valid row then Ok (t ++ [row]) else Raise IntegrityError).
Hypothesis same_ident :
  forall row e, same row e = true -> exists k, ident row = Some k /\ ident e = Some k.

Local Abbreviation body := (append_missing same insert).

Lemma append_pass_disjoint src : forall t c,
  NoDup (omap ident (t ++ src)) -> forallb valid src = true ->
  for_each body src (t, c) = Ok (t ++ src, add_many (length src) c).
Proof.
  induction src as [|r src IH]; intros t c Hnd Hv; cbn [for_each].
  - rewrite app_nil_r. by destruct c.
  - simpl in Hv. apply andb_true_iff in Hv as [Hr Hv].
    assert (fetchone (same r) t = None) as Hf.
    { apply fetchone_None. intros e He. destruct (same r e) eqn:Hs; [|done].
      exfalso. apply same_ident in Hs as (k & Hkr & Hke).
      rewrite omap_app in Hnd. apply NoDup_app in Hnd as (_ & Hdis & _).
      apply (Hdis k).
      - apply list_elem_of_omap. eauto.
      - apply list_elem_of_omap. exists r. split; [constructor | done]. }
    unfold append_missing at 1. rewrite Hf, insert_spec, Hr. simpl.
    rewrite IH; [|by rewrite <- app_assoc|done].
    rewrite <- app_assoc. simpl. f_equal. f_equal.
    unfold add_many, count_added. simpl. f_equal. lia.
Qed.
End AppendOnlyDisjoint.

Section LastWriterWinsDisjoint.
Context {R : Type}.
Variable key : R -> option string.
Variable stamp : R -> option string.
Variable insert : R -> list R -> result (list R).
Variable refresh : R -> R -> R.
Variable valid : R -> bool.
Hypothesis insert_spec :
  forall row t,
    insert row t =
    (if valid row
     then if existsb (same_key key row) t then Raise IntegrityError else Ok (t ++ [row])
     else Raise IntegrityError).

Local Abbreviation body := (reconcile key stamp insert refresh).

Lemma reconcile_pass_disjoint src : forall t c,
  NoDup (omap key (t ++ src)) -> forallb valid src = true ->
  for_each body src (t, c) = Ok (t ++ src, add_many (length src) c).
Proof.
  induction src as [|r src IH]; intros t c Hnd Hv; cbn [for_each].
  - rewrite app_nil_r. by destruct c.
  - simpl in Hv. apply andb_true_iff in Hv as [Hr Hv].
    assert (fetchone (same_key key r) t = None) as Hf.
    { apply fetchone_None. intros e He. destruct (same_key key r e) eqn:Hs; [|done].
      exfalso. unfold same_key in Hs. apply sql_eq_true in Hs as (k & Hke & Hkr).
      rewrite omap_app in Hnd. apply NoDup_app in Hnd as (_ & Hdis & _).
      apply (Hdis k).
      - apply list_elem_of_omap. eauto.
      - apply list_elem_of_omap. exists r. split; [constructor | done]. }
    unfold reconcile at 1.
    rewrite Hf, insert_spec, Hr, (fetchone_None_existsb _ _ Hf). simpl.
    rewrite IH; [|by rewrite <- app_assoc|done].
    rewrite <- app_assoc. simpl. f_equal. f_equal.
    unfold add_many, count_added. simpl. f_equal. lia.
Qed.
End LastWriterWinsDisjoint.

Lemma same_snapshot_shared row e :
  same_snapshot row e = true ->
  exists k, snapshot_identity row = Some k /\ snapshot_identity e = Some k.
Proof. apply same_snapshot_identity. Qed.

Lemma same_history_shared row e :
  same_history row e = true ->
  exists k, history_identity row = Some k /\ history_identity e = Some k.
Proof. apply same_history_identity. Qed.

(** X7. When the target and the source together hold no identity twice and
    the source has no NULL in a NOT NULL column, a run appends the source to
    the target, table by table and row by row, and reports every source row
    as added.  Merged into an empty database, such a source is reproduced
    exactly. *)
Theorem merge_of_disjoint_datasets source target :
  not_null_ok source = true ->
  disjoint_identities target source ->
  merge_tables source target = Ok (concat_database target source, all_added source)
  /\ (target = empty_database ->
      merge_tables source target = Ok (source, all_added source)).
Proof.
  intros Hv (D1 & D2 & D3 & D4).
  apply not_null_ok_tables in Hv as (V1 & V2 & V3 & V4).
  assert (merge_tables source target
          = Ok (concat_database target source, all_added source)) as Hm.
  { apply merge_tables_Ok. simpl. repeat split.
    - exact (append_pass_disjoint same_snapshot insert_account_snapshot snapshot_valid
               snapshot_identity insert_account_snapshot_spec same_snapshot_shared
               _ _ _ D1 V1).
    - exact (reconcile_pass_disjoint Posts.post_id Posts.last_updated insert_post
               update_post_from post_valid insert_post_spec _ _ _ D2 V2).
    - exact (reconcile_pass_disjoint Comments.comment_id Comments.last_updated
               insert_comment update_comment_from comment_valid insert_comment_spec
               _ _ _ D3 V3).
    - exact (append_pass_disjoint same_history insert_score_history entry_valid
               history_identity insert_score_history_spec same_history_shared
               _ _ _ D4 V4). }
  split; [exact Hm|]. intros ->. rewrite Hm. by destruct source.
Qed.

(** ** The properties of the reconciliation on the sample data *)

Lemma merge_statistics_add_up_witness :
  counted (st_posts first_run_stats) = length (posts dataset_a)
  /\ updated (st_score_history first_run_stats) = 0%nat
  /\ length (posts merged_b)
     = (length (posts dataset_b) + added (st_posts first_run_stats))%nat.
Proof.
  destruct (merge_statistics_add_up dataset_a dataset_b merged_b first_run_stats)
    as ((_ & H1 & _) & (_ & H2) & (_ & H3 & _)).
  - vm_compute. reflexivity.
  - exact (conj H1 (conj H2 H3)).
Defined.

Lemma merge_keeps_fixed_columns_witness :
  exists kept extra,
    posts merged_b = kept ++ extra
    /\ Forall2 (fun old new => post_fixed new = post_fixed old) (posts dataset_b) kept.
Proof.
  apply (merge_keeps_fixed_columns dataset_a dataset_b merged_b first_run_stats).
  vm_compute. reflexivity.
Defined.

Lemma merge_keeps_constraints_witness :
  unique_ids merged_b /\ not_null_ok merged_b = true
  /\ timestamps_recorded merged_b = true.
Proof.
  destruct (merge_keeps_constraints dataset_a dataset_b merged_b first_run_stats)
    as (HU & HV & HT).
  - vm_compute. reflexivity.
  - split; [|split].
    + apply HU. exact (proj2 sample_ids_unique).
    + apply HV. vm_compute. reflexivity.
    + apply HT; vm_compute; reflexivity.
Defined.

Lemma merge_databases_touches_one_file_witness :
  files_a_into_b !! "b.db" = sample_files !! "b.db"
  /\ files_a_into_b !! "a.db" = sample_files !! "a.db".
Proof.
  destruct (merge_databases_touches_one_file sample_files "a.db" "b.db" (Some "ab.db")
              (ReturnTrue first_run_stats) files_a_into_b) as (_ & Ht & Hs).
  - vm_compute. reflexivity.
  - split.
    + apply (Ht "ab.db"); [reflexivity | discriminate].
    + apply Hs. vm_compute. discriminate.
Defined.

Lemma merge_of_disjoint_datasets_witness :
  merge_tables dataset_c dataset_b
  = Ok (concat_database dataset_b dataset_c, all_added dataset_c)
  /\ merge_tables dataset_c empty_database = Ok (dataset_c, all_added dataset_c).
Proof.
  split.
  - apply (merge_of_disjoint_datasets dataset_c dataset_b).
    + vm_compute. reflexivity.
    + unfold disjoint_identities.
      repeat split; apply (bool_decide_unpack _); vm_compute; exact I.
  - apply (merge_of_disjoint_datasets dataset_c empty_database).
    + vm_compute. reflexivity.
    + unfold disjoint_identities.
      repeat split; apply (bool_decide_unpack _); vm_compute; exact I.
    + reflexivity.
Defined.

Lemma merge_never_backdates_witness :
  exists kept extra,
    posts merged_b = kept ++ extra
    /\ Forall2 (fun old new =>
                  not_older (Posts.last_updated new) (Posts.last_updated old))
         (posts dataset_b) kept.
Proof.
  apply (merge_never_backdates dataset_a dataset_b merged_b first_run_stats).
  - vm_compute. reflexivity.
  - exact (proj2 sample_ids_unique).
Defined.

(** * Further properties of the ingestion *)

Section IngestionSteps.
Variable current_timestamp : nat -> string.
Variable isoformat : Z -> option string.
Variable fetch_image : string -> option string -> option string.

Local Abbreviation save_post' := (save_post current_timestamp isoformat fetch_image).
Local Abbreviation save_comment' := (save_comment current_timestamp isoformat).

(** What a completed iteration of [save_posts] has done. *)
Lemma save_post_Ok username post s s' :
  save_post' username post s = Ok s' ->
  comments (db s') = comments (db s)
  /\ account_snapshots (db s') = account_snapshots (db s)
  /\ (exists created,
        fromtimestamp_isoformat isoformat (get_or 0 (Post.created_utc post)) = Ok created)
  /\ exists k, get (Post.id post) = Some k
     /\ ((exists e,
            fetchone (fun r => sql_eq (Posts.post_id r) (Some k)) (posts (db s)) = Some e
            /\ posts (db s') =
               update_where (fun r => sql_eq (Posts.post_id r) (Some k))
                 (touch_post (get_or 0 (Post.score post)) post
                    (current_timestamp (S (statements s)))) (posts (db s))
            /\ score_history (db s') =
               score_history (db s) ++
               (if bool_decide (Posts.score e = get_or 0 (Post.score post)) then []
                else [ScoreHistory.mk (Some "post") (Some k) (get_or 0 (Post.score post))
                        (Some (current_timestamp (S (S (statements s)))))]))
         \/ (fetchone (fun r => sql_eq (Posts.post_id r) (Some k)) (posts (db s)) = None
             /\ (exists row,
                   posts (db s') = posts (db s) ++ [row]
                   /\ Posts.post_id row = Some k
                   /\ Posts.username row = Some username
                   /\ Posts.score row = get (Post.score post)
                   /\ Posts.upvote_ratio row = get (Post.upvote_ratio post)
                   /\ Posts.num_comments row = get (Post.num_comments post))
             /\ score_history (db s') =
                score_history (db s) ++
                [ScoreHistory.mk (Some "post") (Some k) (get_or 0 (Post.score post))
                   (Some (current_timestamp (S (S (statements s)))))])).
Proof.
  unfold save_post.
  destruct (fromtimestamp_isoformat isoformat _) as [created|] eqn:Hc; [|discriminate].
  simpl.
  destruct (fetchone _ (posts (db s))) as [e|] eqn:Hf.
  - destruct (fetchone_Some _ _ _ Hf) as [_ Hid].
    apply sql_eq_true in Hid as (k & _ & Hid). rewrite Hid in *.
    unfold execute, log_score, insert_score_history. simpl.
    destruct (bool_decide (Posts.score e = get_or 0 (Post.score post))) eqn:Hd; simpl;
      intros [= <-]; simpl; (repeat split; eauto); exists k; (split; [done|]);
      left; exists e; rewrite Hd, ?app_nil_r; auto.
  - destruct (get (Post.id post)) as [k|] eqn:Hid.
    + pose proof (fetchone_None_existsb _ _ Hf) as Hex.
      unfold execute, log_score, insert_post, insert_score_history. simpl.
      rewrite Hex. simpl.
      destruct (truthy _); [destruct (get_or EmptyString (Post.title post))|];
        try discriminate; intros [= <-]; simpl;
        (repeat split; eauto; exists k; split; [done|]; right; eauto 20).
    + unfold execute, insert_post. simpl. discriminate.
Qed.

(** What a completed iteration of [save_comments] has done. *)
Lemma save_comment_Ok username comment s s' :
  save_comment' username comment s = Ok s' ->
  posts (db s') = posts (db s)
  /\ account_snapshots (db s') = account_snapshots (db s)
  /\ (exists created,
        fromtimestamp_isoformat isoformat (get_or 0 (Comment.created_utc comment))
        = Ok created)
  /\ exists k, get (Comment.id comment) = Some k
     /\ ((exists e,
            fetchone (fun r => sql_eq (Comments.comment_id r) (Some k)) (comments (db s))
            = Some e
            /\ comments (db s') =
               update_where (fun r => sql_eq (Comments.comment_id r) (Some k))
                 (touch_comment (get_or 0 (Comment.score comment))
                    (current_timestamp (S (statements s)))) (comments (db s))
            /\ score_history (db s') =
               score_history (db s) ++
               (if bool_decide (Comments.score e = get_or 0 (Comment.score comment))
                then []
                else [ScoreHistory.mk (Some "comment") (Some k)
                        (get_or 0 (Comment.score comment))
                        (Some (current_timestamp (S (S (statements s)))))]))
         \/ (fetchone (fun r => sql_eq (Comments.comment_id r) (Some k)) (comments (db s))
             = None
             /\ (exists row,
                   comments (db s') = comments (db s) ++ [row]
                   /\ Comments.comment_id row = Some k
                   /\ Comments.username row = Some username
                   /\ Comments.score row = get (Comment.score comment))
             /\ score_history (db s') =
                score_history (db s) ++
                [ScoreHistory.mk (Some "comment") (Some k)
                   (get_or 0 (Comment.score comment))
                   (Some (current_timestamp (S (S (statements s)))))])).
Proof.
  unfold save_comment.
  destruct (fromtimestamp_isoformat isoformat _) as [created|] eqn:Hc; [|discriminate].
  simpl.
  destruct (fetchone _ (comments (db s))) as [e|] eqn:Hf.
  - destruct (fetchone_Some _ _ _ Hf) as [_ Hid].
    apply sql_eq_true in Hid as (k & _ & Hid). rewrite Hid in *.
    unfold execute, log_score, insert_score_history. simpl.
    destruct (bool_decide (Comments.score e = get_or 0 (Comment.score comment))) eqn:Hd;
      simpl; intros [= <-]; simpl; (repeat split; eauto); exists k; (split; [done|]);
      left; exists e; rewrite Hd, ?app_nil_r; auto.
  - destruct (get (Comment.id comment)) as [k|] eqn:Hid.
    + pose proof (fetchone_None_existsb _ _ Hf) as Hex.
      unfold execute, log_score, insert_comment, insert_score_history. simpl.
      rewrite Hex. simpl. intros [= <-]. simpl.
      repeat split; eauto. exists k. split; [done|]. right. eauto 20.
    + unfold execute, insert_comment. simpl. discriminate.
Qed.
End IngestionSteps.


Section IngestionBatches.
Variable current_timestamp : nat -> string.
Variable isoformat : Z -> option string.
Variable fetch_image : string -> option string -> option string.

Local Abbreviation save_post' := (save_post current_timestamp isoformat fetch_image).
Local Abbreviation save_comment' := (save_comment current_timestamp isoformat).
Local Abbreviation save_posts' := (save_posts current_timestamp isoformat fetch_image).
Local Abbreviation save_comments' := (save_comments current_timestamp isoformat).

Lemma touch_post_fixed new post now e :
  post_fixed (touch_post new post now e) = post_fixed e.
Proof. reflexivity. Qed.

Lemma touch_comment_fixed new now e :
  comment_fixed (touch_comment new now e) = comment_fixed e.
Proof. reflexivity. Qed.

Lemma Forall2_fixed_refl {A B} (f : A -> B) (l : list A) :
  Forall2 (fun old cur => f cur = f old) l l.
Proof. induction l; constructor; auto. Qed.

Lemma posts_ingested_refl file : posts_ingested file file.
Proof.
  split; [done|]. split; [done|]. split.
  - exists (posts file), []. rewrite app_nil_r. split; [done|]. apply Forall2_fixed_refl.
  - exists []. by rewrite app_nil_r.
Qed.

Lemma comments_ingested_refl file : comments_ingested file file.
Proof.
  split; [done|]. split; [done|]. split.
  - exists (comments file), []. rewrite app_nil_r. split; [done|]. apply Forall2_fixed_refl.
  - exists []. by rewrite app_nil_r.
Qed.

Lemma save_post_frame username post s s' file :
  posts_ingested file (db s) ->
  save_post' username post s = Ok s' ->
  posts_ingested file (db s').
Proof.
  intros (Hc & Ha & (kept & new & Hp & Hk) & (entries & Hh & He)) H.
  apply save_post_Ok in H as (Hc' & Ha' & _ & k & Hid & Hcase).
  split; [congruence|]. split; [congruence|].
  destruct Hcase as [(e & _ & Hp' & Hh')|(_ & (row & Hp' & _) & Hh')].
  - split.
    + rewrite Hp', Hp. unfold update_where. rewrite map_app.
      eexists _, _. split; [reflexivity|].
      apply Forall2_map_r_in; [done|]. intros old y _ Hy.
      destruct (sql_eq _ _); [by rewrite touch_post_fixed | done].
    + rewrite Hh', Hh, <- app_assoc. eexists. split; [reflexivity|].
      apply Forall_app. split; [done|].
      destruct (bool_decide _); repeat constructor; simpl; eauto.
  - split.
    + rewrite Hp', Hp, <- app_assoc. eauto.
    + rewrite Hh', Hh, <- app_assoc. eexists. split; [reflexivity|].
      apply Forall_app. split; [done|]. repeat constructor; simpl; eauto.
Qed.

Lemma save_comment_frame username comment s s' file :
  comments_ingested file (db s) ->
  save_comment' username comment s = Ok s' ->
  comments_ingested file (db s').
Proof.
  intros (Hc & Ha & (kept & new & Hp & Hk) & (entries & Hh & He)) H.
  apply save_comment_Ok in H as (Hc' & Ha' & _ & k & Hid & Hcase).
  split; [congruence|]. split; [congruence|].
  destruct Hcase as [(e & _ & Hp' & Hh')|(_ & (row & Hp' & _) & Hh')].
  - split.
    + rewrite Hp', Hp. unfold update_where. rewrite map_app.
      eexists _, _. split; [reflexivity|].
      apply Forall2_map_r_in; [done|]. intros old y _ Hy.
      destruct (sql_eq _ _); [by rewrite touch_comment_fixed | done].
    + rewrite Hh', Hh, <- app_assoc. eexists. split; [reflexivity|].
      apply Forall_app. split; [done|].
      destruct (bool_decide _); repeat constructor; simpl; eauto.
  - split.
    + rewrite Hp', Hp, <- app_assoc. eauto.
    + rewrite Hh', Hh, <- app_assoc. eexists. split; [reflexivity|].
      apply Forall_app. split; [done|]. repeat constructor; simpl; eauto.
Qed.

Lemma save_posts_frame username batch file :
  posts_ingested file (save_posts' username batch file).2.
Proof.
  unfold save_posts.
  destruct (for_each (save_post' username) batch (mk_session file 0)) as [s|e0] eqn:Hrun;
    simpl; [|apply posts_ingested_refl].
  refine (for_each_invariant (save_post' username)
            (fun s => posts_ingested file (db s)) _ batch (mk_session file 0) s
            (posts_ingested_refl file) Hrun).
  intros r s1 s2 HP Hstep. eapply save_post_frame; eauto.
Qed.

Lemma save_comments_frame username batch file :
  comments_ingested file (save_comments' username batch file).2.
Proof.
  unfold save_comments.
  destruct (for_each (save_comment' username) batch (mk_session file 0))
    as [s|e0] eqn:Hrun; simpl; [|apply comments_ingested_refl].
  refine (for_each_invariant (save_comment' username)
            (fun s => comments_ingested file (db s)) _ batch (mk_session file 0) s
            (comments_ingested_refl file) Hrun).
  intros r s1 s2 HP Hstep. eapply save_comment_frame; eauto.
Qed.

(** X10. Whatever the list and whether or not the call raises, [save_posts]
    leaves the comments and the account snapshots as they are; the posts it
    found come out first, in order, each with every column outside the
    UPDATE's list (first_seen and local_image_path among them) unchanged; and
    score_history only grows, by entries of type 'post' that have an item id
    and a timestamp.  [save_comments] does the same with posts and comments
    exchanged. *)
Theorem ingestion_touches_its_own_table username file :
  (forall batch, posts_ingested file (save_posts' username batch file).2)
  /\ (forall batch, comments_ingested file (save_comments' username batch file).2).
Proof.
  split; intros batch; [apply save_posts_frame | apply save_comments_frame].
Qed.
End IngestionBatches.

(** ** The constraints of the schema under ingestion *)

Lemma NoDup_keys_snoc {R} (key : R -> option string) (t : list R) row k :
  NoDup (map key t) -> key row = Some k ->
  fetchone (fun r => sql_eq (key r) (Some k)) t = None ->
  NoDup (map key (t ++ [row])).
Proof.
  intros Hnd Hk Hf. rewrite map_app. simpl. apply NoDup_app. split; [done|]. split.
  - intros x Hx Hx'. apply list_elem_of_singleton in Hx'. subst x.
    apply list_elem_of_fmap in Hx as (r & Hr & Hin).
    rewrite fetchone_None in Hf. specialize (Hf r Hin). simpl in Hf.
    rewrite <- Hr, Hk in Hf. simpl in Hf. by rewrite String.eqb_refl in Hf.
  - apply NoDup_singleton.
Qed.

Lemma forallb_update_where {R} (valid q : R -> bool) (f : R -> R) (t : list R) :
  (forall e, valid e = true -> valid (f e) = true) ->
  forallb valid t = true -> forallb valid (update_where q f t) = true.
Proof.
  intros Hf. rewrite !forallb_forall. intros Ht x Hx.
  unfold update_where in Hx. apply in_map_iff in Hx as (e & <- & He).
  destruct (q e); auto.
Qed.

Lemma forallb_snoc {R} (valid : R -> bool) (t : list R) row :
  forallb valid t = true -> valid row = true -> forallb valid (t ++ [row]) = true.
Proof. intros Ht Hr. rewrite forallb_app, Ht. simpl. by rewrite Hr. Qed.

Lemma forallb_app_if {R} (valid : R -> bool) (t u : list R) :
  forallb valid t = true -> forallb valid u = true -> forallb valid (t ++ u) = true.
Proof. intros Ht Hu. by rewrite forallb_app, Ht, Hu. Qed.

Lemma well_formed_tables d :
  well_formed d <->
  (forallb snapshot_valid (account_snapshots d) = true
   /\ forallb post_valid (posts d) = true
   /\ forallb comment_valid (comments d) = true
   /\ forallb entry_valid (score_history d) = true)
  /\ (forallb (fun r => negb (is_null (AccountSnapshots.timestamp r)))
        (account_snapshots d) = true
      /\ forallb (fun r => negb (is_null (ScoreHistory.timestamp r)))
           (score_history d) = true)
  /\ NoDup (map Posts.post_id (posts d))
  /\ NoDup (map Comments.comment_id (comments d)).
Proof.
  unfold well_formed, unique_ids, timestamps_recorded.
  rewrite not_null_ok_tables, andb_true_iff. tauto.
Qed.

Section IngestionConstraints.
Variable current_timestamp : nat -> string.
Variable isoformat : Z -> option string.
Variable fetch_image : string -> option string -> option string.

Local Abbreviation save_post' := (save_post current_timestamp isoformat fetch_image).
Local Abbreviation save_comment' := (save_comment current_timestamp isoformat).
Local Abbreviation save_posts' := (save_posts current_timestamp isoformat fetch_image).
Local Abbreviation save_comments' := (save_comments current_timestamp isoformat).

Lemma save_post_well_formed username post s s' :
  well_formed (db s) -> save_post' username post s = Ok s' -> well_formed (db s').
Proof.
  rewrite !well_formed_tables.
  intros ((V1 & V2 & V3 & V4) & (T1 & T4) & U2 & U3) H.
  apply save_post_Ok in H as (Hc & Ha & _ & k & Hid & Hcase).
  rewrite Hc, Ha.
  destruct Hcase as [(e & _ & -> & ->)|(Hf & (row & -> & Hk & Hu & _) & ->)].
  - repeat split; auto.
    + by apply forallb_update_where.
    + apply forallb_app_if; [done|]. by destruct (bool_decide _).
    + apply forallb_app_if; [done|]. by destruct (bool_decide _).
    + unfold update_where. rewrite map_map.
      erewrite map_ext; [exact U2|]. intros r. simpl. by destruct (sql_eq _ _).
  - repeat split; auto.
    + apply forallb_snoc; [done|]. unfold post_valid. by rewrite Hk, Hu.
    + by apply forallb_snoc.
    + by apply forallb_snoc.
    + by eapply NoDup_keys_snoc.
Qed.

Lemma save_comment_well_formed username comment s s' :
  well_formed (db s) -> save_comment' username comment s = Ok s' -> well_formed (db s').
Proof.
  rewrite !well_formed_tables.
  intros ((V1 & V2 & V3 & V4) & (T1 & T4) & U2 & U3) H.
  apply save_comment_Ok in H as (Hc & Ha & _ & k & Hid & Hcase).
  rewrite Hc, Ha.
  destruct Hcase as [(e & _ & -> & ->)|(Hf & (row & -> & Hk & Hu & _) & ->)].
  - repeat split; auto.
    + by apply forallb_update_where.
    + apply forallb_app_if; [done|]. by destruct (bool_decide _).
    + apply forallb_app_if; [done|]. by destruct (bool_decide _).
    + unfold update_where. rewrite map_map.
      erewrite map_ext; [exact U3|]. intros r. simpl. by destruct (sql_eq _ _).
  - repeat split; auto.
    + apply forallb_snoc; [done|]. unfold comment_valid. by rewrite Hk, Hu.
    + by apply forallb_snoc.
    + by apply forallb_snoc.
    + by eapply NoDup_keys_snoc.
Qed.

Lemma save_posts_well_formed username batch file :
  well_formed file -> well_formed (save_posts' username batch file).2.
Proof.
  intros Hwf. unfold save_posts.
  destruct (for_each (save_post' username) batch (mk_session file 0)) as [s|e] eqn:Hrun;
    simpl; [|done].
  refine (for_each_invariant (save_post' username) (fun s => well_formed (db s)) _
            batch (mk_session file 0) s Hwf Hrun).
  intros r s1 s2. apply save_post_well_formed.
Qed.

Lemma save_comments_well_formed username batch file :
  well_formed file -> well_formed (save_comments' username batch file).2.
Proof.
  intros Hwf. unfold save_comments.
  destruct (for_each (save_comment' username) batch (mk_session file 0)) as [s|e] eqn:Hrun;
    simpl; [|done].
  refine (for_each_invariant (save_comment' username) (fun s => well_formed (db s)) _
            batch (mk_session file 0) s Hwf Hrun).
  intros r s1 s2. apply save_comment_well_formed.
Qed.
End IngestionConstraints.

(** ** Ingesting the same items again *)

Lemma for_each_invariant_in {R S} (body : R -> S -> result S) (P : S -> Prop) rows :
  (forall r s s', r ∈ rows -> P s -> body r s = Ok s' -> P s') ->
  forall s s', P s -> for_each body rows s = Ok s' -> P s'.
Proof.
  induction rows as [|r rows IH]; intros Hstep s s' HP Hrun; cbn [for_each] in Hrun.
  - simpl in Hrun. congruence.
  - simpl in Hrun. destruct (body r s) as [s1|] eqn:Hb; [|discriminate].
    eapply IH; [|eapply Hstep; eauto; constructor|exact Hrun].
    intros r' a b Hr'. apply Hstep. by constructor.
Qed.

Lemma for_each_completes {R S} (body : R -> S -> result S) (P : S -> Prop) rows :
  (forall r s, r ∈ rows -> P s -> exists s', body r s = Ok s' /\ P s') ->
  forall s, P s -> exists s', for_each body rows s = Ok s' /\ P s'.
Proof.
  induction rows as [|r rows IH]; intros Hstep s HP; cbn [for_each].
  - exists s. by split.
  - destruct (Hstep r s) as (s1 & Hb & HP1); [constructor|done|].
    simpl. rewrite Hb. apply IH; [|done].
    intros r' a Hr'. apply Hstep. by constructor.
Qed.

Lemma for_each_Ok_each {R S} (body : R -> S -> result S) rows :
  forall s s', for_each body rows s = Ok s' ->
  forall r, r ∈ rows -> exists a b, body r a = Ok b.
Proof.
  induction rows as [|x rows IH]; intros s s' Hrun r Hr; [by apply elem_of_nil in Hr|].
  cbn [for_each] in Hrun. simpl in Hrun.
  destruct (body x s) as [s1|] eqn:Hb; [|discriminate].
  apply elem_of_cons in Hr as [->|Hr]; eauto.
Qed.

Lemma sql_eq_other a k k' : sql_eq a (Some k) = true -> k <> k' -> sql_eq a (Some k') = false.
Proof.
  intros H Hne. apply sql_eq_true in H as (x & -> & [= ->]). simpl.
  by apply String.eqb_neq.
Qed.

Section IngestingAgain.
Variable current_timestamp : nat -> string.
Variable isoformat : Z -> option string.
Variable fetch_image : string -> option string -> option string.

Local Abbreviation save_post' := (save_post current_timestamp isoformat fetch_image).
Local Abbreviation save_comment' := (save_comment current_timestamp isoformat).

(** An iteration stores its item. *)
Lemma save_post_stores username post s s' :
  is_present (Post.score post) = true ->
  save_post' username post s = Ok s' ->
  post_stored_as post (posts (db s')).
Proof.
  intros Hsc H. apply save_post_Ok in H as (_ & _ & _ & k & Hid & Hcase).
  unfold post_stored_as. rewrite Hid.
  destruct Hcase as [(e & Hf & -> & _)|(Hf & (row & -> & Hk & _ & H1 & H2 & H3) & _)].
  - apply fetchone_Some in Hf as [He Hek]. split.
    + exists (touch_post (get_or 0 (Post.score post)) post
                (current_timestamp (S (statements s))) e).
      split; [|done]. unfold update_where. apply list_elem_of_fmap.
      exists e. by rewrite Hek.
    + intros row Hrow Hrk. unfold update_where in Hrow.
      apply list_elem_of_fmap in Hrow as (r & -> & Hr).
      destruct (sql_eq (Posts.post_id r) (Some k)) eqn:Hrk'; [done|].
      simpl in Hrk. congruence.
  - split.
    + exists row. split; [apply elem_of_app; right; constructor|].
      rewrite Hk. simpl. apply String.eqb_refl.
    + intros r Hr Hrk. apply elem_of_app in Hr as [Hr|Hr].
      * rewrite fetchone_None in Hf. specialize (Hf r Hr). simpl in Hf. congruence.
      * apply list_elem_of_singleton in Hr as ->.
        unfold post_observed, post_reading. rewrite H1, H2, H3.
        by destruct (Post.score post).
Qed.

(** An iteration on another id leaves a stored item stored. *)
Lemma save_post_keeps_stored username post other s s' :
  get (Post.id other) <> get (Post.id post) ->
  post_stored_as other (posts (db s)) ->
  save_post' username post s = Ok s' ->
  post_stored_as other (posts (db s')).
Proof.
  intros Hne [(r0 & Hr0 & Hk0) Hall] H.
  apply save_post_Ok in H as (_ & _ & _ & k & Hid & Hcase). rewrite Hid in Hne.
  assert (forall r, sql_eq (Posts.post_id r) (get (Post.id other)) = true ->
                    sql_eq (Posts.post_id r) (Some k) = false) as Hoff.
  { intros r Hr. apply sql_eq_true in Hr as (x & Hx & Hx'). rewrite Hx. simpl.
    apply String.eqb_neq. congruence. }
  destruct Hcase as [(e & Hf & -> & _)|(Hf & (row & -> & Hk & _) & _)].
  - split.
    + exists r0. split; [|done]. unfold update_where. apply list_elem_of_fmap.
      exists r0. by rewrite (Hoff r0 Hk0).
    + intros row Hrow Hrk. unfold update_where in Hrow.
      apply list_elem_of_fmap in Hrow as (r & -> & Hr).
      destruct (sql_eq (Posts.post_id r) (Some k)) eqn:Hrk'.
      * simpl in Hrk. rewrite (Hoff r Hrk) in Hrk'. discriminate.
      * auto.
  - split.
    + exists r0. split; [apply elem_of_app; by left | done].
    + intros r Hr Hrk. apply elem_of_app in Hr as [Hr|Hr]; [auto|].
      apply list_elem_of_singleton in Hr as ->.
      apply Hoff in Hrk. rewrite Hk in Hrk. simpl in Hrk.
      by rewrite String.eqb_refl in Hrk.
Qed.

(** After a completed loop over items with distinct ids, every item is
    stored with the values of its payload. *)
Lemma save_posts_stores username batch :
  NoDup (map (fun p => get (Post.id p)) batch) ->
  forallb (fun p => is_present (Post.score p)) batch = true ->
  forall s s', for_each (save_post' username) batch s = Ok s' ->
  forall p, p ∈ batch -> post_stored_as p (posts (db s')).
Proof.
  induction batch as [|x batch IH]; intros Hnd Hsc s s' Hrun p Hp;
    [by apply elem_of_nil in Hp|].
  simpl in Hnd. apply NoDup_cons in Hnd as [Hx Hnd].
  simpl in Hsc. apply andb_true_iff in Hsc as [Hscx Hsc].
  cbn [for_each] in Hrun. simpl in Hrun.
  destruct (save_post' username x s) as [s1|] eqn:Hb; [|discriminate].
  apply elem_of_cons in Hp as [->|Hp]; [|by eapply IH].
  refine (for_each_invariant_in (save_post' username)
            (fun s => post_stored_as x (posts (db s))) batch _ s1 s' _ Hrun).
  - intros r a b Hr. apply save_post_keeps_stored.
    intros Heq. apply Hx. rewrite Heq.
    by apply (list_elem_of_fmap_2 (fun p => get (Post.id p))).
  - by eapply save_post_stores.
Qed.

Lemma posts_unchanged_refl t : posts_unchanged t t.
Proof. unfold posts_unchanged. induction t; constructor; auto. Qed.

Lemma posts_unchanged_trans t1 t2 t3 :
  posts_unchanged t1 t2 -> posts_unchanged t2 t3 -> posts_unchanged t1 t3.
Proof.
  unfold posts_unchanged. intros H. revert t3.
  induction H as [|a b t1 t2 [Hf Ho] H IH]; intros t3 H3; inversion H3; subst;
    constructor; [|by apply IH].
  destruct H2 as [Hf' Ho']. split; congruence.
Qed.

Lemma posts_unchanged_stored p t t' :
  posts_unchanged t t' -> post_stored_as p t -> post_stored_as p t'.
Proof.
  unfold posts_unchanged, post_stored_as.
  induction 1 as [|a b t t' [Hf Ho] H IH]; [done|].
  assert (Posts.post_id b = Posts.post_id a) as Hid by (by injection Hf).
  intros [(r & Hr & Hk) Hall]. split.
  - apply elem_of_cons in Hr as [->|Hr].
    + exists b. split; [constructor | by rewrite Hid].
    + destruct (decide (sql_eq (Posts.post_id a) (get (Post.id p)) = true)) as [Ha|Ha].
      * exists b. split; [constructor | by rewrite Hid].
      * destruct IH as [(r' & Hr' & Hk') _].
        { split; [eauto|]. intros row Hrow. apply Hall. by constructor. }
        exists r'. split; [by constructor | done].
  - intros row Hrow Hk'. apply elem_of_cons in Hrow as [->|Hrow].
    + rewrite Ho. apply Hall; [constructor | by rewrite <- Hid].
    + clear IH. revert row Hrow Hk'.
      assert (forall row, row ∈ t -> sql_eq (Posts.post_id row) (get (Post.id p)) = true ->
                          post_observed row = post_reading p) as Hall'.
      { intros row Hrow. apply Hall. by constructor. }
      clear Hall Hr. induction H as [|x y t t' [Hf' Ho'] H IH]; intros row Hrow Hk';
        [by apply elem_of_nil in Hrow|].
      assert (Posts.post_id y = Posts.post_id x) as Hid' by (by injection Hf').
      apply elem_of_cons in Hrow as [->|Hrow].
      * rewrite Ho'. apply Hall'; [constructor | by rewrite <- Hid'].
      * apply IH; auto. intros r0 Hr0. apply Hall'. by constructor.
Qed.

(** An iteration on an item that is stored with the values of its payload
    writes last_updated and nothing else. *)
Lemma save_post_again username post s :
  is_ok (fromtimestamp_isoformat isoformat (get_or 0 (Post.created_utc post))) = true ->
  post_stored_as post (posts (db s)) ->
  exists s', save_post' username post s = Ok s'
             /\ account_snapshots (db s') = account_snapshots (db s)
             /\ comments (db s') = comments (db s)
             /\ score_history (db s') = score_history (db s)
             /\ posts_unchanged (posts (db s)) (posts (db s')).
Proof.
  intros Hc [(r & Hr & Hk) Hall]. unfold save_post.
  destruct (fromtimestamp_isoformat isoformat _) as [created|]; [|discriminate].
  simpl.
  destruct (fetchone_found (fun e => sql_eq (Posts.post_id e) (get (Post.id post)))
              _ _ Hr Hk) as (e & Hf).
  rewrite Hf.
  apply fetchone_Some in Hf as [He Hek].
  pose proof (Hall e He Hek) as Hobs.
  assert (Posts.score e = get_or 0 (Post.score post)) as Hsc by (by injection Hobs).
  unfold execute. simpl. rewrite bool_decide_eq_true_2 by done.
  eexists. split; [reflexivity|]. simpl. repeat split.
  apply update_where_Forall2. intros x Hx.
  destruct (sql_eq (Posts.post_id x) (get (Post.id post))) eqn:Hxk; [|done].
  split; [done|]. by rewrite (Hall x Hx Hxk).
Qed.

Lemma save_comment_stores username comment s s' :
  is_present (Comment.score comment) = true ->
  save_comment' username comment s = Ok s' ->
  comment_stored_as comment (comments (db s')).
Proof.
  intros Hsc H. apply save_comment_Ok in H as (_ & _ & _ & k & Hid & Hcase).
  unfold comment_stored_as. rewrite Hid.
  destruct Hcase as [(e & Hf & -> & _)|(Hf & (row & -> & Hk & _ & H1) & _)].
  - apply fetchone_Some in Hf as [He Hek]. split.
    + exists (touch_comment (get_or 0 (Comment.score comment))
                (current_timestamp (S (statements s))) e).
      split; [|done]. unfold update_where. apply list_elem_of_fmap.
      exists e. by rewrite Hek.
    + intros row Hrow Hrk. unfold update_where in Hrow.
      apply list_elem_of_fmap in Hrow as (r & -> & Hr).
      destruct (sql_eq (Comments.comment_id r) (Some k)) eqn:Hrk'; [done|].
      simpl in Hrk. congruence.
  - split.
    + exists row. split; [apply elem_of_app; right; constructor|].
      rewrite Hk. simpl. apply String.eqb_refl.
    + intros r Hr Hrk. apply elem_of_app in Hr as [Hr|Hr].
      * rewrite fetchone_None in Hf. specialize (Hf r Hr). simpl in Hf. congruence.
      * apply list_elem_of_singleton in Hr as ->.
        unfold comment_reading. rewrite H1.
        by destruct (Comment.score comment).
Qed.

Lemma save_comment_keeps_stored username comment other s s' :
  get (Comment.id other) <> get (Comment.id comment) ->
  comment_stored_as other (comments (db s)) ->
  save_comment' username comment s = Ok s' ->
  comment_stored_as other (comments (db s')).
Proof.
  intros Hne [(r0 & Hr0 & Hk0) Hall] H.
  apply save_comment_Ok in H as (_ & _ & _ & k & Hid & Hcase). rewrite Hid in Hne.
  assert (forall r, sql_eq (Comments.comment_id r) (get (Comment.id other)) = true ->
                    sql_eq (Comments.comment_id r) (Some k) = false) as Hoff.
  { intros r Hr. apply sql_eq_true in Hr as (x & Hx & Hx'). rewrite Hx. simpl.
    apply String.eqb_neq. congruence. }
  destruct Hcase as [(e & Hf & -> & _)|(Hf & (row & -> & Hk & _) & _)].
  - split.
    + exists r0. split; [|done]. unfold update_where. apply list_elem_of_fmap.
      exists r0. by rewrite (Hoff r0 Hk0).
    + intros row Hrow Hrk. unfold update_where in Hrow.
      apply list_elem_of_fmap in Hrow as (r & -> & Hr).
      destruct (sql_eq (Comments.comment_id r) (Some k)) eqn:Hrk'.
      * simpl in Hrk. rewrite (Hoff r Hrk) in Hrk'. discriminate.
      * auto.
  - split.
    + exists r0. split; [apply elem_of_app; by left | done].
    + intros r Hr Hrk. apply elem_of_app in Hr as [Hr|Hr]; [auto|].
      apply list_elem_of_singleton in Hr as ->.
      apply Hoff in Hrk. rewrite Hk in Hrk. simpl in Hrk.
      by rewrite String.eqb_refl in Hrk.
Qed.

Lemma save_comments_stores username batch :
  NoDup (map (fun c => get (Comment.id c)) batch) ->
  forallb (fun c => is_present (Comment.score c)) batch = true ->
  forall s s', for_each (save_comment' username) batch s = Ok s' ->
  forall c, c ∈ batch -> comment_stored_as c (comments (db s')).
Proof.
  induction batch as [|x batch IH]; intros Hnd Hsc s s' Hrun c Hc;
    [by apply elem_of_nil in Hc|].
  simpl in Hnd. apply NoDup_cons in Hnd as [Hx Hnd].
  simpl in Hsc. apply andb_true_iff in Hsc as [Hscx Hsc].
  cbn [for_each] in Hrun. simpl in Hrun.
  destruct (save_comment' username x s) as [s1|] eqn:Hb; [|discriminate].
  apply elem_of_cons in Hc as [->|Hc]; [|by eapply IH].
  refine (for_each_invariant_in (save_comment' username)
            (fun s => comment_stored_as x (comments (db s))) batch _ s1 s' _ Hrun).
  - intros r a b Hr. apply save_comment_keeps_stored.
    intros Heq. apply Hx. rewrite Heq.
    by apply (list_elem_of_fmap_2 (fun c => get (Comment.id c))).
  - by eapply save_comment_stores.
Qed.

Lemma comments_unchanged_refl t : comments_unchanged t t.
Proof. unfold comments_unchanged. induction t; constructor; auto. Qed.

Lemma comments_unchanged_trans t1 t2 t3 :
  comments_unchanged t1 t2 -> comments_unchanged t2 t3 -> comments_unchanged t1 t3.
Proof.
  unfold comments_unchanged. intros H. revert t3.
  induction H as [|a b t1 t2 [Hf Ho] H IH]; intros t3 H3; inversion H3; subst;
    constructor; [|by apply IH].
  destruct H2 as [Hf' Ho']. split; congruence.
Qed.

Lemma comments_unchanged_stored c t t' :
  comments_unchanged t t' -> comment_stored_as c t -> comment_stored_as c t'.
Proof.
  unfold comments_unchanged, comment_stored_as.
  induction 1 as [|a b t t' [Hf Ho] H IH]; [done|].
  assert (Comments.comment_id b = Comments.comment_id a) as Hid by (by injection Hf).
  intros [(r & Hr & Hk) Hall]. split.
  - apply elem_of_cons in Hr as [->|Hr].
    + exists b. split; [constructor | by rewrite Hid].
    + destruct (decide (sql_eq (Comments.comment_id a) (get (Comment.id c)) = true))
        as [Ha|Ha].
      * exists b. split; [constructor | by rewrite Hid].
      * destruct IH as [(r' & Hr' & Hk') _].
        { split; [eauto|]. intros row Hrow. apply Hall. by constructor. }
        exists r'. split; [by constructor | done].
  - intros row Hrow Hk'. apply elem_of_cons in Hrow as [->|Hrow].
    + rewrite Ho. apply Hall; [constructor | by rewrite <- Hid].
    + clear IH. revert row Hrow Hk'.
      assert (forall row, row ∈ t ->
                sql_eq (Comments.comment_id row) (get (Comment.id c)) = true ->
                Comments.score row = comment_reading c) as Hall'.
      { intros row Hrow. apply Hall. by constructor. }
      clear Hall Hr. induction H as [|x y t t' [Hf' Ho'] H IH]; intros row Hrow Hk';
        [by apply elem_of_nil in Hrow|].
      assert (Comments.comment_id y = Comments.comment_id x) as Hid' by (by injection Hf').
      apply elem_of_cons in Hrow as [->|Hrow].
      * rewrite Ho'. apply Hall'; [constructor | by rewrite <- Hid'].
      * apply IH; auto. intros r0 Hr0. apply Hall'. by constructor.
Qed.

Lemma save_comment_again username comment s :
  is_ok (fromtimestamp_isoformat isoformat (get_or 0 (Comment.created_utc comment)))
  = true ->
  comment_stored_as comment (comments (db s)) ->
  exists s', save_comment' username comment s = Ok s'
             /\ account_snapshots (db s') = account_snapshots (db s)
             /\ posts (db s') = posts (db s)
             /\ score_history (db s') = score_history (db s)
             /\ comments_unchanged (comments (db s)) (comments (db s')).
Proof.
  intros Hc [(r & Hr & Hk) Hall]. unfold save_comment.
  destruct (fromtimestamp_isoformat isoformat _) as [created|]; [|discriminate].
  simpl.
  destruct (fetchone_found
              (fun e => sql_eq (Comments.comment_id e) (get (Comment.id comment)))
              _ _ Hr Hk) as (e & Hf).
  rewrite Hf.
  apply fetchone_Some in Hf as [He Hek].
  pose proof (Hall e He Hek) as Hsc.
  unfold execute. simpl. rewrite bool_decide_eq_true_2 by done.
  eexists. split; [reflexivity|]. simpl. repeat split.
  apply update_where_Forall2. intros x Hx.
  destruct (sql_eq (Comments.comment_id x) (get (Comment.id comment))) eqn:Hxk; [|done].
  split; [done|]. simpl. by rewrite (Hall x Hx Hxk).
Qed.
End IngestingAgain.

(** X11. After a call of [save_posts] that completes on posts with distinct
    ids that all have a score key, a lookup by the id of any of them finds a
    row whose score, upvote_ratio and num_comments are the ones of its
    payload, whether the row was inserted or updated.  The same holds for
    [save_comments] and the score. *)
Theorem items_are_stored_as_fetched current_timestamp isoformat fetch_image username :
  (forall batch file file',
     NoDup (map (fun p => get (Post.id p)) batch) ->
     forallb (fun p => is_present (Post.score p)) batch = true ->
     save_posts current_timestamp isoformat fetch_image username batch file
     = (None, file') ->
     forall p, p ∈ batch ->
       exists row,
         fetchone (fun r => sql_eq (Posts.post_id r) (get (Post.id p))) (posts file')
         = Some row
         /\ post_observed row = post_reading p)
  /\ (forall batch file file',
        NoDup (map (fun c => get (Comment.id c)) batch) ->
        forallb (fun c => is_present (Comment.score c)) batch = true ->
        save_comments current_timestamp isoformat username batch file = (None, file') ->
        forall c, c ∈ batch ->
          exists row,
            fetchone (fun r => sql_eq (Comments.comment_id r) (get (Comment.id c)))
              (comments file')
            = Some row
            /\ Comments.score row = comment_reading c).
Proof.
  split; intros batch file file' Hnd Hsc H x Hx.
  - unfold save_posts in H.
    destruct (for_each _ batch (mk_session file 0)) as [s|] eqn:Hrun; [|discriminate].
    injection H as <-.
    destruct (save_posts_stores _ _ _ username batch Hnd Hsc _ _ Hrun x Hx)
      as [(r & Hr & Hk) Hall].
    destruct (fetchone_found
                (fun r => sql_eq (Posts.post_id r) (get (Post.id x))) _ _ Hr Hk)
      as (e & Hf).
    exists e. split; [done|]. apply fetchone_Some in Hf as [He Hek]. auto.
  - unfold save_comments in H.
    destruct (for_each _ batch (mk_session file 0)) as [s|] eqn:Hrun; [|discriminate].
    injection H as <-.
    destruct (save_comments_stores _ _ username batch Hnd Hsc _ _ Hrun x Hx)
      as [(r & Hr & Hk) Hall].
    destruct (fetchone_found
                (fun r => sql_eq (Comments.comment_id r) (get (Comment.id x))) _ _ Hr Hk)
      as (e & Hf).
    exists e. split; [done|]. apply fetchone_Some in Hf as [He Hek]. auto.
Qed.

(** X12. When a call of [save_posts] has completed on posts with distinct ids
    that all have a score key, a second call with the same posts, at any later
    time and whatever the image downloads do, completes, adds no row to any
    table, logs no score, and changes no column but last_updated.  The same
    holds for [save_comments]. *)
Theorem ingesting_again_changes_nothing
    current_timestamp later_timestamp isoformat fetch_image later_fetch_image username :
  (forall batch file file',
     NoDup (map (fun p => get (Post.id p)) batch) ->
     forallb (fun p => is_present (Post.score p)) batch = true ->
     save_posts current_timestamp isoformat fetch_image username batch file
     = (None, file') ->
     exists file'',
       save_posts later_timestamp isoformat later_fetch_image username batch file'
       = (None, file'')
       /\ account_snapshots file'' = account_snapshots file'
       /\ comments file'' = comments file'
       /\ score_history file'' = score_history file'
       /\ posts_unchanged (posts file') (posts file''))
  /\ (forall batch file file',
        NoDup (map (fun c => get (Comment.id c)) batch) ->
        forallb (fun c => is_present (Comment.score c)) batch = true ->
        save_comments current_timestamp isoformat username batch file = (None, file') ->
        exists file'',
          save_comments later_timestamp isoformat username batch file' = (None, file'')
          /\ account_snapshots file'' = account_snapshots file'
          /\ posts file'' = posts file'
          /\ score_history file'' = score_history file'
          /\ comments_unchanged (comments file') (comments file'')).
Proof.
  split; intros batch file file' Hnd Hsc H.
  - unfold save_posts in H.
    destruct (for_each _ batch (mk_session file 0)) as [s|] eqn:Hrun; [|discriminate].
    injection H as <-.
    pose proof (save_posts_stores _ _ _ username batch Hnd Hsc _ _ Hrun) as Hst.
    assert (forall p, p ∈ batch ->
              is_ok (fromtimestamp_isoformat isoformat (get_or 0 (Post.created_utc p)))
              = true) as Hok.
    { intros p Hp. destruct (for_each_Ok_each _ _ _ _ Hrun p Hp) as (a & b & Hab).
      apply save_post_Ok in Hab as (_ & _ & (c & ->) & _). done. }
    destruct (for_each_completes
                (save_post later_timestamp isoformat later_fetch_image username)
                (fun s' => (forall p, p ∈ batch -> post_stored_as p (posts (db s')))
                           /\ account_snapshots (db s') = account_snapshots (db s)
                           /\ comments (db s') = comments (db s)
                           /\ score_history (db s') = score_history (db s)
                           /\ posts_unchanged (posts (db s)) (posts (db s')))
                batch) with (s := mk_session (db s) 0) as (s2 & Hrun2 & _ & HP).
    + intros p a Hp (Ha1 & Ha2 & Ha3 & Ha4 & Ha5).
      destruct (save_post_again later_timestamp isoformat later_fetch_image username
                  p a (Hok p Hp) (Ha1 p Hp)) as (b & Hb & Hb2 & Hb3 & Hb4 & Hb5).
      exists b. split; [done|]. split; [|split; [|split; [|split]]]; try congruence.
      * intros q Hq. eapply posts_unchanged_stored; eauto.
      * eapply posts_unchanged_trans; eauto.
    + simpl. split; [done|]. repeat split. apply posts_unchanged_refl.
    + exists (db s2). unfold save_posts. by rewrite Hrun2.
  - unfold save_comments in H.
    destruct (for_each _ batch (mk_session file 0)) as [s|] eqn:Hrun; [|discriminate].
    injection H as <-.
    pose proof (save_comments_stores _ _ username batch Hnd Hsc _ _ Hrun) as Hst.
    assert (forall c, c ∈ batch ->
              is_ok (fromtimestamp_isoformat isoformat (get_or 0 (Comment.created_utc c)))
              = true) as Hok.
    { intros c Hc. destruct (for_each_Ok_each _ _ _ _ Hrun c Hc) as (a & b & Hab).
      apply save_comment_Ok in Hab as (_ & _ & (x & ->) & _). done. }
    destruct (for_each_completes
                (save_comment later_timestamp isoformat username)
                (fun s' => (forall c, c ∈ batch -> comment_stored_as c (comments (db s')))
                           /\ account_snapshots (db s') = account_snapshots (db s)
                           /\ posts (db s') = posts (db s)
                           /\ score_history (db s') = score_history (db s)
                           /\ comments_unchanged (comments (db s)) (comments (db s')))
                batch) with (s := mk_session (db s) 0) as (s2 & Hrun2 & _ & HP).
    + intros c a Hc (Ha1 & Ha2 & Ha3 & Ha4 & Ha5).
      destruct (save_comment_again later_timestamp isoformat username
                  c a (Hok c Hc) (Ha1 c Hc)) as (b & Hb & Hb2 & Hb3 & Hb4 & Hb5).
      exists b. split; [done|]. split; [|split; [|split; [|split]]]; try congruence.
      * intros q Hq. eapply comments_unchanged_stored; eauto.
      * eapply comments_unchanged_trans; eauto.
    + simpl. split; [done|]. repeat split. apply comments_unchanged_refl.
    + exists (db s2). unfold save_comments. by rewrite Hrun2.
Qed.

(** * The monitoring cycle *)

Section MonitoringFacts.
Variable clock : nat -> nat -> string.
Variable isoformat : Z -> option string.
Variable fetch_image : string -> option string -> option string.
Variable json_dumps : About.payload -> string.

Local Abbreviation save_account_snapshot' :=
  (save_account_snapshot clock isoformat json_dumps).
Local Abbreviation monitor_user' :=
  (monitor_user clock isoformat fetch_image json_dumps).

Lemma save_account_snapshot_cases k username data file :
  save_account_snapshot' k username data file =
  match account_created isoformat data with
  | Ok created =>
      (None, with_account_snapshots file
               (account_snapshots file
                ++ [snapshot_row json_dumps username (clock k 0) created data]))
  | Raise e => (Some e, file)
  end.
Proof.
  unfold save_account_snapshot.
  destruct (account_created isoformat data) as [created|e]; reflexivity.
Qed.

(** What is left of the cycle once the snapshot is committed keeps the
    account snapshots. *)
Lemma monitor_user_inv username w file e file' :
  monitor_user' username w file = (e, file') ->
  (file' = file
   /\ forall data created,
        about w = Returned (Some data) -> about_truthy data = true ->
        account_created isoformat data = Ok created -> False)
  \/ (exists data created,
        about w = Returned (Some data) /\ about_truthy data = true
        /\ account_created isoformat data = Ok created
        /\ account_snapshots file' =
           account_snapshots file
           ++ [snapshot_row json_dumps username (clock 0 0) created data]).
Proof.
  unfold monitor_user. destruct (about w) as [[data|]|] eqn:Ha.
  - destruct (about_truthy data) eqn:Ht.
    + rewrite save_account_snapshot_cases.
      destruct (account_created isoformat data) as [created|x] eqn:Hc.
      * intros H. right. exists data, created. repeat split; auto.
        destruct (negb (karma_printable data)); [by injection H as _ <-|].
        destruct (submitted w) as [batch|]; [|by injection H as _ <-].
        pose proof (save_posts_frame (clock 1) isoformat fetch_image username batch
                      (with_account_snapshots file
                         (account_snapshots file
                          ++ [snapshot_row json_dumps username (clock 0 0) created data])))
          as Hp.
        destruct (nonempty batch).
        -- destruct (save_posts _ _ _ _ _ _) as [[x|] file2] eqn:Hs; simpl in Hp;
             destruct Hp as (_ & Hp & _); [by injection H as _ <-|].
           destruct (commented w) as [cs|]; [|by injection H as _ <-].
           pose proof (save_comments_frame (clock 2) isoformat username cs file2) as Hq.
           destruct (nonempty cs); [|by injection H as _ <-].
           unfold store_outcome in H. injection H as _ <-.
           destruct Hq as (_ & Hq & _). by rewrite Hq, Hp.
        -- destruct (commented w) as [cs|]; [|by injection H as _ <-].
           pose proof (save_comments_frame (clock 2) isoformat username cs
                         (with_account_snapshots file
                            (account_snapshots file
                             ++ [snapshot_row json_dumps username (clock 0 0) created
                                   data]))) as Hq.
           destruct (nonempty cs); [|by injection H as _ <-].
           unfold store_outcome in H. injection H as _ <-.
           destruct Hq as (_ & Hq & _). by rewrite Hq.
      * intros [= _ <-]. left. split; [done|]. intros d c [= <-] _ Hc'. congruence.
    + intros [= _ <-]. left. split; [done|]. intros d c [= <-] Ht'. congruence.
  - intros [= _ <-]. left. split; [done|]. intros d c [=].
  - intros [= _ <-]. left. split; [done|]. intros d c [=].
Qed.

(** X14. Each save of a cycle commits on its own.  Once the profile has been
    fetched and its creation date converts, the snapshot row is in the file
    after the cycle, whether or not a later fetch or save raised; and a cycle
    that has stored no snapshot has written nothing at all. *)
Theorem monitoring_cycle_commits_in_steps username w file e file' :
  monitor_user' username w file = (e, file') ->
  (forall data created,
     about w = Returned (Some data) -> about_truthy data = true ->
     account_created isoformat data = Ok created ->
     account_snapshots file' =
     account_snapshots file
     ++ [snapshot_row json_dumps username (clock 0 0) created data])
  /\ (account_snapshots file' = account_snapshots file -> file' = file).
Proof.
  intros H. apply monitor_user_inv in H as [[-> Hno]|(d & c & Ha & Ht & Hc & Hs)].
  - split; [|done]. intros data created Ha Ht Hc. destruct (Hno _ _ Ha Ht Hc).
  - split.
    + intros data created Ha' Ht' Hc'. congruence.
    + intros Heq. rewrite Heq in Hs. apply (f_equal length) in Hs.
      rewrite length_app in Hs. simpl in Hs. lia.
Qed.

(** The ids stored stay stored through an iteration. *)
Lemma save_post_keeps_ids ct username post s s' k :
  save_post ct isoformat fetch_image username post s = Ok s' ->
  k ∈ map Posts.post_id (posts (db s)) -> k ∈ map Posts.post_id (posts (db s')).
Proof.
  intros H Hk. apply save_post_Ok in H as (_ & _ & _ & i & _ & Hcase).
  destruct Hcase as [(e & _ & -> & _)|(_ & (row & -> & _) & _)].
  - unfold update_where. rewrite map_map.
    erewrite map_ext; [exact Hk|]. intros r. simpl. by destruct (sql_eq _ _).
  - rewrite map_app. apply elem_of_app. by left.
Qed.

Lemma save_post_adds_id ct username post s s' :
  save_post ct isoformat fetch_image username post s = Ok s' ->
  is_Some (get (Post.id post))
  /\ get (Post.id post) ∈ map Posts.post_id (posts (db s')).
Proof.
  intros H. apply save_post_Ok in H as (_ & _ & _ & i & -> & Hcase).
  split; [eauto|].
  destruct Hcase as [(e & Hf & -> & _)|(_ & (row & -> & <- & _) & _)].
  - apply fetchone_Some in Hf as [He Hk]. apply sql_eq_true in Hk as (x & Hx & [= ->]).
    unfold update_where. rewrite map_map.
    erewrite map_ext with (g := Posts.post_id);
      [rewrite <- Hx; by apply list_elem_of_fmap_2|].
    intros r. simpl. by destruct (sql_eq _ _).
  - rewrite map_app. apply elem_of_app. right. simpl. constructor.
Qed.

Lemma save_posts_ids ct username batch :
  forall s s', for_each (save_post ct isoformat fetch_image username) batch s = Ok s' ->
  forall p, p ∈ batch ->
    is_Some (get (Post.id p))
    /\ get (Post.id p) ∈ map Posts.post_id (posts (db s')).
Proof.
  induction batch as [|x batch IH]; intros s s' Hrun p Hp; [by apply elem_of_nil in Hp|].
  cbn [for_each] in Hrun. simpl in Hrun.
  destruct (save_post ct isoformat fetch_image username x s) as [s1|] eqn:Hb;
    [|discriminate].
  apply elem_of_cons in Hp as [->|Hp]; [|by eapply IH].
  destruct (save_post_adds_id _ _ _ _ _ Hb) as [Hid Hin]. split; [done|].
  refine (for_each_invariant _
            (fun s => get (Post.id x) ∈ map Posts.post_id (posts (db s)))
            _ batch s1 s' Hin Hrun).
  intros r a b Ha Hab. by eapply save_post_keeps_ids.
Qed.

Lemma save_comment_keeps_ids ct username comment s s' k :
  save_comment ct isoformat username comment s = Ok s' ->
  k ∈ map Comments.comment_id (comments (db s)) ->
  k ∈ map Comments.comment_id (comments (db s')).
Proof.
  intros H Hk. apply save_comment_Ok in H as (_ & _ & _ & i & _ & Hcase).
  destruct Hcase as [(e & _ & -> & _)|(_ & (row & -> & _) & _)].
  - unfold update_where. rewrite map_map.
    erewrite map_ext; [exact Hk|]. intros r. simpl. by destruct (sql_eq _ _).
  - rewrite map_app. apply elem_of_app. by left.
Qed.

Lemma save_comment_adds_id ct username comment s s' :
  save_comment ct isoformat username comment s = Ok s' ->
  is_Some (get (Comment.id comment))
  /\ get (Comment.id comment) ∈ map Comments.comment_id (comments (db s')).
Proof.
  intros H. apply save_comment_Ok in H as (_ & _ & _ & i & -> & Hcase).
  split; [eauto|].
  destruct Hcase as [(e & Hf & -> & _)|(_ & (row & -> & <- & _) & _)].
  - apply fetchone_Some in Hf as [He Hk]. apply sql_eq_true in Hk as (x & Hx & [= ->]).
    unfold update_where. rewrite map_map.
    erewrite map_ext with (g := Comments.comment_id);
      [rewrite <- Hx; by apply list_elem_of_fmap_2|].
    intros r. simpl. by destruct (sql_eq _ _).
  - rewrite map_app. apply elem_of_app. right. simpl. constructor.
Qed.

Lemma save_comments_ids ct username batch :
  forall s s', for_each (save_comment ct isoformat username) batch s = Ok s' ->
  forall c, c ∈ batch ->
    is_Some (get (Comment.id c))
    /\ get (Comment.id c) ∈ map Comments.comment_id (comments (db s')).
Proof.
  induction batch as [|x batch IH]; intros s s' Hrun c Hc; [by apply elem_of_nil in Hc|].
  cbn [for_each] in Hrun. simpl in Hrun.
  destruct (save_comment ct isoformat username x s) as [s1|] eqn:Hb; [|discriminate].
  apply elem_of_cons in Hc as [->|Hc]; [|by eapply IH].
  destruct (save_comment_adds_id _ _ _ _ _ Hb) as [Hid Hin]. split; [done|].
  refine (for_each_invariant _
            (fun s => get (Comment.id x) ∈ map Comments.comment_id (comments (db s)))
            _ batch s1 s' Hin Hrun).
  intros r a b Ha Hab. by eapply save_comment_keeps_ids.
Qed.

(** X15. A cycle that returns normally after a usable profile has stored
    every post and every comment the fetch functions returned: each has an id,
    and the file holds a row under that id. *)
Theorem completed_cycle_stores_every_item username w file file' data :
  monitor_user' username w file = (None, file') ->
  about w = Returned (Some data) -> about_truthy data = true ->
  exists batch replies,
    submitted w = Returned batch /\ commented w = Returned replies
    /\ (forall p, p ∈ batch ->
          is_Some (get (Post.id p))
          /\ get (Post.id p) ∈ map Posts.post_id (posts file'))
    /\ (forall c, c ∈ replies ->
          is_Some (get (Comment.id c))
          /\ get (Comment.id c) ∈ map Comments.comment_id (comments file')).
Proof.
  intros H Ha Ht. unfold monitor_user in H. rewrite Ha, Ht in H.
  destruct (save_account_snapshot' 0 username data file) as [[x|] file1]; [discriminate|].
  destruct (negb (karma_printable data)); [discriminate|].
  destruct (submitted w) as [batch|]; [|discriminate].
  destruct (commented w) as [replies|] eqn:Hcm.
  2:{ by destruct (if nonempty batch then _ else _) as [[?|] ?]. }
  exists batch, replies. split; [done|]. split; [done|].
  assert (exists file2,
            (forall p, p ∈ batch ->
               is_Some (get (Post.id p))
               /\ get (Post.id p) ∈ map Posts.post_id (posts file2))
            /\ (if nonempty replies
                then store_outcome
                       (save_comments (clock 2) isoformat username replies file2)
                else (None, file2)) = (None, file')) as (file2 & Hp & H2).
  { destruct batch as [|p0 batch]; simpl in H.
    - exists file1. split; [|done]. intros p Hp. by apply elem_of_nil in Hp.
    - cbn [nonempty] in H.
      destruct (save_posts (clock 1) isoformat fetch_image username (p0 :: batch) file1)
        as [[x|] file2] eqn:Hs; [discriminate|].
      exists file2. split; [|done]. unfold save_posts in Hs.
      destruct (for_each _ (p0 :: batch) _) as [s|] eqn:Hrun; [|discriminate].
      injection Hs as <-. by eapply save_posts_ids. }
  clear H. destruct replies as [|c0 replies].
  - simpl in H2. injection H2 as <-. split; [done|].
    intros c Hc. by apply elem_of_nil in Hc.
  - cbn [nonempty] in H2. unfold store_outcome in H2.
    pose proof (save_comments_frame (clock 2) isoformat username (c0 :: replies) file2)
      as (Hposts & _).
    unfold save_comments in *.
    destruct (for_each _ (c0 :: replies) _) as [s|] eqn:Hrun; [|discriminate].
    simpl in *. injection H2 as <-. split.
    + rewrite Hposts. done.
    + by eapply save_comments_ids.
Qed.
End MonitoringFacts.

(** ** The databases the tracker produces *)

Lemma save_account_snapshot_well_formed (clock : nat -> nat -> string) isoformat
    json_dumps k username data file :
  well_formed file ->
  well_formed (save_account_snapshot clock isoformat json_dumps k username data file).2.
Proof.
  intros Hwf. rewrite save_account_snapshot_cases.
  destruct (account_created isoformat data) as [created|x]; [|done]. simpl.
  apply well_formed_tables in Hwf as ((V1 & V2 & V3 & V4) & (T1 & T4) & U2 & U3).
  apply well_formed_tables. simpl. repeat split; auto; by apply forallb_snoc.
Qed.

Lemma monitor_user_well_formed (clock : nat -> nat -> string) isoformat fetch_image
    json_dumps username w file :
  well_formed file ->
  well_formed (monitor_user clock isoformat fetch_image json_dumps username w file).2.
Proof.
  intros Hwf. unfold monitor_user.
  destruct (about w) as [[data|]|]; [|done|done].
  destruct (about_truthy data); [|done].
  pose proof (save_account_snapshot_well_formed clock isoformat json_dumps 0%nat username
                data file Hwf) as H1.
  destruct (save_account_snapshot _ _ _ _ _ _ _) as [[x|] file1]; [done|]. simpl in H1.
  destruct (negb (karma_printable data)); [done|].
  destruct (submitted w) as [batch|]; [|done].
  assert (well_formed (if nonempty batch
                       then save_posts (clock 1%nat) isoformat fetch_image username batch file1
                       else (None, file1)).2) as H2.
  { destruct (nonempty batch); [by apply save_posts_well_formed | done]. }
  destruct (if nonempty batch then _ else _) as [[x|] file2]; [done|]. simpl in H2.
  destruct (commented w) as [replies|]; [|done].
  destruct (nonempty replies); [|done].
  unfold store_outcome. simpl. by apply save_comments_well_formed.
Qed.

Lemma empty_database_well_formed : well_formed empty_database.
Proof.
  split; [done|]. split; [done|]. split; simpl; constructor.
Qed.

Lemma produced_constraints d : produced d -> well_formed d.
Proof.
  induction 1 as [|clock isoformat fetch_image json_dumps username w file e file' _ IH H
                  |source target merged st _ IHs _ IHt H].
  - exact empty_database_well_formed.
  - pose proof (monitor_user_well_formed clock isoformat fetch_image json_dumps username
                  w file IH) as Hwf.
    by rewrite H in Hwf.
  - destruct IHs as (_ & Ts & _). destruct IHt as (Vt & Tt & Ut).
    destruct (merge_tables_constraints _ _ _ _ H) as (HU & HV & HT).
    split; [auto|]. split; auto.
Qed.

(** X16. Every database the tracker can have produced, by monitoring cycles
    from the empty database and by merging such databases, satisfies the
    constraints of the schema: post and comment ids are unique, no NOT NULL
    column holds NULL, and every snapshot and score-history row has a
    timestamp. *)
Theorem tracker_databases_are_well_formed d : produced d -> well_formed d.
Proof. exact (produced_constraints d). Qed.

(** X17. Merging one database the tracker produced into another, in place and
    from a different file, always returns [True] and leaves a database of the
    same kind; and a second run then skips every row of the source and leaves
    the file system as it is. *)
Theorem merge_of_tracker_databases fs source_path target_path source target :
  fs !! source_path = Some source -> fs !! target_path = Some target ->
  source_path <> target_path ->
  produced source -> produced target ->
  exists st merged,
    merge_databases fs source_path target_path None
    = (ReturnTrue st, <[target_path := merged]> fs)
    /\ produced merged
    /\ merge_databases (<[target_path := merged]> fs) source_path target_path None
       = (ReturnTrue (all_skipped source), <[target_path := merged]> fs).
Proof.
  intros Hs Ht Hne Ps Pt.
  destruct (produced_constraints _ Ps) as (Vs & Ts & _).
  destruct (merge_tables_total source target Vs) as (merged & st & Hm).
  exists st, merged. split; [|split].
  - by rewrite (merge_databases_in_place fs _ _ source target), Hm.
  - exact (produced_merge source target merged st Ps Pt Hm).
  - rewrite (merge_databases_in_place _ _ _ source merged).
    + rewrite (merge_tables_again _ _ _ _ Hm Ts). by rewrite insert_insert_eq.
    + by rewrite lookup_insert_ne.
    + by rewrite lookup_insert_eq.
Qed.

(** * The image downloads *)

Lemma extension_of_known content_type url :
  extension_of content_type url ∈ image_extensions.
Proof.
  unfold extension_of.
  destruct (_ || _); [set_solver|].
  destruct (contains "png" _); [set_solver|].
  destruct (contains "gif" _); [set_solver|].
  destruct (contains "webp" _); [set_solver|].
  destruct (List.find _ image_extensions) as [e|] eqn:Hf; [|set_solver].
  apply find_some in Hf as [Hin _]. by apply list_elem_of_In.
Qed.

Lemma list_ascii_of_string_app s t :
  list_ascii_of_string (String.append s t)
  = list_ascii_of_string s ++ list_ascii_of_string t.
Proof. induction s as [|c s IH]; simpl; [done | by rewrite IH]. Qed.

Lemma list_ascii_of_string_inj s t :
  list_ascii_of_string s = list_ascii_of_string t -> s = t.
Proof.
  intros H. rewrite <- (string_of_list_ascii_of_string s),
    <- (string_of_list_ascii_of_string t). by rewrite H.
Qed.

(** A file name of the images directory determines the id and the extension
    it was built from. *)
Lemma filename_inj s1 s2 e1 e2 :
  e1 ∈ image_extensions -> e2 ∈ image_extensions ->
  String.append s1 e1 = String.append s2 e2 -> s1 = s2 /\ e1 = e2.
Proof.
  intros H1 H2 H. apply (f_equal list_ascii_of_string) in H.
  rewrite !list_ascii_of_string_app in H. apply (f_equal (@rev ascii)) in H.
  rewrite !rev_app_distr in H.
  unfold image_extensions in H1, H2.
  repeat (apply elem_of_cons in H1 as [->|H1]); [..|by apply elem_of_nil in H1];
    (repeat (apply elem_of_cons in H2 as [->|H2]); [..|by apply elem_of_nil in H2]);
    simpl in H; try discriminate;
    (split; [|done]); apply list_ascii_of_string_inj, rev_inj; congruence.
Qed.

Section DownloadFacts.
Variable http_get : string -> option response.
Variable write_file : string -> string -> bool.

(** X18. [download_image] returns a path only for a URL that looks like an
    image, after a request that succeeded and a file that was written; the
    path is then images/ followed by the post id and one of the five known
    extensions, and it is truthy.  For a URL that does not look like an image
    it returns None whatever the network would answer. *)
Theorem download_image_returns_a_local_path url post_id :
  (forall path,
     download_image (fetch_image_over http_get write_file) url post_id = Some path ->
     exists u resp ext,
       url = Some u /\ is_image u = true /\ http_get u = Some resp
       /\ ext ∈ image_extensions
       /\ write_file (String.append (str_of post_id) ext) (content resp) = true
       /\ path = String.append "images/" (String.append (str_of post_id) ext)
       /\ truthy (Some path) = true)
  /\ (forall u, url = Some u -> is_image u = false ->
                download_image (fetch_image_over http_get write_file) url post_id
                = None).
Proof.
  split.
  - intros path H. unfold download_image in H. destruct url as [u|]; [|discriminate].
    destruct (_ || _); [discriminate|]. unfold fetch_image_over in H.
    destruct (is_image u) eqn:Hi; [|discriminate]. simpl in H.
    destruct (http_get u) as [resp|] eqn:Hg; [|discriminate].
    destruct (write_file _ _) eqn:Hw; [|discriminate]. injection H as <-.
    exists u, resp, (extension_of (default EmptyString (content_type resp)) u).
    repeat split; auto. apply extension_of_known.
  - intros u -> Hi. unfold download_image, fetch_image_over. rewrite Hi. simpl.
    by destruct (_ || _).
Qed.

(** X19. Downloads made for two different post ids never return the same
    path: the images of two posts do not share a file. *)
Theorem image_paths_do_not_collide url1 url2 id1 id2 path1 path2 :
  download_image (fetch_image_over http_get write_file) url1 (Some id1) = Some path1 ->
  download_image (fetch_image_over http_get write_file) url2 (Some id2) = Some path2 ->
  id1 <> id2 ->
  path1 <> path2.
Proof.
  intros H1 H2 Hne Heq. apply Hne. subst path2. unfold download_image in H1, H2.
  destruct url1 as [u1|]; [|discriminate]. destruct url2 as [u2|]; [|discriminate].
  destruct (_ || _); [discriminate|]. destruct (_ || _); [discriminate|].
  unfold fetch_image_over in H1, H2.
  destruct (negb (is_image u1)); [discriminate|].
  destruct (negb (is_image u2)); [discriminate|].
  destruct (http_get u1) as [r1|]; [|discriminate].
  destruct (http_get u2) as [r2|]; [|discriminate].
  destruct (write_file _ _); [|discriminate].
  destruct (write_file _ _); [|discriminate].
  injection H1 as H1. injection H2 as H2. rewrite <- H2 in H1. simpl in H1.
  injection H1 as H. change (String.append EmptyString ?x) with x in H.
  by apply filename_inj in H as [-> _]; [|apply extension_of_known..].
Qed.
End DownloadFacts.

(** * What the tracker never loses *)

Lemma Forall2_fixed_trans {A B} (f : A -> B) (l1 l2 l3 : list A) :
  Forall2 (fun old cur => f cur = f old) l1 l2 ->
  Forall2 (fun old cur => f cur = f old) l2 l3 ->
  Forall2 (fun old cur => f cur = f old) l1 l3.
Proof.
  intros H. revert l3. induction H as [|a b l1 l2 Hab H IH]; intros l3 H3;
    inversion H3; subst; constructor; [congruence | by apply IH].
Qed.

Lemma kept_rows_trans {A B} (f : A -> B) (t t' t'' : list A) :
  (exists kept new, t' = kept ++ new /\ Forall2 (fun old cur => f cur = f old) t kept) ->
  (exists kept new, t'' = kept ++ new /\ Forall2 (fun old cur => f cur = f old) t' kept) ->
  exists kept new, t'' = kept ++ new /\ Forall2 (fun old cur => f cur = f old) t kept.
Proof.
  intros (k1 & n1 & -> & H1) (k2 & n2 & -> & H2).
  apply Forall2_app_inv_l in H2 as (k21 & k22 & H21 & H22 & ->).
  exists k21, (k22 ++ n2). rewrite <- app_assoc. split; [done|].
  by eapply Forall2_fixed_trans.
Qed.

Lemma grown_from_refl file : grown_from file file.
Proof.
  repeat split.
  - exists []. by rewrite app_nil_r.
  - exists (posts file), []. rewrite app_nil_r. split; [done|]. apply Forall2_fixed_refl.
  - exists (comments file), []. rewrite app_nil_r. split; [done|].
    apply Forall2_fixed_refl.
  - exists []. by rewrite app_nil_r.
Qed.

Lemma grown_from_trans f1 f2 f3 :
  grown_from f1 f2 -> grown_from f2 f3 -> grown_from f1 f3.
Proof.
  intros ((a1 & Ha1) & Hp1 & Hc1 & (h1 & Hh1)) ((a2 & Ha2) & Hp2 & Hc2 & (h2 & Hh2)).
  split; [|split; [|split]].
  - exists (a1 ++ a2). by rewrite Ha2, Ha1, app_assoc.
  - by eapply kept_rows_trans.
  - by eapply kept_rows_trans.
  - exists (h1 ++ h2). by rewrite Hh2, Hh1, app_assoc.
Qed.

Lemma posts_ingested_grown file file' : posts_ingested file file' -> grown_from file file'.
Proof.
  intros (Hc & Ha & Hp & (entries & Hh & _)). split; [|split; [|split]].
  - exists []. by rewrite Ha, app_nil_r.
  - exact Hp.
  - exists (comments file), []. rewrite Hc, app_nil_r. split; [done|].
    apply Forall2_fixed_refl.
  - eauto.
Qed.

Lemma comments_ingested_grown file file' :
  comments_ingested file file' -> grown_from file file'.
Proof.
  intros (Hp & Ha & Hc & (entries & Hh & _)). split; [|split; [|split]].
  - exists []. by rewrite Ha, app_nil_r.
  - exists (posts file), []. rewrite Hp, app_nil_r. split; [done|].
    apply Forall2_fixed_refl.
  - exact Hc.
  - eauto.
Qed.

Lemma save_account_snapshot_grown (clock : nat -> nat -> string) isoformat json_dumps
    k username data file :
  grown_from file
    (save_account_snapshot clock isoformat json_dumps k username data file).2.
Proof.
  rewrite save_account_snapshot_cases.
  destruct (account_created isoformat data) as [created|x]; [|apply grown_from_refl].
  simpl. split; [|split; [|split]]; simpl.
  - eauto.
  - exists (posts file), []. rewrite app_nil_r. split; [done|]. apply Forall2_fixed_refl.
  - exists (comments file), []. rewrite app_nil_r. split; [done|].
    apply Forall2_fixed_refl.
  - exists []. by rewrite app_nil_r.
Qed.

Lemma monitor_user_grown (clock : nat -> nat -> string) isoformat fetch_image json_dumps
    username w file :
  grown_from file
    (monitor_user clock isoformat fetch_image json_dumps username w file).2.
Proof.
  unfold monitor_user.
  destruct (about w) as [[data|]|]; [|apply grown_from_refl..].
  destruct (about_truthy data); [|apply grown_from_refl].
  pose proof (save_account_snapshot_grown clock isoformat json_dumps 0%nat username
                data file) as H1.
  destruct (save_account_snapshot _ _ _ _ _ _ _) as [[x|] file1]; [done|]. simpl in H1.
  destruct (negb (karma_printable data)); [done|].
  destruct (submitted w) as [batch|]; [|done].
  assert (grown_from file
            (if nonempty batch
             then save_posts (clock 1%nat) isoformat fetch_image username batch file1
             else (None, file1)).2) as H2.
  { destruct (nonempty batch); [|done].
    eapply grown_from_trans; [exact H1|].
    apply posts_ingested_grown, save_posts_frame. }
  destruct (if nonempty batch then _ else _) as [[x|] file2]; [done|]. simpl in H2.
  destruct (commented w) as [replies|]; [|done].
  destruct (nonempty replies); [|done].
  unfold store_outcome. simpl.
  eapply grown_from_trans; [exact H2|].
  apply comments_ingested_grown, save_comments_frame.
Qed.

Lemma merge_tables_grown source target merged st :
  merge_tables source target = Ok (merged, st) -> grown_from target merged.
Proof.
  intros H. apply merge_tables_Ok in H as (H1 & H2 & H3 & H4).
  split; [|split; [|split]].
  - apply (append_pass_extends same_snapshot insert_account_snapshot
             insert_account_snapshot_appends) in H1 as (x & -> & _). eauto.
  - eapply (reconcile_pass_kept Posts.post_id Posts.last_updated insert_post
              update_post_from insert_post_appends
              (fun old new => post_fixed new = post_fixed old)
              (fun _ _ _ H => H) (posts source) (posts target) (posts target) []).
    + apply Forall2_fixed_refl.
    + rewrite app_nil_r. exact H2.
  - eapply (reconcile_pass_kept Comments.comment_id Comments.last_updated insert_comment
              update_comment_from insert_comment_appends
              (fun old new => comment_fixed new = comment_fixed old)
              (fun _ _ _ H => H) (comments source) (comments target) (comments target) []).
    + apply Forall2_fixed_refl.
    + rewrite app_nil_r. exact H3.
  - apply (append_pass_extends same_history insert_score_history
             insert_score_history_appends) in H4 as (x & -> & _). eauto.
Qed.

Lemma count_rows_app {R} (p : R -> bool) (t u : list R) :
  count_rows p (t ++ u) = (count_rows p t + count_rows p u)%nat.
Proof. unfold count_rows. by rewrite List.filter_app, length_app. Qed.

Lemma count_rows_kept {R B} (f : R -> B) (p : R -> bool) (t kept : list R) :
  (forall a b, f b = f a -> p b = p a) ->
  Forall2 (fun old cur => f cur = f old) t kept ->
  count_rows p kept = count_rows p t.
Proof.
  intros Hp. unfold count_rows.
  induction 1 as [|a b t kept Hab H IH]; simpl; [done|].
  rewrite (Hp a b Hab). destruct (p a); simpl; by rewrite IH.
Qed.

Lemma grown_from_counts username file file' :
  grown_from file file' ->
  no_fewer (tracked_counts username file) (tracked_counts username file').
Proof.
  intros ((a & Ha) & (kp & np & Hp & Hkp) & (kc & nc & Hc & Hkc) & _).
  unfold no_fewer, tracked_counts. simpl.
  rewrite Ha, Hp, Hc, !count_rows_app.
  rewrite (count_rows_kept post_fixed
             (fun r => sql_eq (Posts.username r) (Some username)) _ _
             ltac:(intros a0 b0 [=]; congruence) Hkp).
  rewrite (count_rows_kept post_fixed
             (fun r => sql_eq (Posts.username r) (Some username)
                       && negb (is_null (Posts.local_image_path r))) _ _
             ltac:(intros a0 b0 [=]; congruence) Hkp).
  rewrite (count_rows_kept comment_fixed
             (fun r => sql_eq (Comments.username r) (Some username)) _ _
             ltac:(intros a0 b0 [=]; congruence) Hkc).
  repeat split; lia.
Qed.

(** X20. The counts that [get_stats] reports for a user, of posts tracked,
    comments tracked, snapshots and images downloaded, never go down: not
    over a monitoring cycle, for any user and however the cycle ends, and not
    in the target of a completed merge. *)
Theorem tracked_counts_never_decrease username :
  (forall (clock : nat -> nat -> string) isoformat fetch_image json_dumps monitored w file,
     no_fewer (tracked_counts username file)
       (tracked_counts username
          (monitor_user clock isoformat fetch_image json_dumps monitored w file).2))
  /\ (forall source target merged st,
        merge_tables source target = Ok (merged, st) ->
        no_fewer (tracked_counts username target) (tracked_counts username merged)).
Proof.
  split.
  - intros. apply grown_from_counts, monitor_user_grown.
  - intros source target merged st H.
    by eapply grown_from_counts, merge_tables_grown.
Qed.

(** ** The properties of the ingestion on the sample data *)

Lemma items_are_stored_as_fetched_witness :
  (exists row,
     fetchone (fun r => sql_eq (Posts.post_id r) (get (Post.id seen_post)))
       (posts after_posts) = Some row
     /\ post_observed row = post_reading seen_post)
  /\ (exists row,
        fetchone (fun r => sql_eq (Comments.comment_id r) (get (Comment.id seen_comment)))
          (comments after_comments) = Some row
        /\ Comments.score row = comment_reading seen_comment).
Proof.
  destruct (items_are_stored_as_fetched sample_clock sample_isoformat sample_fetch_image
              "alice") as [Hposts Hcomments].
  split.
  - apply (Hposts [seen_post; unseen_post] dataset_b after_posts).
    + apply (bool_decide_unpack _). vm_compute. exact I.
    + vm_compute. reflexivity.
    + vm_compute. reflexivity.
    + constructor.
  - apply (Hcomments [seen_comment] dataset_b after_comments).
    + apply (bool_decide_unpack _). vm_compute. exact I.
    + vm_compute. reflexivity.
    + vm_compute. reflexivity.
    + constructor.
Defined.

Lemma ingesting_again_changes_nothing_witness :
  (exists file'',
     save_posts (fun n => sample_clock (S n)) sample_isoformat sample_fetch_image "alice"
       [seen_post; unseen_post] after_posts = (None, file'')
     /\ account_snapshots file'' = account_snapshots after_posts
     /\ comments file'' = comments after_posts
     /\ score_history file'' = score_history after_posts
     /\ posts_unchanged (posts after_posts) (posts file''))
  /\ (exists file'',
        save_comments (fun n => sample_clock (S n)) sample_isoformat "alice"
          [seen_comment] after_comments = (None, file'')
        /\ account_snapshots file'' = account_snapshots after_comments
        /\ posts file'' = posts after_comments
        /\ score_history file'' = score_history after_comments
        /\ comments_unchanged (comments after_comments) (comments file'')).
Proof.
  destruct (ingesting_again_changes_nothing sample_clock (fun n => sample_clock (S n))
              sample_isoformat sample_fetch_image sample_fetch_image "alice")
    as [Hposts Hcomments].
  split.
  - apply (Hposts [seen_post; unseen_post] dataset_b after_posts).
    + apply (bool_decide_unpack _). vm_compute. exact I.
    + vm_compute. reflexivity.
    + vm_compute. reflexivity.
  - apply (Hcomments [seen_comment] dataset_b after_comments).
    + apply (bool_decide_unpack _). vm_compute. exact I.
    + vm_compute. reflexivity.
    + vm_compute. reflexivity.
Defined.

Lemma monitoring_cycle_commits_in_steps_witness :
  (sample_cycle failing_responses dataset_b).1 = Some (Failed IntegrityError)
  /\ account_snapshots (sample_cycle failing_responses dataset_b).2 =
     account_snapshots dataset_b
     ++ [snapshot_row sample_json_dumps "alice" "2024-03-01 10:00:00"
           (Some "2024-02-29T18:30:00") sample_profile].
Proof.
  split; [vm_compute; reflexivity|].
  apply (proj1 (monitoring_cycle_commits_in_steps sample_cycle_clock sample_isoformat
                  sample_fetch_image sample_json_dumps "alice" failing_responses dataset_b
                  (Some (Failed IntegrityError))
                  (sample_cycle failing_responses dataset_b).2
                  ltac:(vm_compute; reflexivity))
           sample_profile (Some "2024-02-29T18:30:00")).
  - reflexivity.
  - reflexivity.
  - vm_compute. reflexivity.
Defined.

Lemma completed_cycle_stores_every_item_witness :
  exists batch replies,
    submitted sample_responses = Returned batch
    /\ commented sample_responses = Returned replies
    /\ (forall p, p ∈ batch ->
          is_Some (get (Post.id p))
          /\ get (Post.id p)
             ∈ map Posts.post_id (posts (sample_cycle sample_responses dataset_b).2))
    /\ (forall c, c ∈ replies ->
          is_Some (get (Comment.id c))
          /\ get (Comment.id c)
             ∈ map Comments.comment_id
                 (comments (sample_cycle sample_responses dataset_b).2)).
Proof.
  apply (completed_cycle_stores_every_item sample_cycle_clock sample_isoformat
           sample_fetch_image sample_json_dumps "alice" sample_responses dataset_b
           (sample_cycle sample_responses dataset_b).2 sample_profile).
  - vm_compute. reflexivity.
  - reflexivity.
  - reflexivity.
Defined.

Lemma tracker_databases_are_well_formed_witness :
  well_formed (sample_cycle sample_responses empty_database).2.
Proof.
  apply tracker_databases_are_well_formed.
  apply (produced_cycle sample_cycle_clock sample_isoformat sample_fetch_image
           sample_json_dumps "alice" sample_responses empty_database
           (sample_cycle sample_responses empty_database).1
           (sample_cycle sample_responses empty_database).2 produced_empty).
  vm_compute. reflexivity.
Defined.

Lemma merge_of_tracker_databases_witness :
  exists st merged,
    merge_databases
      (<["a.db" := (sample_cycle sample_responses empty_database).2]>
         (<["b.db" := empty_database]> ∅)) "a.db" "b.db" None
    = (ReturnTrue st,
       <["b.db" := merged]>
         (<["a.db" := (sample_cycle sample_responses empty_database).2]>
            (<["b.db" := empty_database]> ∅)))
    /\ produced merged
    /\ merge_databases
         (<["b.db" := merged]>
            (<["a.db" := (sample_cycle sample_responses empty_database).2]>
               (<["b.db" := empty_database]> ∅))) "a.db" "b.db" None
       = (ReturnTrue (all_skipped (sample_cycle sample_responses empty_database).2),
          <["b.db" := merged]>
            (<["a.db" := (sample_cycle sample_responses empty_database).2]>
               (<["b.db" := empty_database]> ∅))).
Proof.
  apply (merge_of_tracker_databases _ "a.db" "b.db"
           (sample_cycle sample_responses empty_database).2 empty_database).
  - vm_compute. reflexivity.
  - vm_compute. reflexivity.
  - discriminate.
  - apply (produced_cycle sample_cycle_clock sample_isoformat sample_fetch_image
             sample_json_dumps "alice" sample_responses empty_database
             (sample_cycle sample_responses empty_database).1
             (sample_cycle sample_responses empty_database).2 produced_empty).
    vm_compute. reflexivity.
  - exact produced_empty.
Defined.

Lemma download_image_returns_a_local_path_witness :
  (exists u resp ext,
     Some "https://i.redd.it/cat" = Some u /\ is_image u = true
     /\ sample_http_get u = Some resp
     /\ ext ∈ image_extensions
     /\ sample_write_file (String.append (str_of (Some "p7")) ext) (content resp) = true
     /\ "images/p7.png" = String.append "images/" (String.append (str_of (Some "p7")) ext)
     /\ truthy (Some "images/p7.png") = true)
  /\ download_image (fetch_image_over sample_http_get sample_write_file)
       (Some "https://example.org/a") (Some "p7") = None.
Proof.
  destruct (download_image_returns_a_local_path sample_http_get sample_write_file
              (Some "https://i.redd.it/cat") (Some "p7")) as [Hsome _].
  destruct (download_image_returns_a_local_path sample_http_get sample_write_file
              (Some "https://example.org/a") (Some "p7")) as [_ Hnone].
  split.
  - apply Hsome. vm_compute. reflexivity.
  - apply (Hnone "https://example.org/a"); [reflexivity | vm_compute; reflexivity].
Defined.

Lemma image_paths_do_not_collide_witness : "images/p7.png" <> "images/p8.jpeg".
Proof.
  apply (image_paths_do_not_collide sample_http_get sample_write_file
           (Some "https://i.redd.it/cat") (Some "https://example.org/dog.JPEG")
           "p7" "p8").
  - vm_compute. reflexivity.
  - vm_compute. reflexivity.
  - discriminate.
Defined.

Lemma tracked_counts_never_decrease_witness :
  no_fewer (tracked_counts "alice" dataset_b) (tracked_counts "alice" merged_b).
Proof.
  apply (proj2 (tracked_counts_never_decrease "alice") dataset_a dataset_b merged_b
           first_run_stats).
  vm_compute. reflexivity.
Defined.

(** * The claims on whole runs of [merge_databases] *)

Lemma wins_newer_than {R} (stamp : R -> option string) row e :
  wins stamp row e = true <-> newer_than (stamp row) (stamp e).
Proof.
  unfold wins, both_present, strictly_newer, truthy, str_gt, newer_than.
  destruct (stamp row) as [a|], (stamp e) as [b|]; simpl; split.
  - rewrite !andb_true_iff, !negb_true_iff. intros [[Ha Hb] Hc].
    apply String.eqb_neq in Ha, Hb.
    exists a, b. destruct (String.compare a b); try discriminate. auto.
  - intros (a' & b' & [= <-] & [= <-] & Ha & Hb & Hc). rewrite Hc.
    apply String.eqb_neq in Ha, Hb. by rewrite Ha, Hb.
  - rewrite andb_false_r. discriminate.
  - intros (? & ? & _ & [=] & _).
  - discriminate.
  - intros (? & ? & [=] & _).
  - discriminate.
  - intros (? & ? & [=] & _).
Qed.




Section LastWriterWinsVerdicts.
Context {R : Type}.
Variable key : R -> option string.
Variable stamp : R -> option string.
Variable insert : R -> list R -> result (list R).
Variable refresh : R -> R -> R.
Hypothesis insert_appends :
  forall row t t', insert row t = Ok t' -> t' = t ++ [row] /\ is_Some (key row).
Hypothesis refresh_key : forall row e, key (refresh row e) = key e.

Local Abbreviation body := (reconcile key stamp insert refresh).
Local Abbreviation same := (same_key key).
Local Abbreviation beats := (wins stamp).

(** A row of the source leaves the stored rows of every other key as they are. *)
Lemma reconcile_other_key row t c t' c' r' :
  body row (t, c) = Ok (t', c') -> key r' <> key row ->
  fetchone (same r') t' = fetchone (same r') t.
Proof.
  intros H Hne.
  assert (forall e, same r' e = true -> same row e = false) as Hoff.
  { intros e He. unfold same_key in *.
    apply sql_eq_true in He as (x & Hx & Hx').
    destruct (sql_eq (key e) (key row)) eqn:Hs; [|done].
    apply sql_eq_true in Hs as (y & Hy & Hy'). congruence. }
  apply (reconcile_cases key stamp insert refresh insert_appends) in H
    as [(_ & -> & _)|[(e & _ & _ & -> & _)|(e & _ & _ & -> & _)]].
  - rewrite fetchone_app. destruct (fetchone (same r') t) eqn:Hf; [done|]. simpl.
    destruct (same r' row) eqn:Hs; [|done].
    unfold same_key in Hs. apply sql_eq_true in Hs as (x & Hx & Hx'). congruence.
  - rewrite fetchone_update_where.
    + destruct (fetchone (same r') t) as [e0|] eqn:Hf; [|done]. simpl.
      apply fetchone_Some in Hf as [_ Hf]. by rewrite (Hoff _ Hf).
    + intros e0. unfold same_key. by rewrite refresh_key.
  - done.
Qed.

(** Every row of the source is counted once, by what the target held under
    its key when the run began. *)
Lemma reconcile_pass_verdicts src : forall t c t' c',
  NoDup (map key src) ->
  for_each body src (t, c) = Ok (t', c') ->
  exists fresh won lost,
    src ≡ₚ fresh ++ won ++ lost
    /\ added c' = (added c + length fresh)%nat
    /\ updated c' = (updated c + length won)%nat
    /\ skipped c' = (skipped c + length lost)%nat
    /\ Forall (fun r => is_Some (key r) /\ fetchone (same r) t = None) fresh
    /\ Forall (fun r => exists e, fetchone (same r) t = Some e /\ beats r e = true) won
    /\ Forall (fun r => exists e, fetchone (same r) t = Some e /\ beats r e = false) lost.
Proof.
  induction src as [|r src IH]; intros t c t' c' Hnd H; cbn [for_each] in H.
  - simplify_eq. exists [], [], []. simpl. repeat split; auto; lia.
  - destruct (body r (t, c)) as [[t1 c1]|] eqn:Hb; [|discriminate].
    simpl in Hnd. apply NoDup_cons in Hnd as [Hr Hnd].
    destruct (IH _ _ _ _ Hnd H) as (fresh & won & lost & Hperm & Ha & Hu & Hs
                                    & Hfresh & Hwon & Hlost).
    assert (forall r', r' ∈ src -> fetchone (same r') t1 = fetchone (same r') t) as Hback.
    { intros r' Hr'. eapply reconcile_other_key; [exact Hb|].
      intros Heq. apply Hr. rewrite <- Heq. by apply list_elem_of_fmap_2. }
    assert (forall r', r' ∈ fresh ++ won ++ lost -> r' ∈ src) as Hin.
    { intros r' Hr'. by rewrite Hperm. }
    assert (Forall (fun r => is_Some (key r) /\ fetchone (same r) t = None) fresh) as Hfresh'.
    { apply Forall_forall. intros r' Hr'.
      rewrite Forall_forall in Hfresh. destruct (Hfresh r' Hr') as [? Hf].
      split; [done|]. rewrite <- Hback; [done|]. apply Hin. apply elem_of_app. by left. }
    assert (Forall (fun r => exists e, fetchone (same r) t = Some e /\ beats r e = true) won)
      as Hwon'.
    { apply Forall_forall. intros r' Hr'.
      rewrite Forall_forall in Hwon. destruct (Hwon r' Hr') as (e & Hf & Hw).
      exists e. split; [|done]. rewrite <- Hback; [done|]. apply Hin.
      apply elem_of_app. right. apply elem_of_app. by left. }
    assert (Forall (fun r => exists e, fetchone (same r) t = Some e /\ beats r e = false) lost)
      as Hlost'.
    { apply Forall_forall. intros r' Hr'.
      rewrite Forall_forall in Hlost. destruct (Hlost r' Hr') as (e & Hf & Hw).
      exists e. split; [|done]. rewrite <- Hback; [done|]. apply Hin.
      apply elem_of_app. right. apply elem_of_app. by right. }
    apply (reconcile_cases key stamp insert refresh insert_appends) in Hb
      as [(Hf & -> & Hk & ->)|[(e & Hf & Hw & -> & ->)|(e & Hf & Hw & -> & ->)]];
      simpl in Ha, Hu, Hs.
    + exists (r :: fresh), won, lost. simpl.
      split; [by rewrite Hperm|]. repeat split; auto; lia.
    + exists fresh, (r :: won), lost. simpl.
      split; [rewrite Hperm; by rewrite <- Permutation_middle|].
      repeat split; eauto; lia.
    + exists fresh, won, (r :: lost). simpl.
      split; [rewrite Hperm, !app_assoc; by rewrite <- Permutation_middle|].
      repeat split; eauto; lia.
Qed.
End LastWriterWinsVerdicts.

Section LastWriterWinsRuns.
Context {R : Type}.
Variable key : R -> option string.
Variable stamp : R -> option string.
Variable insert : R -> list R -> result (list R).
Variable refresh : R -> R -> R.
Hypothesis insert_appends :
  forall row t t', insert row t = Ok t' -> t' = t ++ [row] /\ is_Some (key row).
Hypothesis refresh_key : forall row e, key (refresh row e) = key e.

Local Abbreviation body := (reconcile key stamp insert refresh).

Lemma reconcile_pass_counted src t t' c' :
  NoDup (map key src) ->
  for_each body src (t, no_counts) = Ok (t', c') ->
  counted_by key stamp src t c'.
Proof.
  intros Hnd H.
  destruct (reconcile_pass_verdicts key stamp insert refresh insert_appends refresh_key
              _ _ _ _ _ Hnd H)
    as (fresh & won & lost & Hperm & Ha & Hu & Hs & Hfresh & Hwon & Hlost).
  exists fresh, won, lost. simpl in Ha, Hu, Hs.
  split; [done|]. split; [done|]. split; [done|]. split; [done|].
  split; [|split].
  - eapply Forall_impl; [exact Hfresh|]. intros r [[k Hk] Hf] e He Heq.
    rewrite fetchone_None in Hf. specialize (Hf e He). unfold same_key in Hf.
    rewrite Heq, Hk in Hf. simpl in Hf. by rewrite String.eqb_refl in Hf.
  - eapply Forall_impl; [exact Hwon|]. intros r (e & Hf & Hw).
    apply fetchone_Some in Hf as [He Hk]. unfold same_key in Hk.
    apply sql_eq_true in Hk as (k & Hk1 & Hk2).
    exists e. split; [done|]. split; [congruence|]. by apply wins_newer_than.
  - eapply Forall_impl; [exact Hlost|]. intros r (e & Hf & Hw).
    apply fetchone_Some in Hf as [He Hk]. unfold same_key in Hk.
    apply sql_eq_true in Hk as (k & Hk1 & Hk2).
    exists e. split; [done|]. split; [congruence|].
    intros Hn. apply wins_newer_than in Hn. congruence.
Qed.

(** The row a run leaves under an id that the source and the target both
    hold. *)
Lemma reconcile_pass_item src t c t' c' a b k :
  NoDup (map key src) -> NoDup (map key t) ->
  for_each body src (t, c) = Ok (t', c') ->
  a ∈ src -> b ∈ t -> key a = Some k -> key b = Some k ->
  exists m,
    lookup_key key k t' = Some m
    /\ (newer_than (stamp a) (stamp b) -> m = refresh a b)
    /\ (~ newer_than (stamp a) (stamp b) -> m = b).
Proof.
  intros Hns Hnt H Ha Hb Hka Hkb.
  pose proof (lookup_key_unique key k a src Hns Ha Hka) as Hla.
  pose proof (lookup_key_unique key k b t Hnt Hb Hkb) as Hlb.
  rewrite (reconcile_pass_lookup key stamp insert refresh insert_appends refresh_key
             k _ _ _ _ _ b Hns H Hlb), Hla.
  eexists. split; [reflexivity|].
  destruct (wins stamp a b) eqn:Hw.
  - split; [done|]. intros Hn. exfalso. apply Hn. by apply wins_newer_than.
  - split; [|done]. intros Hn. apply wins_newer_than in Hn. congruence.
Qed.
End LastWriterWinsRuns.

(** C3. After a run of [merge_databases] that returns [True], for every post
    or comment whose id the source and the target both hold (ids being unique
    within each), the file merged into holds under that id the row of the
    target with score, derived metrics and last_updated taken from the source
    when both last_updated values are present and the source's is strictly
    greater, and the row of the target, every column as it was, in every
    other case.  The statistics count each source row once: as updated in the
    first case, as skipped in the second, and as added when the target has
    no row with its id. *)
Theorem merge_existing_content_item fs source_path target_path output_path
    source target st fs' :
  fs !! source_path = Some source -> fs !! target_path = Some target ->
  source_path <> effective_target target_path output_path ->
  unique_ids source -> unique_ids target ->
  merge_databases fs source_path target_path output_path = (ReturnTrue st, fs') ->
  exists merged,
    fs' !! effective_target target_path output_path = Some merged
    /\ (forall row existing k,
          row ∈ posts source -> existing ∈ posts target ->
          Posts.post_id row = Some k -> Posts.post_id existing = Some k ->
          exists m,
            lookup_key Posts.post_id k (posts merged) = Some m
            /\ (newer_than (Posts.last_updated row) (Posts.last_updated existing) ->
                post_mutable m = post_mutable row /\ post_fixed m = post_fixed existing)
            /\ (~ newer_than (Posts.last_updated row) (Posts.last_updated existing) ->
                m = existing))
    /\ counted_by Posts.post_id Posts.last_updated (posts source) (posts target)
         (st_posts st)
    /\ (forall row existing k,
          row ∈ comments source -> existing ∈ comments target ->
          Comments.comment_id row = Some k -> Comments.comment_id existing = Some k ->
          exists m,
            lookup_key Comments.comment_id k (comments merged) = Some m
            /\ (newer_than (Comments.last_updated row) (Comments.last_updated existing) ->
                comment_mutable m = comment_mutable row
                /\ comment_fixed m = comment_fixed existing)
            /\ (~ newer_than (Comments.last_updated row) (Comments.last_updated existing) ->
                m = existing))
    /\ counted_by Comments.comment_id Comments.last_updated (comments source)
         (comments target) (st_comments st).
Proof.
  intros Hs Ht Hne [Hsp Hsc] [Htp Htc] H.
  apply merge_databases_inv in H as (src & tgt & merged & Ht' & Hsrc & Hm & Hf & _).
  specialize (Hsrc Hne). assert (src = source) as -> by congruence.
  assert (tgt = target) as -> by congruence.
  apply merge_tables_Ok in Hm as (_ & H2 & H3 & _).
  exists merged. split; [done|]. split; [|split; [|split]].
  - intros row existing k Hr He Hkr Hke.
    destruct (reconcile_pass_item Posts.post_id Posts.last_updated insert_post
                update_post_from insert_post_appends (fun _ _ => eq_refl)
                _ _ _ _ _ row existing k Hsp Htp H2 Hr He Hkr Hke)
      as (m & Hl & Hnew & Hold).
    exists m. split; [done|]. split; [|done].
    intros Hn. by rewrite (Hnew Hn).
  - exact (reconcile_pass_counted Posts.post_id Posts.last_updated insert_post
             update_post_from insert_post_appends (fun _ _ => eq_refl) _ _ _ _ Hsp H2).
  - intros row existing k Hr He Hkr Hke.
    destruct (reconcile_pass_item Comments.comment_id Comments.last_updated
                insert_comment update_comment_from insert_comment_appends
                (fun _ _ => eq_refl)
                _ _ _ _ _ row existing k Hsc Htc H3 Hr He Hkr Hke)
      as (m & Hl & Hnew & Hold).
    exists m. split; [done|]. split; [|done].
    intros Hn. by rewrite (Hnew Hn).
  - exact (reconcile_pass_counted Comments.comment_id Comments.last_updated
             insert_comment update_comment_from insert_comment_appends
             (fun _ _ => eq_refl) _ _ _ _ Hsc H3).
Qed.


Section AppendOnlyRuns.
Context {R K : Type} `{EqDecision K}.
Variable same : R -> R -> bool.
Variable insert : R -> list R -> result (list R).
Variable key : R -> K.
Variable stamped : R -> Prop.
Variable full : R -> Prop.
Hypothesis insert_appends :
  forall row t t', insert row t = Ok t' -> t' = t ++ [row].
Hypothesis found_full : forall row e, same row e = true -> full row.
Hypothesis inserted_full :
  forall row t t', stamped row -> insert row t = Ok t' -> full row.
Hypothesis same_is_key : forall row e, full row -> same row e = true <-> key e = key row.

Local Abbreviation body := (append_missing same insert).

(** A run appends the rows of the source whose identity the target did not
    hold, each identity once, and counts the others as skipped. *)
Lemma append_pass_unshared src : forall t c t' c',
  Forall stamped src ->
  for_each body src (t, c) = Ok (t', c') ->
  t' = t ++ unshared key (map key t) src
  /\ added c' = (added c + length (unshared key (map key t) src))%nat
  /\ updated c' = updated c
  /\ skipped c' = (skipped c + (length src - length (unshared key (map key t) src)))%nat
  /\ (length (unshared key (map key t) src) <= length src)%nat.
Proof.
  induction src as [|r src IH]; intros t c t' c' Hst H; cbn [for_each] in H.
  - simplify_eq. simpl. rewrite app_nil_r. repeat split; lia.
  - apply Forall_cons in Hst as [Hr Hst].
    destruct (body r (t, c)) as [[t1 c1]|] eqn:Hb; [|discriminate].
    destruct (IH _ _ _ _ Hst H) as (-> & Ha & Hu & Hs & Hle). clear IH.
    unfold append_missing in Hb.
    destruct (fetchone (same r) t) as [e|] eqn:Hf.
    + injection Hb as <- <-.
      apply fetchone_Some in Hf as [He Hsame].
      pose proof (found_full _ _ Hsame) as Hfull.
      apply (same_is_key _ _ Hfull) in Hsame.
      assert (key r ∈ map key t) as Hin.
      { rewrite <- Hsame. by apply list_elem_of_fmap_2. }
      cbn [unshared]. rewrite decide_True by done.
      simpl in *. repeat split; auto; lia.
    + destruct (insert r t) as [t2|] eqn:Hi; [|discriminate].
      simpl in Hb. injection Hb as <- <-.
      pose proof (inserted_full _ _ _ Hr Hi) as Hfull.
      apply insert_appends in Hi as ->.
      assert (key r ∉ map key t) as Hout.
      { intros Hin. apply list_elem_of_fmap in Hin as (e & He & Hin).
        rewrite fetchone_None in Hf. specialize (Hf e Hin).
        assert (same r e = true) as Hs' by (by apply same_is_key).
        congruence. }
      cbn [unshared]. rewrite decide_False by done.
      rewrite map_app in *. simpl in *. rewrite <- app_assoc. simpl.
      repeat split; auto; lia.
Qed.
End AppendOnlyRuns.

Lemma same_snapshot_is_key row e :
  is_Some (AccountSnapshots.username row) /\ is_Some (AccountSnapshots.timestamp row) ->
  same_snapshot row e = true <-> snapshot_key e = snapshot_key row.
Proof.
  intros [[u Hu] [ts Hts]]. unfold same_snapshot, snapshot_key.
  rewrite Hu, Hts, andb_true_iff, !sql_eq_true. split.
  - intros [(x & Hx & [= <-]) (y & Hy & [= <-])]. by rewrite Hx, Hy.
  - intros [= Hx Hy]. rewrite Hx, Hy. split; eauto.
Qed.

Lemma same_history_is_key row e :
  is_Some (ScoreHistory.item_type row) /\ is_Some (ScoreHistory.item_id row)
  /\ is_Some (ScoreHistory.timestamp row) ->
  same_history row e = true <-> history_key e = history_key row.
Proof.
  intros ([a Ha] & [b Hb] & [ts Hts]). unfold same_history, history_key.
  rewrite Ha, Hb, Hts, !andb_true_iff, !sql_eq_true. split.
  - intros [[(x & Hx & [= <-]) (y & Hy & [= <-])] (z & Hz & [= <-])].
    by rewrite Hx, Hy, Hz.
  - intros [= Hx Hy Hz]. rewrite Hx, Hy, Hz. repeat split; eauto.
Qed.

(** C5.  After a run of [merge_databases] that returns [True], from a source
    whose snapshots and score-history entries all have a timestamp, the file
    merged into holds the account snapshots the target had, in their order
    and unchanged, followed by exactly the source snapshots whose (username,
    timestamp) pair no row of the target shares, each pair once; the
    statistics report those as added, every other source snapshot as skipped,
    and none as updated.  The same holds for score_history and the
    (item_type, item_id, timestamp) triple. *)
Theorem merge_append_only_tables fs source_path target_path output_path
    source target st fs' :
  fs !! source_path = Some source -> fs !! target_path = Some target ->
  source_path <> effective_target target_path output_path ->
  timestamps_recorded source = true ->
  merge_databases fs source_path target_path output_path = (ReturnTrue st, fs') ->
  let new_snapshots :=
    unshared snapshot_key (map snapshot_key (account_snapshots target))
      (account_snapshots source) in
  let new_entries :=
    unshared history_key (map history_key (score_history target))
      (score_history source) in
  exists merged,
    fs' !! effective_target target_path output_path = Some merged
    /\ account_snapshots merged = account_snapshots target ++ new_snapshots
    /\ st_account_snapshots st
       = mk_counts (length new_snapshots) 0
           (length (account_snapshots source) - length new_snapshots)
    /\ score_history merged = score_history target ++ new_entries
    /\ st_score_history st
       = mk_counts (length new_entries) 0
           (length (score_history source) - length new_entries).
Proof.
  intros Hs Ht Hne Hrec H.
  apply merge_databases_inv in H as (src & tgt & merged & Ht' & Hsrc & Hm & Hf & _).
  specialize (Hsrc Hne). assert (src = source) as -> by congruence.
  assert (tgt = target) as -> by congruence.
  apply merge_tables_Ok in Hm as (H1 & _ & _ & H4).
  apply timestamps_recorded_rows in Hrec as [Hr1 Hr4].
  exists merged. split; [done|].
  destruct (append_pass_unshared same_snapshot insert_account_snapshot snapshot_key
              (fun r => is_Some (AccountSnapshots.timestamp r))
              (fun r => is_Some (AccountSnapshots.username r)
                        /\ is_Some (AccountSnapshots.timestamp r))
              insert_account_snapshot_appends) with
    (src := account_snapshots source) (t := account_snapshots target) (c := no_counts)
    (t' := account_snapshots merged) (c' := st_account_snapshots st)
    as (E1 & A1 & U1 & S1 & _).
  { intros row e Hsame. unfold same_snapshot in Hsame.
    apply andb_true_iff in Hsame as [Hu Hts].
    apply sql_eq_true in Hu as (? & _ & ->). apply sql_eq_true in Hts as (? & _ & ->).
    eauto. }
  { intros row t t' Hst Hi. split; [|done]. unfold insert_account_snapshot in Hi.
    destruct (AccountSnapshots.username row); [eauto|discriminate]. }
  { exact same_snapshot_is_key. }
  { apply Forall_forall. intros r Hr. specialize (Hr1 r Hr).
    destruct (AccountSnapshots.timestamp r); [eauto|discriminate]. }
  { exact H1. }
  destruct (append_pass_unshared same_history insert_score_history history_key
              (fun r => is_Some (ScoreHistory.timestamp r))
              (fun r => is_Some (ScoreHistory.item_type r)
                        /\ is_Some (ScoreHistory.item_id r)
                        /\ is_Some (ScoreHistory.timestamp r))
              insert_score_history_appends) with
    (src := score_history source) (t := score_history target) (c := no_counts)
    (t' := score_history merged) (c' := st_score_history st)
    as (E4 & A4 & U4 & S4 & _).
  { intros row e Hsame. unfold same_history in Hsame.
    apply andb_true_iff in Hsame as [Hab Hts]. apply andb_true_iff in Hab as [Ha Hb].
    apply sql_eq_true in Ha as (? & _ & ->). apply sql_eq_true in Hb as (? & _ & ->).
    apply sql_eq_true in Hts as (? & _ & ->). eauto. }
  { intros row t t' Hst Hi. unfold insert_score_history in Hi.
    destruct (ScoreHistory.item_type row), (ScoreHistory.item_id row);
      try discriminate. eauto. }
  { exact same_history_is_key. }
  { apply Forall_forall. intros r Hr. specialize (Hr4 r Hr).
    destruct (ScoreHistory.timestamp r); [eauto|discriminate]. }
  { exact H4. }
  split; [done|]. split.
  { destruct (st_account_snapshots st) as [a u s]. simpl in *. by rewrite A1, U1, S1. }
  split; [done|].
  destruct (st_score_history st) as [a u s]. simpl in *. by rewrite A4, U4, S4.
Qed.

(** * The claims on whole calls of [save_posts] and [save_comments] *)

Lemma filter_update_where {R} (p q : R -> bool) (f : R -> R) (t : list R) :
  (forall e, p e = true -> q e = false) ->
  (forall e, p (f e) = p e) ->
  List.filter p (update_where q f t) = List.filter p t.
Proof.
  intros Hoff Hp. induction t as [|x t IH]; simpl; [done|].
  destruct (q x) eqn:Hq.
  - rewrite Hp. destruct (p x) eqn:Hx; [by rewrite (Hoff x Hx) in Hq | exact IH].
  - destruct (p x); by rewrite IH.
Qed.

Lemma fetchone_update_where_other {R} (p q : R -> bool) (f : R -> R) (t : list R) :
  (forall e, p e = true -> q e = false) ->
  (forall e, p (f e) = p e) ->
  fetchone p (update_where q f t) = fetchone p t.
Proof.
  intros Hoff Hp. rewrite fetchone_update_where by done.
  destruct (fetchone p t) as [e|] eqn:Hf; [|done]. simpl.
  apply fetchone_Some in Hf as [_ Hf]. by rewrite (Hoff e Hf).
Qed.

Lemma fetchone_None_filter {R} (p : R -> bool) (t : list R) :
  fetchone p t = None -> List.filter p t = [].
Proof.
  induction t as [|x t IH]; simpl; [done|]. destruct (p x); [discriminate | exact IH].
Qed.

Lemma sql_eq_Some_ne (a : option string) k k' :
  k' <> k -> sql_eq a (Some k) = true -> sql_eq a (Some k') = false.
Proof.
  intros Hne H. apply sql_eq_true in H as (x & -> & [= ->]). simpl.
  apply String.eqb_neq. congruence.
Qed.

Lemma about_item_other kind kind' k k' score ts :
  k' <> k -> about_item kind k (ScoreHistory.mk (Some kind') (Some k') score ts) = false.
Proof.
  intros Hne. unfold about_item. simpl.
  assert (String.eqb k' k = false) as -> by (by apply String.eqb_neq).
  apply andb_false_r.
Qed.

Lemma about_item_self kind k score ts :
  about_item kind k (ScoreHistory.mk (Some kind) (Some k) score ts) = true.
Proof. unfold about_item. simpl. by rewrite !String.eqb_refl. Qed.

Section WholeCalls.
Variable current_timestamp : nat -> string.
Variable isoformat : Z -> option string.
Variable fetch_image : string -> option string -> option string.

Local Abbreviation save_post' := (save_post current_timestamp isoformat fetch_image).
Local Abbreviation save_comment' := (save_comment current_timestamp isoformat).
Local Abbreviation save_posts' := (save_posts current_timestamp isoformat fetch_image).
Local Abbreviation save_comments' := (save_comments current_timestamp isoformat).

(** An iteration on another id leaves the rows and the history of an item
    as they are. *)
Lemma save_post_other username post s s' kind k :
  save_post' username post s = Ok s' ->
  get (Post.id post) <> Some k ->
  lookup_key Posts.post_id k (posts (db s')) = lookup_key Posts.post_id k (posts (db s))
  /\ posts_under k (db s') = posts_under k (db s)
  /\ history_of kind k (db s') = history_of kind k (db s).
Proof.
  intros H Hne. apply save_post_Ok in H as (_ & _ & _ & k' & Hid & Hcase).
  assert (k' <> k) as Hkk by congruence.
  unfold lookup_key, posts_under, history_of.
  destruct Hcase as [(e & _ & -> & ->)|(_ & (row & -> & Hk & _) & ->)].
  - split; [|split].
    + apply fetchone_update_where_other; [|done].
      intros r. by apply sql_eq_Some_ne.
    + apply filter_update_where; [|done]. intros r. by apply sql_eq_Some_ne.
    + rewrite List.filter_app.
      destruct (bool_decide _); simpl; [by rewrite app_nil_r|].
      by rewrite about_item_other, app_nil_r.
  - split; [|split].
    + rewrite fetchone_app. destruct (fetchone _ (posts (db s))); [done|]. simpl.
      rewrite Hk. simpl. by apply String.eqb_neq in Hkk as ->.
    + rewrite List.filter_app. simpl. rewrite Hk. simpl.
      apply String.eqb_neq in Hkk as ->. by rewrite app_nil_r.
    + rewrite List.filter_app. simpl. by rewrite about_item_other, app_nil_r.
Qed.

Lemma save_comment_other username comment s s' kind k :
  save_comment' username comment s = Ok s' ->
  get (Comment.id comment) <> Some k ->
  lookup_key Comments.comment_id k (comments (db s'))
  = lookup_key Comments.comment_id k (comments (db s))
  /\ comments_under k (db s') = comments_under k (db s)
  /\ history_of kind k (db s') = history_of kind k (db s).
Proof.
  intros H Hne. apply save_comment_Ok in H as (_ & _ & _ & k' & Hid & Hcase).
  assert (k' <> k) as Hkk by congruence.
  unfold lookup_key, comments_under, history_of.
  destruct Hcase as [(e & _ & -> & ->)|(_ & (row & -> & Hk & _) & ->)].
  - split; [|split].
    + apply fetchone_update_where_other; [|done].
      intros r. by apply sql_eq_Some_ne.
    + apply filter_update_where; [|done]. intros r. by apply sql_eq_Some_ne.
    + rewrite List.filter_app.
      destruct (bool_decide _); simpl; [by rewrite app_nil_r|].
      by rewrite about_item_other, app_nil_r.
  - split; [|split].
    + rewrite fetchone_app. destruct (fetchone _ (comments (db s))); [done|]. simpl.
      rewrite Hk. simpl. by apply String.eqb_neq in Hkk as ->.
    + rewrite List.filter_app. simpl. rewrite Hk. simpl.
      apply String.eqb_neq in Hkk as ->. by rewrite app_nil_r.
    + rewrite List.filter_app. simpl. by rewrite about_item_other, app_nil_r.
Qed.

(** The same over a run of iterations, none of them on the item's id. *)
Lemma save_posts_other username batch kind k : forall s s',
  for_each (save_post' username) batch s = Ok s' ->
  Some k ∉ map (fun p => get (Post.id p)) batch ->
  lookup_key Posts.post_id k (posts (db s')) = lookup_key Posts.post_id k (posts (db s))
  /\ posts_under k (db s') = posts_under k (db s)
  /\ history_of kind k (db s') = history_of kind k (db s).
Proof.
  induction batch as [|p batch IH]; intros s s' H Hk; cbn [for_each] in H.
  - by simplify_eq.
  - simpl in H. destruct (save_post' username p s) as [s1|] eqn:Hb; [|discriminate].
    simpl in Hk. apply not_elem_of_cons in Hk as [Hp Hk].
    destruct (IH _ _ H Hk) as (-> & -> & ->).
    eapply save_post_other; eauto.
Qed.

Lemma save_comments_other username batch kind k : forall s s',
  for_each (save_comment' username) batch s = Ok s' ->
  Some k ∉ map (fun c => get (Comment.id c)) batch ->
  lookup_key Comments.comment_id k (comments (db s'))
  = lookup_key Comments.comment_id k (comments (db s))
  /\ comments_under k (db s') = comments_under k (db s)
  /\ history_of kind k (db s') = history_of kind k (db s).
Proof.
  induction batch as [|c batch IH]; intros s s' H Hk; cbn [for_each] in H.
  - by simplify_eq.
  - simpl in H. destruct (save_comment' username c s) as [s1|] eqn:Hb; [|discriminate].
    simpl in Hk. apply not_elem_of_cons in Hk as [Hc Hk].
    destruct (IH _ _ H Hk) as (-> & -> & ->).
    eapply save_comment_other; eauto.
Qed.

(** A completed call, cut at one of its items. *)
Lemma save_posts_cut username before post after file file' :
  save_posts' username (before ++ post :: after) file = (None, file') ->
  exists s1 s2 s3,
    for_each (save_post' username) before (mk_session file 0) = Ok s1
    /\ save_post' username post s1 = Ok s2
    /\ for_each (save_post' username) after s2 = Ok s3
    /\ file' = db s3.
Proof.
  unfold save_posts. rewrite for_each_app.
  destruct (for_each _ before _) as [s1|] eqn:H1; [|discriminate].
  cbn [for_each]. simpl.
  destruct (save_post' username post s1) as [s2|] eqn:H2; [|discriminate].
  destruct (for_each _ after s2) as [s3|] eqn:H3; [|discriminate].
  intros [= <-]. eauto 10.
Qed.

Lemma save_comments_cut username before comment after file file' :
  save_comments' username (before ++ comment :: after) file = (None, file') ->
  exists s1 s2 s3,
    for_each (save_comment' username) before (mk_session file 0) = Ok s1
    /\ save_comment' username comment s1 = Ok s2
    /\ for_each (save_comment' username) after s2 = Ok s3
    /\ file' = db s3.
Proof.
  unfold save_comments. rewrite for_each_app.
  destruct (for_each _ before _) as [s1|] eqn:H1; [|discriminate].
  cbn [for_each]. simpl.
  destruct (save_comment' username comment s1) as [s2|] eqn:H2; [|discriminate].
  destruct (for_each _ after s2) as [s3|] eqn:H3; [|discriminate].
  intros [= <-]. eauto 10.
Qed.

(** The iteration on an item that is stored. *)
Lemma save_post_stored username post s s' k e :
  save_post' username post s = Ok s' ->
  get (Post.id post) = Some k ->
  lookup_key Posts.post_id k (posts (db s)) = Some e ->
  let observed := get_or 0 (Post.score post) in
  lookup_key Posts.post_id k (posts (db s'))
  = Some (touch_post observed post (current_timestamp (S (statements s))) e)
  /\ history_of "post" k (db s') =
     history_of "post" k (db s) ++
     (if bool_decide (Posts.score e = observed) then []
      else [ScoreHistory.mk (Some "post") (Some k) observed
              (Some (current_timestamp (S (S (statements s)))))]).
Proof.
  intros H Hid He. apply save_post_Ok in H as (_ & _ & _ & k' & Hid' & Hcase).
  assert (k' = k) as -> by congruence. unfold lookup_key in *.
  destruct Hcase as [(e' & He' & Hp & Hh)|(Hnone & _)]; [|congruence].
  assert (e' = e) as -> by congruence. split.
  - rewrite Hp, fetchone_update_where by done. rewrite He. simpl.
    apply fetchone_Some in He as [_ ->]. done.
  - unfold history_of. rewrite Hh, List.filter_app.
    destruct (bool_decide _); simpl; [done|]. by rewrite about_item_self.
Qed.

Lemma save_comment_stored username comment s s' k e :
  save_comment' username comment s = Ok s' ->
  get (Comment.id comment) = Some k ->
  lookup_key Comments.comment_id k (comments (db s)) = Some e ->
  let observed := get_or 0 (Comment.score comment) in
  lookup_key Comments.comment_id k (comments (db s'))
  = Some (touch_comment observed (current_timestamp (S (statements s))) e)
  /\ history_of "comment" k (db s') =
     history_of "comment" k (db s) ++
     (if bool_decide (Comments.score e = observed) then []
      else [ScoreHistory.mk (Some "comment") (Some k) observed
              (Some (current_timestamp (S (S (statements s)))))]).
Proof.
  intros H Hid He. apply save_comment_Ok in H as (_ & _ & _ & k' & Hid' & Hcase).
  assert (k' = k) as -> by congruence. unfold lookup_key in *.
  destruct Hcase as [(e' & He' & Hp & Hh)|(Hnone & _)]; [|congruence].
  assert (e' = e) as -> by congruence. split.
  - rewrite Hp, fetchone_update_where by done. rewrite He. simpl.
    apply fetchone_Some in He as [_ ->]. done.
  - unfold history_of. rewrite Hh, List.filter_app.
    destruct (bool_decide _); simpl; [done|]. by rewrite about_item_self.
Qed.

(** The iteration on an item that is not stored. *)
Lemma save_post_unseen username post s s' k :
  save_post' username post s = Ok s' ->
  get (Post.id post) = Some k ->
  lookup_key Posts.post_id k (posts (db s)) = None ->
  exists row,
    posts (db s') = posts (db s) ++ [row]
    /\ Posts.post_id row = Some k
    /\ Posts.first_seen row = Some (current_timestamp (S (statements s)))
    /\ Posts.last_updated row = Some (current_timestamp (S (statements s)))
    /\ Posts.score row = get (Post.score post)
    /\ score_history (db s') =
       score_history (db s) ++
       [ScoreHistory.mk (Some "post") (Some k) (get_or 0 (Post.score post))
          (Some (current_timestamp (S (S (statements s)))))].
Proof.
  unfold save_post, lookup_key. intros H Hid Hnone. rewrite Hid in H.
  destruct (fromtimestamp_isoformat isoformat _) as [created|]; [|discriminate].
  simpl in H. rewrite Hnone in H.
  pose proof (fetchone_None_existsb _ _ Hnone) as Hex.
  unfold execute, log_score, insert_post, insert_score_history in H. simpl in H.
  rewrite Hex in H. simpl in H.
  destruct (truthy _); [destruct (get_or EmptyString (Post.title post))|];
    try discriminate; injection H as <-; simpl; eauto 10.
Qed.

Lemma save_comment_unseen username comment s s' k :
  save_comment' username comment s = Ok s' ->
  get (Comment.id comment) = Some k ->
  lookup_key Comments.comment_id k (comments (db s)) = None ->
  exists row,
    comments (db s') = comments (db s) ++ [row]
    /\ Comments.comment_id row = Some k
    /\ Comments.first_seen row = Some (current_timestamp (S (statements s)))
    /\ Comments.last_updated row = Some (current_timestamp (S (statements s)))
    /\ Comments.score row = get (Comment.score comment)
    /\ score_history (db s') =
       score_history (db s) ++
       [ScoreHistory.mk (Some "comment") (Some k) (get_or 0 (Comment.score comment))
          (Some (current_timestamp (S (S (statements s)))))].
Proof.
  unfold save_comment, lookup_key. intros H Hid Hnone. rewrite Hid in H.
  destruct (fromtimestamp_isoformat isoformat _) as [created|]; [|discriminate].
  simpl in H. rewrite Hnone in H.
  pose proof (fetchone_None_existsb _ _ Hnone) as Hex.
  unfold execute, log_score, insert_comment, insert_score_history in H. simpl in H.
  rewrite Hex in H. simpl in H. injection H as <-. simpl. eauto 10.
Qed.

(** C2. In a call of [save_posts] that completes, a post whose id is stored
    when the call begins, and that occurs once in the list, leaves in the
    file the row that was stored with its score (and upvote_ratio and
    num_comments) set to the observed values and its last_updated set to the
    time of the UPDATE, whether or not the score changed, every other column
    as it was; and the call adds to the score history of that post exactly
    one entry, carrying the observed score, when the observed score differs
    from the score that was stored, and none when it is the same.  The same
    holds for [save_comments] and the score of a comment. *)
Theorem upsert_existing_item username :
  (forall before post after file file' k e,
     save_posts' username (before ++ post :: after) file = (None, file') ->
     get (Post.id post) = Some k ->
     Some k ∉ map (fun p => get (Post.id p)) (before ++ after) ->
     lookup_key Posts.post_id k (posts file) = Some e ->
     let observed := get_or 0 (Post.score post) in
     exists n row,
       lookup_key Posts.post_id k (posts file') = Some row
       /\ Posts.score row = observed
       /\ Posts.last_updated row = Some (current_timestamp n)
       /\ Posts.upvote_ratio row = get (Post.upvote_ratio post)
       /\ Posts.num_comments row = get (Post.num_comments post)
       /\ post_fixed row = post_fixed e
       /\ history_of "post" k file' =
          history_of "post" k file ++
          (if bool_decide (Posts.score e = observed) then []
           else [ScoreHistory.mk (Some "post") (Some k) observed
                   (Some (current_timestamp (S n)))]))
  /\ (forall before comment after file file' k e,
        save_comments' username (before ++ comment :: after) file = (None, file') ->
        get (Comment.id comment) = Some k ->
        Some k ∉ map (fun c => get (Comment.id c)) (before ++ after) ->
        lookup_key Comments.comment_id k (comments file) = Some e ->
        let observed := get_or 0 (Comment.score comment) in
        exists n row,
          lookup_key Comments.comment_id k (comments file') = Some row
          /\ Comments.score row = observed
          /\ Comments.last_updated row = Some (current_timestamp n)
          /\ comment_fixed row = comment_fixed e
          /\ history_of "comment" k file' =
             history_of "comment" k file ++
             (if bool_decide (Comments.score e = observed) then []
              else [ScoreHistory.mk (Some "comment") (Some k) observed
                      (Some (current_timestamp (S n)))])).
Proof.
  split.
  - intros before post after file file' k e H Hid Hk He observed.
    apply save_posts_cut in H as (s1 & s2 & s3 & H1 & H2 & H3 & ->).
    rewrite map_app in Hk. apply not_elem_of_app in Hk as [Hkb Hka].
    destruct (save_posts_other username before "post" k _ _ H1 Hkb) as (L1 & _ & G1).
    destruct (save_posts_other username after "post" k _ _ H3 Hka) as (L3 & _ & G3).
    simpl in L1, G1. rewrite <- L1 in He.
    destruct (save_post_stored username post s1 s2 k e H2 Hid He) as [L2 G2].
    exists (S (statements s1)), (touch_post observed post
                                   (current_timestamp (S (statements s1))) e).
    split; [by rewrite L3|]. repeat split.
    by rewrite G3, G2, G1.
  - intros before comment after file file' k e H Hid Hk He observed.
    apply save_comments_cut in H as (s1 & s2 & s3 & H1 & H2 & H3 & ->).
    rewrite map_app in Hk. apply not_elem_of_app in Hk as [Hkb Hka].
    destruct (save_comments_other username before "comment" k _ _ H1 Hkb)
      as (L1 & _ & G1).
    destruct (save_comments_other username after "comment" k _ _ H3 Hka)
      as (L3 & _ & G3).
    simpl in L1, G1. rewrite <- L1 in He.
    destruct (save_comment_stored username comment s1 s2 k e H2 Hid He) as [L2 G2].
    exists (S (statements s1)), (touch_comment observed
                                   (current_timestamp (S (statements s1))) e).
    split; [by rewrite L3|]. repeat split.
    by rewrite G3, G2, G1.
Qed.

(** C4. In a call of [save_posts] that completes, a post whose id is not
    stored when the call begins, that occurs once in the list and whose
    payload has a score, leaves in the file exactly one row under its id,
    with first_seen and last_updated both the time of the INSERT and the
    score of the payload; and the call adds to the score history of that
    post exactly one entry, carrying that score.  The same holds for
    [save_comments]. *)
Theorem upsert_new_item username :
  (forall before post after file file' k,
     save_posts' username (before ++ post :: after) file = (None, file') ->
     get (Post.id post) = Some k ->
     Some k ∉ map (fun p => get (Post.id p)) (before ++ after) ->
     lookup_key Posts.post_id k (posts file) = None ->
     is_present (Post.score post) = true ->
     exists n row,
       posts_under k file' = [row]
       /\ Posts.first_seen row = Some (current_timestamp n)
       /\ Posts.last_updated row = Some (current_timestamp n)
       /\ Posts.score row = get (Post.score post)
       /\ history_of "post" k file' =
          history_of "post" k file ++
          [ScoreHistory.mk (Some "post") (Some k) (Posts.score row)
             (Some (current_timestamp (S n)))])
  /\ (forall before comment after file file' k,
        save_comments' username (before ++ comment :: after) file = (None, file') ->
        get (Comment.id comment) = Some k ->
        Some k ∉ map (fun c => get (Comment.id c)) (before ++ after) ->
        lookup_key Comments.comment_id k (comments file) = None ->
        is_present (Comment.score comment) = true ->
        exists n row,
          comments_under k file' = [row]
          /\ Comments.first_seen row = Some (current_timestamp n)
          /\ Comments.last_updated row = Some (current_timestamp n)
          /\ Comments.score row = get (Comment.score comment)
          /\ history_of "comment" k file' =
             history_of "comment" k file ++
             [ScoreHistory.mk (Some "comment") (Some k) (Comments.score row)
                (Some (current_timestamp (S n)))]).
Proof.
  split.
  - intros before post after file file' k H Hid Hk Hnone Hsc.
    apply save_posts_cut in H as (s1 & s2 & s3 & H1 & H2 & H3 & ->).
    rewrite map_app in Hk. apply not_elem_of_app in Hk as [Hkb Hka].
    destruct (save_posts_other username before "post" k _ _ H1 Hkb) as (L1 & U1 & G1).
    destruct (save_posts_other username after "post" k _ _ H3 Hka) as (L3 & U3 & G3).
    simpl in L1, U1, G1. rewrite <- L1 in Hnone.
    destruct (save_post_unseen username post s1 s2 k H2 Hid Hnone)
      as (row & Hp & Hkr & Hfs & Hlu & Hscore & Hh).
    exists (S (statements s1)), row.
    split; [|split; [done|split; [done|split; [done|]]]].
    + rewrite U3. unfold posts_under. rewrite Hp, List.filter_app.
      rewrite (fetchone_None_filter _ _ Hnone). simpl.
      rewrite Hkr. simpl. by rewrite String.eqb_refl.
    + rewrite G3. unfold history_of at 1. rewrite Hh, List.filter_app. simpl.
      rewrite about_item_self. fold (history_of "post" k (db s1)). rewrite G1.
      rewrite Hscore. by destruct (Post.score post).
  - intros before comment after file file' k H Hid Hk Hnone Hsc.
    apply save_comments_cut in H as (s1 & s2 & s3 & H1 & H2 & H3 & ->).
    rewrite map_app in Hk. apply not_elem_of_app in Hk as [Hkb Hka].
    destruct (save_comments_other username before "comment" k _ _ H1 Hkb)
      as (L1 & U1 & G1).
    destruct (save_comments_other username after "comment" k _ _ H3 Hka)
      as (L3 & U3 & G3).
    simpl in L1, U1, G1. rewrite <- L1 in Hnone.
    destruct (save_comment_unseen username comment s1 s2 k H2 Hid Hnone)
      as (row & Hp & Hkr & Hfs & Hlu & Hscore & Hh).
    exists (S (statements s1)), row.
    split; [|split; [done|split; [done|split; [done|]]]].
    + rewrite U3. unfold comments_under. rewrite Hp, List.filter_app.
      rewrite (fetchone_None_filter _ _ Hnone). simpl.
      rewrite Hkr. simpl. by rewrite String.eqb_refl.
    + rewrite G3. unfold history_of at 1. rewrite Hh, List.filter_app. simpl.
      rewrite about_item_self. fold (history_of "comment" k (db s1)). rewrite G1.
      rewrite Hscore. by destruct (Comment.score comment).
Qed.
End WholeCalls.

(** * Further properties of whole calls *)

(** X8. A post that is new, for which an image was downloaded and whose
    title is null aborts the call of [save_posts] it is in: the items before
    it having been processed, its date converting and its integers fitting
    in 64 bits, both INSERTs run, then the line that prints the title raises
    TypeError, the exception leaves the call and the file is as it was. *)
Theorem untitled_image_post_aborts_the_call current_timestamp isoformat fetch_image
    username before post after file s created k :
  for_each (save_post current_timestamp isoformat fetch_image username) before
    (mk_session file 0) = Ok s ->
  fromtimestamp_isoformat isoformat (get_or 0 (Post.created_utc post)) = Ok created ->
  get (Post.id post) = Some k ->
  lookup_key Posts.post_id k (posts (db s)) = None ->
  truthy (download_image fetch_image (get_or EmptyString (Post.url post)) (Some k))
  = true ->
  get_or EmptyString (Post.title post) = None ->
  fits_int64 (get (Post.score post)) -> fits_int64 (get (Post.num_comments post)) ->
  save_posts current_timestamp isoformat fetch_image username (before ++ post :: after)
    file = (Some TypeError, file).
Proof.
  intros Hb Hc Hid Hnone Himg Htitle _ _.
  unfold save_posts. rewrite for_each_app, Hb. cbn [for_each]. simpl.
  assert (save_post current_timestamp isoformat fetch_image username post s
          = Raise TypeError) as ->; [|done].
  unfold save_post, lookup_key in *. rewrite Hc, Hid. simpl. rewrite Hnone.
  pose proof (fetchone_None_existsb _ _ Hnone) as Hex.
  unfold execute, log_score, insert_post, insert_score_history. simpl.
  rewrite Hex. simpl. by rewrite Himg, Htitle.
Qed.

(** X9. A call of [save_posts] or [save_comments] that completes has
    committed every item of its list: each item has an id that is not null
    and a date that converts, and the file the call leaves holds a row under
    that id. *)
Theorem completed_call_stores_every_item current_timestamp isoformat fetch_image
    username :
  (forall batch file file',
     save_posts current_timestamp isoformat fetch_image username batch file
     = (None, file') ->
     forall p, p ∈ batch ->
       is_Some (get (Post.id p))
       /\ is_ok (fromtimestamp_isoformat isoformat (get_or 0 (Post.created_utc p)))
          = true
       /\ get (Post.id p) ∈ map Posts.post_id (posts file'))
  /\ (forall batch file file',
        save_comments current_timestamp isoformat username batch file = (None, file') ->
        forall c, c ∈ batch ->
          is_Some (get (Comment.id c))
          /\ is_ok (fromtimestamp_isoformat isoformat
                      (get_or 0 (Comment.created_utc c))) = true
          /\ get (Comment.id c) ∈ map Comments.comment_id (comments file')).
Proof.
  split; intros batch file file' H x Hx.
  - unfold save_posts in H.
    destruct (for_each _ batch (mk_session file 0)) as [s|] eqn:Hrun; [|discriminate].
    injection H as <-.
    destruct (save_posts_ids isoformat fetch_image current_timestamp username batch
                _ _ Hrun x Hx) as [Hid Hin].
    split; [done|]. split; [|done].
    destruct (for_each_Ok_each _ _ _ _ Hrun x Hx) as (a & b & Hab).
    by apply save_post_Ok in Hab as (_ & _ & (c & ->) & _).
  - unfold save_comments in H.
    destruct (for_each _ batch (mk_session file 0)) as [s|] eqn:Hrun; [|discriminate].
    injection H as <-.
    destruct (save_comments_ids isoformat current_timestamp username batch
                _ _ Hrun x Hx) as [Hid Hin].
    split; [done|]. split; [|done].
    destruct (for_each_Ok_each _ _ _ _ Hrun x Hx) as (a & b & Hab).
    by apply save_comment_Ok in Hab as (_ & _ & (c & ->) & _).
Qed.

(** X13. A call of [save_account_snapshot] that completes has appended
    exactly one row, under the user name and the current timestamp, with the
    defaults for the keys the profile lacks; its account_created is NULL
    exactly when created_utc is missing, null or zero, and the converted date
    otherwise.  A call that raises leaves the file as it was. *)
Theorem snapshot_call_appends_one_row (clock : nat -> nat -> string) isoformat
    json_dumps k username data file e file' :
  save_account_snapshot clock isoformat json_dumps k username data file = (e, file') ->
  match e with
  | None =>
      exists created,
        file' = with_account_snapshots file
                  (account_snapshots file
                   ++ [snapshot_row json_dumps username (clock k 0%nat) created data])
        /\ (created = None <-> truthy_number (get (About.created_utc data)) = false)
        /\ (forall z, get (About.created_utc data) = Some z -> z <> 0 ->
                      isoformat z = created)
  | Some _ => file' = file
  end.
Proof.
  rewrite save_account_snapshot_cases. unfold account_created.
  destruct (get (About.created_utc data)) as [z|] eqn:Hz; simpl.
  - destruct (Z.eqb_spec z 0) as [->|Hne]; simpl.
    + intros [= <- <-]. exists None. split; [done|]. split; [done|].
      intros z [= <-] Hz0. done.
    + assert (get_or 0 (About.created_utc data) = Some z) as ->.
      { by destruct (About.created_utc data) as [|[?|]]; simplify_eq/=. }
      simpl. destruct (isoformat z) as [c|] eqn:Hi; simpl.
      * intros [= <- <-]. exists (Some c). split; [done|].
        split; [split; discriminate|]. intros z' [= <-] _. done.
      * by intros [= <- <-].
  - intros [= <- <-]. exists None. split; [done|]. split; [done|]. intros z [=].
Qed.

(** ** The claims on the sample data *)

Lemma upsert_existing_item_witness :
  (exists n row,
     lookup_key Posts.post_id "p1" (posts after_posts) = Some row
     /\ Posts.score row = Some 9
     /\ Posts.last_updated row = Some (sample_clock n)
     /\ post_fixed row = post_fixed older_post
     /\ history_of "post" "p1" after_posts =
        history_of "post" "p1" dataset_b
        ++ [ScoreHistory.mk (Some "post") (Some "p1") (Some 9)
              (Some (sample_clock (S n)))])
  /\ (exists n row,
        lookup_key Comments.comment_id "c1" (comments after_comments) = Some row
        /\ Comments.score row = Some 3
        /\ Comments.last_updated row = Some (sample_clock n)
        /\ comment_fixed row = comment_fixed older_comment
        /\ history_of "comment" "c1" after_comments
           = history_of "comment" "c1" dataset_b).
Proof.
  destruct (upsert_existing_item sample_clock sample_isoformat sample_fetch_image "alice")
    as [Hposts Hcomments].
  split.
  - destruct (Hposts [] seen_post [unseen_post] dataset_b after_posts "p1" older_post)
      as (n & row & Hl & Hs & Hu & _ & _ & Hf & Hh).
    + vm_compute. reflexivity.
    + reflexivity.
    + apply (bool_decide_unpack _). vm_compute. exact I.
    + vm_compute. reflexivity.
    + exists n, row. exact (conj Hl (conj Hs (conj Hu (conj Hf Hh)))).
  - destruct (Hcomments [] seen_comment [] dataset_b after_comments "c1" older_comment)
      as (n & row & Hl & Hs & Hu & Hf & Hh).
    + vm_compute. reflexivity.
    + reflexivity.
    + apply (bool_decide_unpack _). vm_compute. exact I.
    + vm_compute. reflexivity.
    + exists n, row. rewrite app_nil_r in Hh.
      exact (conj Hl (conj Hs (conj Hu (conj Hf Hh)))).
Defined.

Lemma upsert_new_item_witness :
  (exists n row,
     posts_under "p7" after_posts = [row]
     /\ Posts.first_seen row = Some (sample_clock n)
     /\ Posts.last_updated row = Some (sample_clock n)
     /\ Posts.score row = Some 4
     /\ history_of "post" "p7" after_posts =
        [ScoreHistory.mk (Some "post") (Some "p7") (Posts.score row)
           (Some (sample_clock (S n)))])
  /\ (exists n row,
        comments_under "c7" after_two_comments = [row]
        /\ Comments.first_seen row = Some (sample_clock n)
        /\ Comments.last_updated row = Some (sample_clock n)
        /\ Comments.score row = Some 2
        /\ history_of "comment" "c7" after_two_comments =
           [ScoreHistory.mk (Some "comment") (Some "c7") (Comments.score row)
              (Some (sample_clock (S n)))]).
Proof.
  destruct (upsert_new_item sample_clock sample_isoformat sample_fetch_image "alice")
    as [Hposts Hcomments].
  split.
  - destruct (Hposts [seen_post] unseen_post [] dataset_b after_posts "p7")
      as (n & row & Hr & Hf & Hu & Hs & Hh).
    + vm_compute. reflexivity.
    + reflexivity.
    + apply (bool_decide_unpack _). vm_compute. exact I.
    + vm_compute. reflexivity.
    + reflexivity.
    + exists n, row. exact (conj Hr (conj Hf (conj Hu (conj Hs Hh)))).
  - destruct (Hcomments [seen_comment] scored_comment [] dataset_b after_two_comments
                "c7") as (n & row & Hr & Hf & Hu & Hs & Hh).
    + vm_compute. reflexivity.
    + reflexivity.
    + apply (bool_decide_unpack _). vm_compute. exact I.
    + vm_compute. reflexivity.
    + reflexivity.
    + exists n, row. exact (conj Hr (conj Hf (conj Hu (conj Hs Hh)))).
Defined.

Lemma sample_post_is_newer :
  newer_than (Posts.last_updated newer_post) (Posts.last_updated older_post).
Proof.
  exists "2024-01-02 00:00:00", "2024-01-01 09:00:00".
  repeat split; try discriminate.
Qed.

Lemma sample_comment_is_newer :
  newer_than (Comments.last_updated newer_comment) (Comments.last_updated older_comment).
Proof.
  exists "2024-01-02 00:00:00", "2024-01-01 09:00:00".
  repeat split; try discriminate.
Qed.

Lemma merge_existing_content_item_witness :
  exists merged,
    merged_files !! "b.db" = Some merged
    /\ (exists m,
          lookup_key Posts.post_id "p1" (posts merged) = Some m
          /\ post_mutable m = post_mutable newer_post
          /\ post_fixed m = post_fixed older_post)
    /\ counted_by Posts.post_id Posts.last_updated (posts dataset_a) (posts dataset_b)
         (mk_counts 1 1 0)
    /\ (exists m,
          lookup_key Comments.comment_id "c1" (comments merged) = Some m
          /\ comment_mutable m = comment_mutable newer_comment
          /\ comment_fixed m = comment_fixed older_comment).
Proof.
  destruct (merge_existing_content_item sample_files "a.db" "b.db" None dataset_a
              dataset_b first_run_stats merged_files)
    as (merged & Hm & Hposts & Hcount & Hcomments & _).
  - vm_compute. reflexivity.
  - vm_compute. reflexivity.
  - vm_compute. discriminate.
  - exact (proj1 sample_ids_unique).
  - exact (proj2 sample_ids_unique).
  - vm_compute. reflexivity.
  - exists merged. split; [exact Hm|]. split; [|split; [exact Hcount|]].
    + destruct (Hposts newer_post older_post "p1" ltac:(constructor) ltac:(constructor)
                  eq_refl eq_refl) as (m & Hl & Hnew & _).
      exists m. split; [exact Hl|]. exact (Hnew sample_post_is_newer).
    + destruct (Hcomments newer_comment older_comment "c1" ltac:(constructor)
                  ltac:(constructor) eq_refl eq_refl) as (m & Hl & Hnew & _).
      exists m. split; [exact Hl|]. exact (Hnew sample_comment_is_newer).
Defined.

Lemma merge_append_only_tables_witness :
  exists merged,
    merged_files !! "b.db" = Some merged
    /\ account_snapshots merged = [older_snapshot; newer_snapshot]
    /\ st_account_snapshots first_run_stats = mk_counts 1 0 0
    /\ score_history merged = [older_entry; newer_entry]
    /\ st_score_history first_run_stats = mk_counts 1 0 0.
Proof.
  destruct (merge_append_only_tables sample_files "a.db" "b.db" None dataset_a
              dataset_b first_run_stats merged_files)
    as (merged & Hm & Hs & Hcs & Hh & Hch).
  - vm_compute. reflexivity.
  - vm_compute. reflexivity.
  - vm_compute. discriminate.
  - vm_compute. reflexivity.
  - vm_compute. reflexivity.
  - exists merged. exact (conj Hm (conj Hs (conj Hcs (conj Hh Hch)))).
Defined.


Lemma untitled_image_post_aborts_the_call_witness :
  save_posts sample_clock sample_isoformat
    (fetch_image_over sample_http_get sample_write_file) "alice"
    ([unseen_post] ++ untitled_image_post :: [seen_post]) dataset_b
  = (Some TypeError, dataset_b).
Proof.
  apply (untitled_image_post_aborts_the_call sample_clock sample_isoformat
           (fetch_image_over sample_http_get sample_write_file) "alice"
           [unseen_post] untitled_image_post [seen_post] dataset_b
           (mk_session
              (save_posts sample_clock sample_isoformat
                 (fetch_image_over sample_http_get sample_write_file) "alice"
                 [unseen_post] dataset_b).2 3)
           "2024-02-29T18:30:00" "p9").
  - vm_compute. reflexivity.
  - vm_compute. reflexivity.
  - reflexivity.
  - vm_compute. reflexivity.
  - vm_compute. reflexivity.
  - reflexivity.
  - intros z [= <-]. lia.
  - intros z [= <-]. lia.
Defined.

Lemma completed_call_stores_every_item_witness :
  (is_Some (get (Post.id unseen_post))
   /\ is_ok (fromtimestamp_isoformat sample_isoformat
               (get_or 0 (Post.created_utc unseen_post))) = true
   /\ get (Post.id unseen_post) ∈ map Posts.post_id (posts after_posts))
  /\ (is_Some (get (Comment.id scored_comment))
      /\ is_ok (fromtimestamp_isoformat sample_isoformat
                  (get_or 0 (Comment.created_utc scored_comment))) = true
      /\ get (Comment.id scored_comment)
         ∈ map Comments.comment_id (comments after_two_comments)).
Proof.
  destruct (completed_call_stores_every_item sample_clock sample_isoformat
              sample_fetch_image "alice") as [Hposts Hcomments].
  split.
  - apply (Hposts [seen_post; unseen_post] dataset_b after_posts).
    + vm_compute. reflexivity.
    + right. left.
  - apply (Hcomments [seen_comment; scored_comment] dataset_b after_two_comments).
    + vm_compute. reflexivity.
    + right. left.
Defined.

Lemma snapshot_call_appends_one_row_witness :
  exists created,
    (save_account_snapshot sample_cycle_clock sample_isoformat sample_json_dumps 0
       "alice" sample_profile dataset_b).2
    = with_account_snapshots dataset_b
        (account_snapshots dataset_b
         ++ [snapshot_row sample_json_dumps "alice" "2024-03-01 10:00:00" created
               sample_profile])
    /\ created = Some "2024-02-29T18:30:00".
Proof.
  destruct (snapshot_call_appends_one_row sample_cycle_clock sample_isoformat
              sample_json_dumps 0%nat "alice" sample_profile dataset_b None
              (save_account_snapshot sample_cycle_clock sample_isoformat
                 sample_json_dumps 0 "alice" sample_profile dataset_b).2)
    as (created & Hfile & _ & Hdate).
  - vm_compute. reflexivity.
  - exists created. split; [exact Hfile|].
    symmetry. apply (Hdate 1589706764); [reflexivity | discriminate].
Defined.
